(** * rat: rationalise a list of files by turning copies into hard links

    A shallow embedding of [rat.c] (C. M. Downey, UKC 1985; POSIX port
    1998) and the properties of its classification, its comparison and
    its link swap.

    - The data of [rat.c]: [Info], [Head], the option flags.
    - The file system the program runs against: names, inodes, and what
      [lstat], [stat], [open], [read], [opendir], [rename], [link] and
      [unlink] do to them.
    - The state of a run as a [World], threaded through the state monad
      [M].  Every call of the system is logged with its outcome and the
      file system it left, so that the states between the calls of a
      swap can be looked at.
    - The functions of [rat.c], under their own names, from [main] down;
      then the option flags of the command line and the list of names
      read from a file (-f), which make up the whole program, [rat].
    - What is observed of a run, the scenarios, and the properties.

    Conventions.  A C [int] is a [Z], with the values of the source (0,
    1, -1); a call of the system returns 0, or -1 when it fails.  Any
    call can fail for a reason the model does not know (permissions, a
    full or foreign device, a file that went away): the environment
    decides, through [fault].  Not modelled: failure of [malloc], failure
    of [read] on an open regular file, reading from what is not a regular
    file, and a name too long for the buffer of [replace2]. *)

From Stdlib Require Import ZArith Lia.
From Stdlib.Strings Require Import Byte Ascii String.
From Stdlib Require Import DecimalString.
From stdpp Require Import gmap strings list fin_maps.

Open Scope Z_scope.

(** ** Data of rat.c *)

(** [struct info]: one file name; [i_next] is the list structure. *)
Record Info := mkInfo {
  i_name : string;          (* pointer to file name *)
  i_dir : option string;    (* pointer to directory (always NULL) *)
  i_ino : Z                 (* inode number *)
}.

(** [struct header]: an equivalence class; [h_next] is the list structure. *)
Record Head := mkHead {
  h_info : list Info;       (* pointer to list of files *)
  h_size : Z;               (* size of files *)
  h_dev : Z;                (* device number *)
  h_uid : Z;                (* ownership *)
  h_gid : Z;                (* group ownership *)
  h_perms : Z               (* permissions *)
}.

(** The global option variables, set once by [main]. *)
Record Options := mkOptions {
  verbose : bool;           (* print names of files rationalised *)
  noexec : bool;            (* don't actually do anything *)
  recursive : bool;         (* recurse down through directories *)
  ignore_uid : bool;        (* ignore ownership of files *)
  ignore_gid : bool;        (* ignore group ownership of files *)
  ignore_perms : bool;      (* ignore permissions of files *)
  ignore_empty : bool;      (* ignore empty files *)
  debug : bool;             (* debugging level *)
  symbolic : bool           (* follow symlinks to directories *)
}.

#[global] Instance Info_eq_dec : EqDecision Info.
Proof. solve_decision. Defined.

(** The two linked lists, [i_next] and [h_next]. *)
Abbreviation Infos := (list Info) (only parsing).
Abbreviation Heads := (list Head) (only parsing).

(* miscellaneous return values *)
Definition ISDIR : Z := 1.
Definition NOTDIR : Z := 0.
Definition NOSUCHFILE : Z := -1.

(* how much to raise priority by *)
Definition PRIORITY : Z := -5.

(** ** The file system *)

(** What [st_mode & S_IFMT] tells apart.  A directory carries the names
    [readdir] returns, a symbolic link the path it points to. *)
Inductive Kind :=
  | S_IFREG
  | S_IFDIR (entries : list string)
  | S_IFLNK (target : string)
  | S_IFOTHER.

Record Inode := mkInode {
  n_kind : Kind;
  n_perms : Z;              (* st_mode & ALLPERMS *)
  n_uid : Z;
  n_gid : Z;
  n_nlink : Z;
  n_data : list byte
}.

(** One mounted device: directory entries (full path to inode number) and
    the inode table. *)
Record FS := mkFS {
  fs_dev : Z;
  fs_names : gmap string Z;
  fs_inodes : gmap Z Inode
}.

(** [struct stat], the fields [rat.c] reads. *)
Record Stat := mkStat {
  st_kind : Kind;
  st_perms : Z;
  st_ino : Z;
  st_dev : Z;
  st_nlink : Z;
  st_uid : Z;
  st_gid : Z;
  st_size : Z
}.

Definition stat_of (fs : FS) (ino : Z) (nd : Inode) : Stat :=
  {| st_kind := n_kind nd; st_perms := n_perms nd; st_ino := ino;
     st_dev := fs_dev fs; st_nlink := n_nlink nd; st_uid := n_uid nd;
     st_gid := n_gid nd; st_size := Z.of_nat (length (n_data nd)) |}.

(** The inode a name is bound to, without following a symbolic link. *)
Definition fs_lookup (fs : FS) (path : string) : option (Z * Inode) :=
  match fs_names fs !! path with
  | Some ino =>
      match fs_inodes fs !! ino with
      | Some nd => Some (ino, nd)
      | None => None
      end
  | None => None
  end.

(** The same, following symbolic links, at most [hops] of them. *)
Fixpoint fs_resolve (hops : nat) (fs : FS) (path : string) : option (Z * Inode) :=
  match fs_lookup fs path with
  | Some (ino, nd) =>
      match n_kind nd with
      | S_IFLNK target =>
          match hops with
          | O => None
          | S hops' => fs_resolve hops' fs target
          end
      | _ => Some (ino, nd)
      end
  | None => None
  end.

(* the symbolic links followed in one path before ELOOP *)
Definition SYMLOOP_MAX : nat := 40.

Definition fs_lstat (fs : FS) (path : string) : option Stat :=
  match fs_lookup fs path with
  | Some (ino, nd) => Some (stat_of fs ino nd)
  | None => None
  end.

Definition fs_stat (fs : FS) (path : string) : option Stat :=
  match fs_resolve SYMLOOP_MAX fs path with
  | Some (ino, nd) => Some (stat_of fs ino nd)
  | None => None
  end.

(** [open(path, O_RDONLY)] of a regular file: the descriptor is the bytes
    still to be read. *)
Definition fs_open (fs : FS) (path : string) : option (list byte) :=
  match fs_resolve SYMLOOP_MAX fs path with
  | Some (_, nd) =>
      match n_kind nd with
      | S_IFREG => Some (n_data nd)
      | _ => None
      end
  | None => None
  end.

(** [opendir] and the names [readdir] then returns. *)
Definition fs_opendir (fs : FS) (path : string) : option (list string) :=
  match fs_resolve SYMLOOP_MAX fs path with
  | Some (_, nd) =>
      match n_kind nd with
      | S_IFDIR entries => Some entries
      | _ => None
      end
  | None => None
  end.

Definition nlink_add (d : Z) (nd : Inode) : Inode :=
  {| n_kind := n_kind nd; n_perms := n_perms nd; n_uid := n_uid nd;
     n_gid := n_gid nd; n_nlink := n_nlink nd + d; n_data := n_data nd |}.

(** [rename(old, new)]: fails when [old] does not exist; does nothing when
    both names are bound to the same inode; otherwise [new] is bound to
    the inode of [old], replacing what it was bound to, and [old] is gone. *)
Definition fs_rename (old new : string) (fs : FS) : option FS :=
  match fs_names fs !! old with
  | None => None
  | Some i =>
      match fs_names fs !! new with
      | Some j =>
          if decide (i = j) then Some fs
          else Some {| fs_dev := fs_dev fs;
                       fs_names := <[new := i]> (delete old (fs_names fs));
                       fs_inodes := alter (nlink_add (-1)) j (fs_inodes fs) |}
      | None =>
          Some {| fs_dev := fs_dev fs;
                  fs_names := <[new := i]> (delete old (fs_names fs));
                  fs_inodes := fs_inodes fs |}
      end
  end.

(** [link(existing, new)]: fails when [existing] does not exist or [new]
    does. *)
Definition fs_link (existing new : string) (fs : FS) : option FS :=
  match fs_names fs !! existing with
  | None => None
  | Some i =>
      match fs_names fs !! new with
      | Some _ => None
      | None =>
          Some {| fs_dev := fs_dev fs;
                  fs_names := <[new := i]> (fs_names fs);
                  fs_inodes := alter (nlink_add 1) i (fs_inodes fs) |}
      end
  end.

(** [unlink(path)]: fails when [path] does not exist.  An inode that has
    lost its last name stays in the table, with a link count of 0: that
    a file is gone is read off the names, not off the inodes. *)
Definition fs_unlink (path : string) (fs : FS) : option FS :=
  match fs_names fs !! path with
  | None => None
  | Some i =>
      Some {| fs_dev := fs_dev fs;
              fs_names := delete path (fs_names fs);
              fs_inodes := alter (nlink_add (-1)) i (fs_inodes fs) |}
  end.

(** ** The world the program runs in *)

Inductive Syscall :=
  | SysLstat (path : string)
  | SysStat (path : string)
  | SysOpen (path : string)
  | SysOpendir (path : string)
  | SysRename (old new : string)
  | SysLink (existing new : string)
  | SysUnlink (path : string).

(** What the program does that can be seen from outside, in order. *)
Inductive Event :=
  | Stdout (s : string)                    (* printf, puts *)
  | Stderr (s : string)                    (* fprintf(stderr, ...) *)
  | Error (syserr : bool) (msg : string)   (* error(syserr, ...) *)
  | Nice (incr : Z)                        (* nice(incr) *)
  | Call (c : Syscall) (ok : bool) (after : FS).

(** The part of the environment the program cannot change. *)
Record System := mkSystem {
  BUFSIZ : nat;                            (* <stdio.h> *)
  getpid : Z;
  geteuid : Z;
  time : nat -> Z;                         (* the clock, at each call *)
  fault : nat -> Syscall -> bool           (* does this call fail? *)
}.

Record World := mkWorld {
  w_fs : FS;
  w_calls : nat;                           (* calls made so far *)
  w_out : list Event;
  niceness : Z;                            (* current priority *)
  our_uid : Z                              (* our user id *)
}.

(* (uid_t) -1 *)
Definition NO_UID : Z := 4294967295.

Definition boot (fs : FS) : World :=
  {| w_fs := fs; w_calls := 0; w_out := []; niceness := 0; our_uid := NO_UID |}.

(** State passing. *)
Definition M (A : Type) : Type := World -> A * World.

Definition ret {A} (a : A) : M A := fun w => (a, w).

Definition bind {A B} (m : M A) (k : A -> M B) : M B :=
  fun w => let (a, w') := m w in k a w'.

Notation "x <- c1 ;; c2" := (bind c1 (fun x => c2))
  (at level 100, c1 at next level, right associativity).
Notation "c1 ;; c2" := (bind c1 (fun _ => c2))
  (at level 100, right associativity).

Definition emit (e : Event) : M unit :=
  fun w => (tt, {| w_fs := w_fs w; w_calls := w_calls w;
                   w_out := w_out w ++ [e];
                   niceness := niceness w; our_uid := our_uid w |}).

Definition when (b : bool) (m : M unit) : M unit :=
  if b then m else ret tt.

(* end of line *)
Definition nl : string := String "010"%char EmptyString.

Definition printf (s : string) : M unit := emit (Stdout s).
Definition puts (s : string) : M unit := emit (Stdout (s +:+ nl)).

(** [error(syserr, ...)] writes the name of the program, the message and,
    when [syserr] is set, the text of [errno] to stderr. *)
Definition error (syserr : bool) (msg : string) : M unit := emit (Error syserr msg).

(** [%4.4x] of a value below 65536: four hexadecimal digits. *)
Definition hexdigit (d : Z) : ascii :=
  nth (Z.to_nat d) (list_ascii_of_string "0123456789abcdef") "0"%char.

Definition hex4 (v : Z) : string :=
  String (hexdigit (v / 4096 mod 16))
    (String (hexdigit (v / 256 mod 16))
       (String (hexdigit (v / 16 mod 16))
          (String (hexdigit (v mod 16)) EmptyString))).

(** [memcmp(s1, s2, n)]: the difference of the first two bytes that
    differ among the first [n], 0 when there is none. *)
Fixpoint memcmp (s1 s2 : list byte) (n : nat) : Z :=
  match n, s1, s2 with
  | S n', b1 :: t1, b2 :: t2 =>
      if Byte.eqb b1 b2 then memcmp t1 t2 n'
      else Z.of_N (Byte.to_N b1) - Z.of_N (Byte.to_N b2)
  | _, _, _ => 0
  end.

(** given two strings a & b, concatenate them into a unix pathname. *)
Definition mkpath (dir file : string) : string :=
  match dir, file with
  | EmptyString, _ => file                         (* null path *)
  | String "."%char EmptyString, _ => file         (* path is "." *)
  | _, String "/"%char _ => file                   (* file is absolute *)
  | _, _ => dir +:+ "/" +:+ file
  end.

Section Rat.

Variable sys : System.
Variable opt : Options.

(** *** Calls of the operating system *)

Definition logged (c : Syscall) (ok : bool) (fs' : FS) (w : World) : World :=
  {| w_fs := fs'; w_calls := S (w_calls w);
     w_out := w_out w ++ [Call c ok fs'];
     niceness := niceness w; our_uid := our_uid w |}.

(** What a call comes to: nothing when the environment makes it fail. *)
Definition attempt {A} (c : Syscall) (f : FS -> option A) (w : World) : option A :=
  if fault sys (w_calls w) c then None else f (w_fs w).

(** A call that reads the file system. *)
Definition query {A} (c : Syscall) (f : FS -> option A) : M (option A) :=
  fun w =>
    match attempt c f w with
    | Some a => (Some a, logged c true (w_fs w) w)
    | None => (None, logged c false (w_fs w) w)
    end.

(** A call that changes it: 0, or -1 and no change. *)
Definition mutate (c : Syscall) (f : FS -> option FS) : M Z :=
  fun w =>
    match attempt c f w with
    | Some fs' => (0, logged c true fs' w)
    | None => (-1, logged c false (w_fs w) w)
    end.

Definition lstat (path : string) : M (option Stat) :=
  query (SysLstat path) (fun fs => fs_lstat fs path).

Definition stat (path : string) : M (option Stat) :=
  query (SysStat path) (fun fs => fs_stat fs path).

Definition open (path : string) : M (option (list byte)) :=
  query (SysOpen path) (fun fs => fs_open fs path).

Definition opendir (path : string) : M (option (list string)) :=
  query (SysOpendir path) (fun fs => fs_opendir fs path).

Definition rename (old new : string) : M Z :=
  mutate (SysRename old new) (fs_rename old new).

Definition link (existing new : string) : M Z :=
  mutate (SysLink existing new) (fs_link existing new).

Definition unlink (path : string) : M Z :=
  mutate (SysUnlink path) (fs_unlink path).

(** [read(fd, buf, sizeof(buf))]: the bytes read and the descriptor after.
    A read is not logged and not counted in [w_calls]. *)
Definition read (fd : list byte) : list byte * list byte :=
  (take (BUFSIZ sys) fd, drop (BUFSIZ sys) fd).

(* time(&clock) *)
Definition clock_now : M Z := fun w => (time sys (w_calls w), w).

(** *** Priority *)

(** The calls of [nice] are logged, with the increment asked for; what
    they come to for the process is [priority], below. *)

(** raise process priority for critical code. *)
Definition raisepriority : M unit :=
  fun w =>
    let uid := if our_uid w =? NO_UID then geteuid sys else our_uid w in
    (tt, {| w_fs := w_fs w; w_calls := w_calls w;
            w_out := w_out w ++ (if uid =? 0 then [Nice PRIORITY] else []);
            niceness := if uid =? 0 then niceness w + PRIORITY else niceness w;
            our_uid := uid |}).

(** put the priority back where it was. *)
Definition lowerpriority : M unit :=
  fun w =>
    (tt, {| w_fs := w_fs w; w_calls := w_calls w;
            w_out := w_out w ++ (if our_uid w =? 0 then [Nice (- niceness w)] else []);
            niceness := if our_uid w =? 0 then 0 else niceness w;
            our_uid := our_uid w |}).

(** *** compare *)

(** The [do ... while (n1 > 0 && n2 > 0)] loop of [compare]; [fuel] bounds
    the number of further rounds. *)
Fixpoint compare_loop (fuel : nat) (fd1 fd2 : list byte) : Z :=
  let '(buf1, fd1') := read fd1 in
  let '(buf2, fd2') := read fd2 in
  let n1 := Z.of_nat (length buf1) in
  let n2 := Z.of_nat (length buf2) in
  if negb (n1 =? n2) then 1                        (* files are different sizes *)
  else if negb (memcmp buf1 buf2 (length buf1) =? 0) then 1
  else if (0 <? n1) && (0 <? n2) then
    match fuel with
    | S fuel' => compare_loop fuel' fd1' fd2'
    | O => 0
    end
  else 0.

(** compare the given files. returns 0 for identical files, and 1 if they
    are different. if files are not readable, they are considered to be
    different, and -1 is returned. *)
Definition compare (file1 file2 : string) : M Z :=
  fd1 <- open file1 ;;
  match fd1 with
  | None => ret (-1)
  | Some fd1 =>
      fd2 <- open file2 ;;
      match fd2 with
      | None => ret (-1)
      | Some fd2 => ret (compare_loop (length fd1) fd1 fd2)
      end
  end.

(** *** The link swap *)

(* sprintf(newname, "%s%4.4x%4.4x", to, getpid() & 0xffff, clock & 0xffff) *)
Definition newname_of (to : string) (clock : Z) : string :=
  to +:+ hex4 (Z.land (getpid sys) 65535) +:+ hex4 (Z.land clock 65535).

(** Replace the second filename with a link to the first.
    Returns 0 for failure, 1 for success, -1 for catastrophic
    failure (i.e. one of the files may have been lost) *)
Definition replace2 (from to : string) : M Z :=
  when (debug opt) (printf ("replace2(" +:+ from +:+ ", " +:+ to +:+ ")" +:+ nl)) ;;
  if noexec opt then
    (* If -n has been given, just print commands. *)
    printf ("link " +:+ to +:+ " to " +:+ from +:+ nl) ;;
    ret 1
  else
    (* Before we throw "to" away, relink it to a temporary file. *)
    clock <- clock_now ;;
    let newname := newname_of to clock in
    when (debug opt) (puts "replace2 - creating save file") ;;
    raisepriority ;;
    r <- rename to newname ;;
    if r =? -1 then                                (* cannot save file *)
      when (debug opt)
        (error true ("rename('" +:+ to +:+ "', '" +:+ newname +:+ "')")) ;;
      lowerpriority ;;
      ret 0
    else
      (* Now try and link them together. *)
      when (debug opt) (puts "replace2 - linking") ;;
      r <- link from to ;;
      if r =? -1 then
        r <- rename newname to ;;
        if r =? -1 then
          when (debug opt)
            (error true ("rename(" +:+ newname +:+ ", " +:+ to +:+ ")")) ;;
          lowerpriority ;;
          ret 0
        else
          error true ("failed to link " +:+ to +:+ " to " +:+ from
                      +:+ " - copy has been left on " +:+ newname +:+ nl) ;;
          lowerpriority ;;
          ret (-1)
      else
        lowerpriority ;;
        r <- unlink newname ;;
        when (r =? -1) (error true ("cannot remove temporary file " +:+ newname)) ;;
        when (verbose opt) (printf ("linking " +:+ to +:+ " to " +:+ from +:+ nl)) ;;
        ret 1.

(** Given two files, decide if they are identical, and if so, try and
    replace one with a link to the other.  Returns 1 if the files were
    linked, or are already linked, or cannot be linked due to a problem,
    and 0 if the files are different. *)
Definition replace (a b : Info) : M Z :=
  when (debug opt) (puts "replace") ;;
  if i_ino a =? i_ino b then ret 1
  else
    r <- compare (i_name a) (i_name b) ;;
    if negb (r =? 0) then ret 0                    (* Different contents *)
    else
      (* Delete and replace the file with the lower link count. *)
      sa <- lstat (i_name a) ;;
      match sa with
      | None => emit (Stderr ("Cannot restat " +:+ i_name a +:+ nl)) ;; ret 0
      | Some stbuf_a =>
          sb <- lstat (i_name b) ;;
          match sb with
          | None => emit (Stderr ("Cannot restat " +:+ i_name b +:+ nl)) ;; ret 0
          | Some stbuf_b =>
              (if st_nlink stbuf_b <=? st_nlink stbuf_a
               then replace2 (i_name a) (i_name b)
               else replace2 (i_name b) (i_name a)) ;;
              (* it is irrelevant whether we succeeded or not *)
              ret 1
          end
      end.

(** *** Consolidation of a class *)

(* a double quote *)
Definition dq : string := String "034"%char EmptyString.

(* the line [comb2] prints when debugging *)
Definition comb2_line (elem b : Info) : string :=
  "comb2 " +:+ dq +:+ i_name elem +:+ dq +:+ " " +:+ dq +:+ i_name b +:+ dq +:+ nl.

(** Attempt to combine the file given with each file in the given list. *)
Fixpoint comb2 (elem : Info) (ilist : Infos) : M Infos :=
  match ilist with
  | [] => ret []
  | b :: x =>
      when (debug opt)
        (printf (comb2_line elem b)) ;;
      r <- replace elem b ;;
      if negb (r =? 0) then comb2 elem x
      else (rest <- comb2 elem x ;; ret (b :: rest))
  end.

(** The [while] loop of [combine].  Every round drops the head, so
    [length list] rounds are enough; [fuel] counts them. *)
Fixpoint combine_while (fuel : nat) (list : Infos) : M unit :=
  match list with
  | elem :: ((_ :: _) as ilist) =>
      match fuel with
      | S fuel' => list' <- comb2 elem ilist ;; combine_while fuel' list'
      | O => ret tt
      end
  | _ => ret tt
  end.

(** Given an equivalence list, combine together all files which are
    identical. *)
Definition combine (list : Infos) : M unit :=
  when (debug opt) (puts "combine") ;;
  combine_while (length list) list.

(** [combine_while], also returning the members no sweep removed: the
    head of every round and what is left when the loop ends. *)
Fixpoint combine_kept (fuel : nat) (list : Infos) : M Infos :=
  match list with
  | elem :: ((_ :: _) as ilist) =>
      match fuel with
      | S fuel' =>
          list' <- comb2 elem ilist ;;
          kept <- combine_kept fuel' list' ;;
          ret (elem :: kept)
      | O => ret list
      end
  | _ => ret list
  end.

(** *** Classification *)

(** The test of [assoc]: will the file fit into this class? *)
Definition fits (hp listp : Head) : bool :=
  (h_size hp =? h_size listp) &&
  (h_dev hp =? h_dev listp) &&
  (ignore_uid opt || (h_uid hp =? h_uid listp)) &&
  (ignore_gid opt || (h_gid hp =? h_gid listp)) &&
  (ignore_perms opt || (h_perms hp =? h_perms listp)).

(* h->h_info->i_name *)
Definition first_name (h : Head) : string :=
  match h_info h with
  | i :: _ => i_name i
  | [] => EmptyString
  end.

(** [hp->h_info->i_next = listp->h_info; listp->h_info = hp->h_info]:
    the file of [hp] goes in front of the files of the class. *)
Definition insert_info (hp listp : Head) : Head :=
  {| h_info := take 1 (h_info hp) ++ h_info listp;
     h_size := h_size listp; h_dev := h_dev listp; h_uid := h_uid listp;
     h_gid := h_gid listp; h_perms := h_perms listp |}.

(** The [for] loop of [assoc]: the list with the file inserted in the
    first class it fits, if there is one. *)
Fixpoint assoc_for (hp : Head) (list : Heads) : M (option Heads) :=
  match list with
  | [] => ret None
  | listp :: rest =>
      if fits hp listp then
        when (debug opt)
          (printf ("associating " +:+ first_name listp +:+ " with "
                   +:+ first_name hp +:+ nl)) ;;
        ret (Some (insert_info hp listp :: rest))
      else
        r <- assoc_for hp rest ;;
        ret (option_map (cons listp) r)
  end.

(** Given a reference to a file, and an associativity list, enter the
    file in an appropriate equivalence class. *)
Definition assoc (hp : Head) (list : Heads) : M Heads :=
  when (debug opt) (puts "assoc") ;;
  r <- assoc_for hp list ;;
  match r with
  | Some list' => ret list'
  | None =>
      (* push a new element on to the head of the list *)
      ret ({| h_info := h_info hp; h_size := h_size hp; h_dev := h_dev hp;
              h_uid := h_uid hp; h_gid := h_gid hp; h_perms := h_perms hp |}
           :: list)
  end.

(** [newinfo]: [inl r] is the result [r] with the header left alone,
    [inr head] the result 0 with the header filled in. *)
Definition fill (cp : string) (stbuf : Stat) : M (Z + Head) :=
  if ignore_empty opt && (st_size stbuf =? 0) then ret (inl NOSUCHFILE)
  else
    ret (inr {| h_info := [ {| i_name := cp; i_dir := None; i_ino := st_ino stbuf |} ];
                h_size := st_size stbuf; h_dev := st_dev stbuf;
                h_uid := st_uid stbuf; h_gid := st_gid stbuf;
                h_perms := st_perms stbuf |}).

Definition newinfo (filename directory : string) : M (Z + Head) :=
  when (debug opt)
    (printf ("newinfo(" +:+ filename +:+ ", " +:+ directory +:+ ")" +:+ nl)) ;;
  let cp := mkpath directory filename in
  st <- lstat cp ;;
  match st with
  | None => ret (inl NOSUCHFILE)                   (* does not exist *)
  | Some stbuf =>
      match st_kind stbuf with
      | S_IFLNK _ =>
          if negb (symbolic opt) then ret (inl NOSUCHFILE)
          else
            st' <- stat cp ;;
            match st' with
            | None => ret (inl NOSUCHFILE)         (* nothing to point to *)
            | Some stbuf' =>
                match st_kind stbuf' with
                | S_IFDIR _ => ret (inl ISDIR)     (* symlink to directory *)
                | S_IFREG => fill cp stbuf'        (* symlink to regular file *)
                | _ => ret (inl NOSUCHFILE)        (* symlink to special file *)
                end
            end
      | S_IFDIR _ => ret (inl ISDIR)               (* directory *)
      | S_IFREG => fill cp stbuf                   (* a regular file *)
      | S_IFOTHER => ret (inl NOSUCHFILE)          (* special file *)
      end
  end.

(** Enter the file in the given associativity list.  Returns ISDIR if a
    directory is encountered, and NOTDIR for successfully entered files;
    the list is the new value of [*listp]. *)
Definition enter (filename directory : string) (list : Heads) : M (Z * Heads) :=
  when (debug opt)
    (printf ("enter(" +:+ filename +:+ ", " +:+ directory +:+ ")" +:+ nl)) ;;
  r <- newinfo filename directory ;;
  match r with
  | inl code =>
      if code =? NOSUCHFILE then ret (NOTDIR, list)
      else if code =? ISDIR then ret (ISDIR, list)
      else ret (NOTDIR, list)
  | inr head => list' <- assoc head list ;; ret (NOTDIR, list')
  end.

(** Given a directory name and a linked list, add the files within the
    directory to the list, and return the new list.  [depth] bounds the
    nesting of directories followed. *)
Fixpoint enterdir (depth : nat) (dirname : string) (list : Heads) : M Heads :=
  when (debug opt) (printf ("enterdir(" +:+ dirname +:+ ")" +:+ nl)) ;;
  dirp <- opendir dirname ;;
  match dirp with
  | None => error true ("cannot open directory " +:+ dirname) ;; ret list
  | Some entries =>
      (fix readdir entries (list : Heads) : M Heads :=
         match entries with
         | [] => ret list
         | d_name :: more =>
             if String.eqb d_name "." || String.eqb d_name ".."
             then readdir more list                (* skip self and parent *)
             else
               r <- enter d_name dirname list ;;
               if (fst r =? ISDIR) && recursive opt then
                 match depth with
                 | S depth' =>
                     list' <- enterdir depth' (mkpath dirname d_name) (snd r) ;;
                     readdir more list'
                 | O => readdir more (snd r)
                 end
               else readdir more (snd r)
         end) entries list
  end.

(** Associate the given vector of filenames into a list of lists of
    Info. *)
Fixpoint associate_for (depth : nat) (argv : list string) (list : Heads) : M Heads :=
  match argv with
  | [] => ret list
  | arg :: rest =>
      r <- enter arg "." list ;;
      if fst r =? ISDIR then
        list' <- enterdir depth arg (snd r) ;;
        associate_for depth rest list'
      else associate_for depth rest (snd r)
  end.

Definition associate (depth : nat) (argv : list string) : M Heads :=
  when (debug opt) (puts "associate") ;;
  associate_for depth argv [].

(** The [while] loop of [main]: [combine] on each class in turn. *)
Fixpoint main_while (list : Heads) : M unit :=
  match list with
  | [] => ret tt
  | h :: rest => combine (h_info h) ;; main_while rest
  end.

(** [main], after the option flags have been read into [opt]; [argv] are
    the remaining arguments, [depth] the bound for [enterdir].  Current
    directory is default. *)
Definition main (depth : nat) (argv : list string) : M Z :=
  list <- (match argv with
           | [] => associate depth ["."%string]
           | _ => associate depth argv
           end) ;;
  main_while list ;;
  ret 0.

End Rat.


(** ** The command line and the list of names *)

(* number of bytes needed: [opt] is the special case of [mkpath] *)
Definition mkpath_opt (dir file : string) : bool :=
  match dir with
  | EmptyString => true                            (* null path *)
  | String "."%char EmptyString => true            (* path is "." *)
  | _ => match file with
         | String "/"%char _ => true               (* file is absolute *)
         | _ => false
         end
  end.

(* size = opt ? strlen(file) + 1 : strlen(dir) + strlen(file) + 2 *)
Definition mkpath_size (dir file : string) : nat :=
  if mkpath_opt dir file then String.length file + 1
  else String.length dir + String.length file + 2.

(** [fgets(buf, size, stream)] reads bytes up to and including the first
    newline, [size - 1] of them at most; [room] is the space left.  The
    result is what is in [buf] before the terminating NUL, and the
    stream after. *)
Fixpoint fgets_into (room : nat) (stream : list byte) : list byte * list byte :=
  match room, stream with
  | S room', b :: rest =>
      if Byte.eqb b x0a then ([b], rest)
      else let (buf, rest') := fgets_into room' rest in (b :: buf, rest')
  | _, _ => ([], stream)
  end.

(* NULL at end of file *)
Definition fgets (size : nat) (stream : list byte) : option (list byte * list byte) :=
  match stream with
  | [] => None
  | _ => Some (fgets_into (size - 1) stream)
  end.

(** [strchr(s, c)]: where [c] first occurs in the string in [s], which
    ends at the first NUL. *)
Fixpoint strchr (s : list byte) (c : byte) : option nat :=
  match s with
  | [] => None
  | b :: s' =>
      if Byte.eqb b c then Some O
      else if Byte.eqb b x00 then None
      else S <$> strchr s' c
  end.

(** The string in a buffer. *)
Fixpoint cstring (s : list byte) : string :=
  match s with
  | [] => EmptyString
  | b :: s' =>
      if Byte.eqb b x00 then EmptyString
      else String (ascii_of_byte b) (cstring s')
  end.

(* %d *)
Definition decimal (n : Z) : string := NilZero.string_of_int (Z.to_int n).

Section List.

Variable sys : System.
Variable opt : Options.

(** print an error message and die: [None] is [exit(1)]. *)
Definition fatal {A} (msg : string) : M (option A) :=
  error true msg ;; ret None.

(** The [while] loop of [assocfromfile]; every round takes a byte at
    least from [infile], and [fuel] counts the rounds. *)
Fixpoint assocfromfile_while (depth fuel : nat) (filename : string) (lineno : Z)
    (infile : list byte) (list : Heads) : M (option Heads) :=
  match fgets 256 infile with
  | None => ret (Some list)
  | Some (buf, infile') =>
      match strchr buf x0a with
      | None =>
          fatal ("Line " +:+ decimal lineno +:+ " too long in "
                 +:+ dq +:+ filename +:+ dq)
      | Some s =>
          let buf := cstring (take s buf) in       (* *s = '\0' *)
          match fuel with
          | S fuel' =>
              r <- enter sys opt buf "." list ;;
              list' <- (if fst r =? ISDIR then enterdir sys opt depth buf (snd r)
                        else ret (snd r)) ;;
              assocfromfile_while depth fuel' filename (lineno + 1) infile' list'
          | O => ret (Some list)
          end
      end
  end.

(** Associate all files listed within the given filename into a list of
    lists of Info.  [stdin] is what can be read from the standard
    input. *)
Definition assocfromfile (depth : nat) (stdin : list byte) (filename : string) :
    M (option Heads) :=
  when (debug opt) (printf ("assocfromfile(" +:+ filename +:+ ")")) ;;
  if String.eqb filename "-" then
    assocfromfile_while depth (length stdin) filename 1 stdin []
  else
    infile <- open sys filename ;;
    match infile with
    | None => fatal ("Cannot open " +:+ dq +:+ filename +:+ dq)
    | Some infile => assocfromfile_while depth (length infile) filename 1 infile []
    end.

End List.

(** *** The option flags *)

Definition USAGE : string :=
  "usage: rat [-vnrsugpz] [ file ... | -f listfile ]" +:+ nl.

(* the option variables when main starts *)
Definition unset : Options :=
  {| verbose := false; noexec := false; recursive := false; ignore_uid := false;
     ignore_gid := false; ignore_perms := false; ignore_empty := false;
     debug := false; symbolic := false |}.

(** The [switch] of [main] on one letter of a flag argument.  [next] is
    [argv[count + 1]] when there is one; the state is the option
    variables and [inputfile]; [None] is [exit(1)]. *)
Definition flag (c : ascii) (next : option string) (st : Options * option string) :
    M (option (Options * option string)) :=
  let (o, inputfile) := st in
  match c with
  | "v"%char =>                                    (* say what we are doing *)
      ret (Some ({| verbose := true; noexec := noexec o; recursive := recursive o;
                    ignore_uid := ignore_uid o; ignore_gid := ignore_gid o;
                    ignore_perms := ignore_perms o; ignore_empty := ignore_empty o;
                    debug := debug o; symbolic := symbolic o |}, inputfile))
  | "n"%char =>                                    (* don't do anything *)
      ret (Some ({| verbose := true; noexec := true; recursive := recursive o;
                    ignore_uid := ignore_uid o; ignore_gid := ignore_gid o;
                    ignore_perms := ignore_perms o; ignore_empty := ignore_empty o;
                    debug := debug o; symbolic := symbolic o |}, inputfile))
  | "r"%char =>                                    (* recursive mode *)
      ret (Some ({| verbose := verbose o; noexec := noexec o; recursive := true;
                    ignore_uid := ignore_uid o; ignore_gid := ignore_gid o;
                    ignore_perms := ignore_perms o; ignore_empty := ignore_empty o;
                    debug := debug o; symbolic := symbolic o |}, inputfile))
  | "s"%char =>                                    (* follow symlinks *)
      ret (Some ({| verbose := verbose o; noexec := noexec o; recursive := recursive o;
                    ignore_uid := ignore_uid o; ignore_gid := ignore_gid o;
                    ignore_perms := ignore_perms o; ignore_empty := ignore_empty o;
                    debug := debug o; symbolic := true |}, inputfile))
  | "u"%char =>                                    (* ignore ownership info *)
      ret (Some ({| verbose := verbose o; noexec := noexec o; recursive := recursive o;
                    ignore_uid := true; ignore_gid := ignore_gid o;
                    ignore_perms := ignore_perms o; ignore_empty := ignore_empty o;
                    debug := debug o; symbolic := symbolic o |}, inputfile))
  | "g"%char =>                                    (* ignore group ownership info *)
      ret (Some ({| verbose := verbose o; noexec := noexec o; recursive := recursive o;
                    ignore_uid := ignore_uid o; ignore_gid := true;
                    ignore_perms := ignore_perms o; ignore_empty := ignore_empty o;
                    debug := debug o; symbolic := symbolic o |}, inputfile))
  | "p"%char =>                                    (* ignore permissions info *)
      ret (Some ({| verbose := verbose o; noexec := noexec o; recursive := recursive o;
                    ignore_uid := ignore_uid o; ignore_gid := ignore_gid o;
                    ignore_perms := true; ignore_empty := ignore_empty o;
                    debug := debug o; symbolic := symbolic o |}, inputfile))
  | "z"%char =>                                    (* ignore empty files *)
      ret (Some ({| verbose := verbose o; noexec := noexec o; recursive := recursive o;
                    ignore_uid := ignore_uid o; ignore_gid := ignore_gid o;
                    ignore_perms := ignore_perms o; ignore_empty := true;
                    debug := debug o; symbolic := symbolic o |}, inputfile))
  | "f"%char =>                                    (* read list of filenames from file *)
      match next with
      | Some file => ret (Some (o, Some file))
      | None => emit (Stderr USAGE) ;; ret (Some (o, inputfile))
      end
  | "d"%char =>                                    (* debug - undocumented *)
      ret (Some ({| verbose := verbose o; noexec := noexec o; recursive := recursive o;
                    ignore_uid := ignore_uid o; ignore_gid := ignore_gid o;
                    ignore_perms := ignore_perms o; ignore_empty := ignore_empty o;
                    debug := true; symbolic := symbolic o |}, inputfile))
  | _ => emit (Stderr USAGE) ;; ret None
  end.

(** The inner [for] loop: the letters of one argument, after the dash. *)
Fixpoint flags (letters : string) (next : option string) (st : Options * option string) :
    M (option (Options * option string)) :=
  match letters with
  | EmptyString => ret (Some st)
  | String c letters' =>
      r <- flag c next st ;;
      match r with
      | None => ret None
      | Some st' => flags letters' next st'
      end
  end.

(** The outer [for] loop: the arguments that begin with a dash.  The
    result is the state and the arguments from [argv[count]] on. *)
Fixpoint main_for (argv : list string) (st : Options * option string) :
    M (option (Options * option string * list string)) :=
  match argv with
  | String "-"%char letters :: rest =>
      r <- flags letters (head rest) st ;;
      match r with
      | None => ret None
      | Some st' => main_for rest st'
      end
  | _ => ret (Some (st, argv))
  end.

(** The whole of [main]: [argv] is the command line from [argv[1]] on,
    the result the exit status of the process. *)
Definition rat (sys : System) (depth : nat) (stdin : list byte) (argv : list string) :
    M Z :=
  r <- main_for argv (unset, None) ;;
  match r with
  | None => ret 1
  | Some (opt, inputfile, rest) =>
      match inputfile with
      | Some filename =>
          l <- assocfromfile sys opt depth stdin filename ;;
          match l with
          | None => ret 1
          | Some list => main_while sys opt list ;; ret 0
          end
      | None => main sys opt depth rest
      end
  end.
(** ** What can be observed of a run *)

Definition is_mutating (c : Syscall) : bool :=
  match c with
  | SysRename _ _ | SysLink _ _ | SysUnlink _ => true
  | _ => false
  end.

Definition is_mutation (e : Event) : bool :=
  match e with
  | Call c _ _ => is_mutating c
  | _ => false
  end.

(** The calls of [rename], [link] and [unlink] in an output, failed ones
    included. *)
Definition mutations (out : list Event) : list Event := List.filter is_mutation out.

Definition is_report (e : Event) : bool :=
  match e with
  | Stderr _ | Error _ _ => true
  | _ => false
  end.

(** What went to stderr. *)
Definition reports (out : list Event) : list Event := List.filter is_report out.

(** The same calls, without the file system they left. *)
Definition attempts (out : list Event) : list (Syscall * bool) :=
  flat_map (fun e => match e with
                     | Call c ok _ => if is_mutating c then [(c, ok)] else []
                     | _ => []
                     end) out.

(** The file system after each call, in order. *)
Definition snapshots (out : list Event) : list FS :=
  flat_map (fun e => match e with Call _ _ fs => [fs] | _ => [] end) out.

(** A computation that leaves the file system alone and calls none of
    [rename], [link], [unlink]. *)
Definition quiet {A} (m : M A) : Prop :=
  forall w, w_fs (snd (m w)) = w_fs w /\
            mutations (w_out (snd (m w))) = mutations (w_out w).

(** What an inode holds: the kind of file and its bytes. *)
Definition file_of (fs : FS) (ino : Z) : option (Kind * list byte) :=
  (fun nd => (n_kind nd, n_data nd)) <$> fs_inodes fs !! ino.

(** What a name leads to, when it is bound (a symbolic link is not
    followed). *)
Definition content (fs : FS) (path : string) : option (Kind * list byte) :=
  match fs_names fs !! path with
  | Some ino => file_of fs ino
  | None => None
  end.

(** The steps of [replace] before the swap: the comparison and the two
    calls of [lstat]. *)
Definition compared (sys : System) (opt : Options) (a b : Info) (w : World) : Z * World :=
  compare sys (i_name a) (i_name b) (snd (when (debug opt) (puts "replace") w)).

Definition restat_a (sys : System) (opt : Options) (a b : Info) (w : World) :
    option Stat * World :=
  lstat sys (i_name a) (snd (compared sys opt a b w)).

Definition restat_b (sys : System) (opt : Options) (a b : Info) (w : World) :
    option Stat * World :=
  lstat sys (i_name b) (snd (restat_a sys opt a b w)).

(** During a swap that retires [to], with [newname] the save file: [fs]
    has kept what [fs0] held.  Every other name is bound as before, every
    inode holds what it held, and what [to] led to is found under [to]
    or, while [to] is gone, under [newname]. *)
Definition kept (fs0 fs : FS) (to newname : string) : Prop :=
  (forall p, p <> to -> p <> newname -> fs_names fs !! p = fs_names fs0 !! p) /\
  (forall ino, file_of fs ino = file_of fs0 ino) /\
  (content fs to = content fs0 to \/
   (fs_names fs !! to = None /\ content fs newname = content fs0 to)).

(** No class of the list would take the files of another. *)
Fixpoint apart (opt : Options) (list : Heads) : Prop :=
  match list with
  | [] => True
  | c :: rest => Forall (fun d => fits opt c d = false) rest /\ apart opt rest
  end.

(** *** A class nobody else has a link into *)

(** The name leads to the inode recorded for it, a regular file with no
    other link. *)
Definition solo (fs : FS) (m : Info) : Prop :=
  fs_names fs !! i_name m = Some (i_ino m) /\
  exists nd, fs_inodes fs !! i_ino m = Some nd /\
             n_kind nd = S_IFREG /\ n_nlink nd = 1.

(** The same, with any number of links. *)
Definition held (fs : FS) (m : Info) : Prop :=
  fs_names fs !! i_name m = Some (i_ino m) /\
  exists nd, fs_inodes fs !! i_ino m = Some nd /\
             n_kind nd = S_IFREG /\ 1 <= n_nlink nd.

(** No save file that a swap could choose for the name is in use. *)
Definition unused_save (sys : System) (fs : FS) (m : Info) : Prop :=
  forall n, fs_names fs !! newname_of sys (i_name m) (time sys n) = None.

Definition tidy (sys : System) (fs : FS) (list : Infos) : Prop :=
  NoDup (i_name <$> list) /\ NoDup (i_ino <$> list) /\
  Forall (solo fs) list /\ Forall (unused_save sys fs) list.

(** The members of a class that [combine] never removes from it. *)
Definition survivors (sys : System) (opt : Options) (list : Infos) (w : World) : Infos :=
  fst (combine_kept sys opt (length list) list
         (snd (when (debug opt) (puts "combine") w))).

(** The class as a second run finds it: the same names, with the inode
    numbers read again. *)
Definition reread (fs : FS) (list : Infos) : Infos :=
  (fun m => {| i_name := i_name m; i_dir := i_dir m;
               i_ino := default (i_ino m) (fs_names fs !! i_name m) |}) <$> list.

(** The name leads to the inode recorded for it, a regular file. *)
Definition regular_at (fs : FS) (m : Info) : Prop :=
  fs_names fs !! i_name m = Some (i_ino m) /\
  exists data, file_of fs (i_ino m) = Some (S_IFREG, data).

(** A class with nothing left to link: two members have the same inode
    number or different content. *)
Definition settled (fs : FS) (list : Infos) : Prop :=
  Forall (regular_at fs) list /\
  forall x y, x ∈ list -> y ∈ list -> i_ino x <> i_ino y ->
    file_of fs (i_ino x) <> file_of fs (i_ino y).

(** ** Scenarios *)

Definition regular (nlink : Z) (data : list byte) : Inode :=
  {| n_kind := S_IFREG; n_perms := 420; n_uid := 1000; n_gid := 1000;
     n_nlink := nlink; n_data := data |}.

(** An environment in which no call fails. *)
Definition calm : System :=
  {| BUFSIZ := 4; getpid := 4660; geteuid := 1000;
     time := fun _ => 22136; fault := fun _ _ => false |}.

Definition plain : Options :=
  {| verbose := false; noexec := false; recursive := false; ignore_uid := false;
     ignore_gid := false; ignore_perms := false; ignore_empty := false;
     debug := false; symbolic := false |}.

(* -n *)
Definition dry : Options :=
  {| verbose := true; noexec := true; recursive := false; ignore_uid := false;
     ignore_gid := false; ignore_perms := false; ignore_empty := false;
     debug := false; symbolic := false |}.

(** [a] and [b] hold "X", [c] holds "Y"; one name each. *)
Definition fs_abc : FS :=
  {| fs_dev := 1;
     fs_names := <["a" := 100]> (<["b" := 101]> (<["c" := 102]> ∅));
     fs_inodes := <[100 := regular 1 [x58]]>
                    (<[101 := regular 1 [x58]]> (<[102 := regular 1 [x59]]> ∅)) |}.

Definition info_a : Info := {| i_name := "a"; i_dir := None; i_ino := 100 |}.
Definition info_b : Info := {| i_name := "b"; i_dir := None; i_ino := 101 |}.
Definition info_c : Info := {| i_name := "c"; i_dir := None; i_ino := 102 |}.


(** An environment in which [link] fails, and so does a [rename] of the
    save file of [b]. *)
Definition stubborn : System :=
  {| BUFSIZ := 4; getpid := 4660; geteuid := 1000; time := fun _ => 22136;
     fault := fun _ c =>
       match c with
       | SysLink _ _ => true
       | SysRename old _ => String.eqb old "b12345678"
       | _ => false
       end |}.

(** One in which only [link] fails. *)
Definition denied : System :=
  {| BUFSIZ := 4; getpid := 4660; geteuid := 1000; time := fun _ => 22136;
     fault := fun _ c => match c with SysLink _ _ => true | _ => false end |}.

(** One in which [b] cannot be renamed. *)
Definition locked : System :=
  {| BUFSIZ := 4; getpid := 4660; geteuid := 1000; time := fun _ => 22136;
     fault := fun _ c =>
       match c with SysRename old _ => String.eqb old "b" | _ => false end |}.


(** [a], [b] and [c] hold "X"; [c] has two more names, [d] and [e]. *)
Definition fs_linked : FS :=
  {| fs_dev := 1;
     fs_names := <["a" := 100]> (<["b" := 101]> (<["c" := 102]>
                   (<["d" := 102]> (<["e" := 102]> ∅))));
     fs_inodes := <[100 := regular 1 [x58]]>
                    (<[101 := regular 1 [x58]]> (<[102 := regular 3 [x58]]> ∅)) |}.

(* what lstat says of a and b in fs_abc *)
Definition stat_a : Stat := stat_of fs_abc 100 (regular 1 [x58]).
Definition stat_b : Stat := stat_of fs_abc 101 (regular 1 [x58]).

(* a file as newinfo hands it to assoc, and a class *)
Definition head_a : Head :=
  {| h_info := [info_a]; h_size := 1; h_dev := 1; h_uid := 1000; h_gid := 1000;
     h_perms := 420 |}.
Definition class_b : Head :=
  {| h_info := [info_b]; h_size := 1; h_dev := 1; h_uid := 1000; h_gid := 1000;
     h_perms := 420 |}.
Definition class_big : Head :=
  {| h_info := [info_c]; h_size := 2; h_dev := 1; h_uid := 1000; h_gid := 1000;
     h_perms := 420 |}.


(** *** What a run keeps *)

(** A property of the world that a computation keeps. *)
Definition along (P : World -> Prop) {A} (m : M A) : Prop :=
  forall w, P w -> P (snd (m w)).

(** *** Classes as [associate] builds them *)

(** The member is a regular file with the key of the class, as far as
    the flags of the run look at it. *)
Definition keyed (opt : Options) (fs : FS) (c : Head) (m : Info) : Prop :=
  exists nd,
    fs_resolve SYMLOOP_MAX fs (i_name m) = Some (i_ino m, nd) /\
    n_kind nd = S_IFREG /\
    h_size c = Z.of_nat (length (n_data nd)) /\ h_dev c = fs_dev fs /\
    (ignore_uid opt = false -> h_uid c = n_uid nd) /\
    (ignore_gid opt = false -> h_gid c = n_gid nd) /\
    (ignore_perms opt = false -> h_perms c = n_perms nd) /\
    (ignore_empty opt = true -> n_data nd <> []) /\
    (symbolic opt = false -> fs_names fs !! i_name m = Some (i_ino m)).

(** No class would take the files of another, no class is empty, and
    every member has the key of its class. *)
Definition classed (opt : Options) (fs : FS) (list : Heads) : Prop :=
  apart opt list /\
  Forall (fun c => h_info c <> [] /\ Forall (keyed opt fs c) (h_info c)) list.

(** In the file system [fs], the computation leaves the file system as
    it is and returns something that satisfies [R]. *)
Definition yields {A} (fs : FS) (R : A -> Prop) (m : M A) : Prop :=
  forall w, w_fs w = fs -> R (fst (m w)) /\ w_fs (snd (m w)) = fs.

(** *** A list of names as a file *)

(** A name as a line of a list file, and the file that lists the names. *)
Definition line_of (name : string) : list byte := list_byte_of_string name ++ [x0a].

Definition listfile (names : list string) : list byte := flat_map line_of names.

(** The name can be a line: it has no NUL and no newline in it, and fits
    the buffer of [assocfromfile] with its newline. *)
Definition fits_a_line (name : string) : Prop :=
  (String.length name < 255)%nat /\
  Forall (fun b => b <> x00 /\ b <> x0a) (list_byte_of_string name).

(** *** The option flags *)

(** Every option that is set in [o] is set in [o']. *)
Definition covers (o o' : Options) : Prop :=
  (verbose o = true -> verbose o' = true) /\
  (noexec o = true -> noexec o' = true) /\
  (recursive o = true -> recursive o' = true) /\
  (ignore_uid o = true -> ignore_uid o' = true) /\
  (ignore_gid o = true -> ignore_gid o' = true) /\
  (ignore_perms o = true -> ignore_perms o' = true) /\
  (ignore_empty o = true -> ignore_empty o' = true) /\
  (debug o = true -> debug o' = true) /\
  (symbolic o = true -> symbolic o' = true).

(* argv[count][0] == '-' *)
Definition dashed (arg : string) : Prop := exists letters, arg = String "-" letters.

(** *** The calls a computation makes *)

(** The computation makes [n] calls at most of those that take a path
    name ([lstat], [stat], [open], [opendir], [rename], [link],
    [unlink]), which are the calls [w_calls] counts.  What is done to an
    open file ([read], [close]) and [time], [getpid], [geteuid] and
    [nice] are not counted. *)
Definition costs (n : nat) {A} (m : M A) : Prop :=
  forall w, (w_calls w <= w_calls (snd (m w)) <= w_calls w + n)%nat.

(** *** More scenarios *)

(** [fs_abc] with one more file, "Z", under the name that a swap of [b]
    in [calm] gives the save file. *)
Definition fs_taken : FS :=
  {| fs_dev := 1;
     fs_names := <["a" := 100]> (<["b" := 101]> (<["c" := 102]>
                   (<["b12345678" := 103]> ∅)));
     fs_inodes := <[100 := regular 1 [x58]]>
                    (<[101 := regular 1 [x58]]> (<[102 := regular 1 [x59]]>
                       (<[103 := regular 1 [x5a]]> ∅))) |}.

(** An environment in which [unlink] fails. *)
Definition sticky : System :=
  {| BUFSIZ := 4; getpid := 4660; geteuid := 1000; time := fun _ => 22136;
     fault := fun _ c => match c with SysUnlink _ => true | _ => false end |}.

(** One in which the process runs as root. *)
Definition root : System :=
  {| BUFSIZ := 4; getpid := 4660; geteuid := 0; time := fun _ => 22136;
     fault := fun _ _ => false |}.

(** *** The names a run finds *)

(** The names given on the command line, and the entries, other than
    "." and "..", of the directories among them; with -r, also those of
    the directories among the names so found. *)
Inductive found (opt : Options) (fs : FS) (argv : list string) : string -> Prop :=
  | found_arg (arg : string) : arg ∈ argv -> found opt fs argv arg
  | found_entry (dir : string) (entries : list string) (d_name : string) :
      found opt fs argv dir -> dir ∈ argv \/ recursive opt = true ->
      fs_opendir fs dir = Some entries -> d_name ∈ entries ->
      d_name <> "."%string -> d_name <> ".."%string ->
      found opt fs argv (mkpath dir d_name).

(** Every member of every class has a name that satisfies [T]. *)
Definition members (T : string -> Prop) (list : Heads) : Prop :=
  Forall (fun c => Forall (fun m => T (i_name m)) (h_info c)) list.

(** [a] and [t] hold "X"; [s] is a symbolic link to [t]. *)
Definition fs_sym : FS :=
  {| fs_dev := 1;
     fs_names := <["a" := 100]> (<["t" := 101]> (<["s" := 102]> ∅));
     fs_inodes := <[100 := regular 1 [x58]]>
                    (<[101 := regular 1 [x58]]>
                       (<[102 := {| n_kind := S_IFLNK "t"; n_perms := 511;
                                    n_uid := 1000; n_gid := 1000; n_nlink := 1;
                                    n_data := [] |}]> ∅)) |}.

(* [s] as newinfo enters it with -s: under the inode number of [t] *)
Definition info_s : Info := {| i_name := "s"; i_dir := None; i_ino := 101 |}.

(** *** What a path is entered as *)

(** The file [newinfo] looks at for a path: the file of that name or,
    when the name is a symbolic link and -s is given, the file the link
    leads to. *)
Definition leads_to (opt : Options) (fs : FS) (cp : string) : option (Z * Inode) :=
  match fs_lookup fs cp with
  | Some (ino, nd) =>
      match n_kind nd with
      | S_IFLNK _ => if symbolic opt then fs_resolve SYMLOOP_MAX fs cp else None
      | _ => Some (ino, nd)
      end
  | None => None
  end.

(* -s *)
Definition following : Options :=
  {| verbose := false; noexec := false; recursive := false; ignore_uid := false;
     ignore_gid := false; ignore_perms := false; ignore_empty := false;
     debug := false; symbolic := true |}.

(** *** The priority of the process *)

(** The increments the process has asked of [nice], in order. *)
Definition nices (out : list Event) : list Z :=
  flat_map (fun e => match e with Nice incr => [incr] | _ => [] end) out.

(** [nice(incr)] for root: the nice value moves by [incr], as far as the
    range from -20 to 19 lets it. *)
Definition nice_to (p incr : Z) : Z := Z.max (-20) (Z.min 19 (p + incr)).

(** The nice value of a process that started at [p0], after the calls of
    an output. *)
Definition priority (p0 : Z) (out : list Event) : Z := fold_left nice_to (nices out) p0.
(** * Properties *)

Section Properties.

Context (sys : System) (opt : Options).

(** ** State passing *)

Lemma bind_run {A B} (m : M A) (k : A -> M B) (w : World) :
  bind m k w = k (fst (m w)) (snd (m w)).
Proof. unfold bind. destruct (m w); reflexivity. Qed.

Lemma mutations_app (l k : list Event) :
  mutations (l ++ k) = mutations l ++ mutations k.
Proof. apply List.filter_app. Qed.

Lemma reports_app (l k : list Event) : reports (l ++ k) = reports l ++ reports k.
Proof. apply List.filter_app. Qed.

Lemma quiet_ret {A} (a : A) : quiet (ret a).
Proof. intros w; split; reflexivity. Qed.

Lemma quiet_bind {A B} (m : M A) (k : A -> M B) :
  quiet m -> (forall a, quiet (k a)) -> quiet (bind m k).
Proof.
  intros Hm Hk w. rewrite bind_run.
  destruct (Hm w) as [Hfs Hmu], (Hk (fst (m w)) (snd (m w))) as [Hfs' Hmu'].
  split; congruence.
Qed.

Lemma quiet_emit (e : Event) : is_mutation e = false -> quiet (emit e).
Proof.
  intros He w; split; [reflexivity|]. simpl.
  rewrite mutations_app. simpl. rewrite He. apply app_nil_r.
Qed.

Lemma quiet_when (b : bool) (m : M unit) : quiet m -> quiet (when b m).
Proof. destruct b; [trivial | intros _; apply quiet_ret]. Qed.

Lemma quiet_printf (s : string) : quiet (printf s).
Proof. apply quiet_emit; reflexivity. Qed.

Lemma quiet_puts (s : string) : quiet (puts s).
Proof. apply quiet_emit; reflexivity. Qed.

Lemma quiet_error (b : bool) (s : string) : quiet (error b s).
Proof. apply quiet_emit; reflexivity. Qed.

Lemma quiet_query {A} (c : Syscall) (f : FS -> option A) :
  is_mutating c = false -> quiet (query sys c f).
Proof.
  intros Hc w. unfold query.
  destruct (attempt sys c f w);
    (split; [reflexivity|]); cbn [snd logged w_out];
    rewrite mutations_app; cbn; rewrite Hc; apply app_nil_r.
Qed.

Lemma quiet_lstat (path : string) : quiet (lstat sys path).
Proof. apply quiet_query; reflexivity. Qed.

Lemma quiet_stat (path : string) : quiet (stat sys path).
Proof. apply quiet_query; reflexivity. Qed.

Lemma quiet_open (path : string) : quiet (open sys path).
Proof. apply quiet_query; reflexivity. Qed.

Lemma quiet_opendir (path : string) : quiet (opendir sys path).
Proof. apply quiet_query; reflexivity. Qed.

Create HintDb quiet.
#[local] Hint Resolve quiet_ret quiet_printf quiet_puts quiet_error quiet_when
  quiet_lstat quiet_stat quiet_open quiet_opendir : quiet.

Ltac quiet_step :=
  repeat first
    [ solve [auto with quiet]
    | match goal with
      | |- quiet (bind _ _) => apply quiet_bind; [| intros ?]
      | |- quiet (if ?b then _ else _) => destruct b
      | |- quiet (match ?x with _ => _ end) => destruct x
      end ].

Lemma quiet_compare (file1 file2 : string) : quiet (compare sys file1 file2).
Proof. unfold compare. quiet_step. Qed.


Lemma quiet_clock_now : quiet (clock_now sys).
Proof. intros w; split; reflexivity. Qed.

Lemma quiet_raisepriority : quiet (raisepriority sys).
Proof.
  intros w; split; [reflexivity|]. cbn. rewrite mutations_app.
  destruct (_ =? 0); apply app_nil_r.
Qed.

Lemma quiet_lowerpriority : quiet lowerpriority.
Proof.
  intros w; split; [reflexivity|]. cbn. rewrite mutations_app.
  destruct (_ =? 0); apply app_nil_r.
Qed.

#[local] Hint Resolve quiet_raisepriority quiet_lowerpriority quiet_compare : quiet.

(** With -n, [replace2] is quiet. *)
Lemma quiet_replace2 (from to : string) :
  noexec opt = true -> quiet (replace2 sys opt from to).
Proof. intros Hn. unfold replace2. rewrite Hn. quiet_step. Qed.

Lemma quiet_replace (a b : Info) :
  noexec opt = true -> quiet (replace sys opt a b).
Proof.
  intros Hn. pose proof (quiet_replace2 (i_name a) (i_name b) Hn).
  pose proof (quiet_replace2 (i_name b) (i_name a) Hn).
  unfold replace. quiet_step; apply quiet_emit; reflexivity.
Qed.

Lemma quiet_comb2 (elem : Info) (ilist : Infos) :
  noexec opt = true -> quiet (comb2 sys opt elem ilist).
Proof.
  intros Hn. induction ilist as [|b x IH]; cbn [comb2]; [apply quiet_ret|].
  pose proof (quiet_replace elem b Hn). quiet_step.
Qed.

Lemma quiet_combine_while (fuel : nat) (list : Infos) :
  noexec opt = true -> quiet (combine_while sys opt fuel list).
Proof.
  intros Hn. revert list.
  induction fuel as [|fuel IH]; intros [|elem [|b x]]; cbn [combine_while];
    try apply quiet_ret.
  apply quiet_bind; [apply quiet_comb2; exact Hn | intros list'; apply IH].
Qed.

Lemma quiet_combine (list : Infos) :
  noexec opt = true -> quiet (combine sys opt list).
Proof.
  intros Hn. unfold combine.
  pose proof (quiet_combine_while (length list) list Hn). quiet_step.
Qed.

Lemma quiet_main_while (list : Heads) :
  noexec opt = true -> quiet (main_while sys opt list).
Proof.
  intros Hn. induction list as [|h rest IH]; cbn [main_while]; [apply quiet_ret|].
  pose proof (quiet_combine (h_info h) Hn). quiet_step.
Qed.

(** Classification never changes the file system. *)
Lemma quiet_assoc_for (hp : Head) (list : Heads) : quiet (assoc_for opt hp list).
Proof.
  induction list as [|listp rest IH]; cbn [assoc_for]; [apply quiet_ret|].
  quiet_step.
Qed.

Lemma quiet_assoc (hp : Head) (list : Heads) : quiet (assoc opt hp list).
Proof. unfold assoc. pose proof (quiet_assoc_for hp list). quiet_step. Qed.

Lemma quiet_newinfo (filename directory : string) :
  quiet (newinfo sys opt filename directory).
Proof. unfold newinfo, fill. quiet_step. Qed.

Lemma quiet_enter (filename directory : string) (list : Heads) :
  quiet (enter sys opt filename directory list).
Proof.
  unfold enter. pose proof (quiet_newinfo filename directory).
  pose proof quiet_assoc. quiet_step.
Qed.

Lemma quiet_enterdir (depth : nat) (dirname : string) (list : Heads) :
  quiet (enterdir sys opt depth dirname list).
Proof.
  revert dirname list.
  induction depth as [|depth IH]; intros dirname list; cbn [enterdir];
    (apply quiet_bind; [auto with quiet | intros _]);
    (apply quiet_bind; [auto with quiet | intros [entries|]]);
    try (apply quiet_bind; [auto with quiet | intros _; apply quiet_ret]).
  - revert list. induction entries as [|d_name more IHm]; intros list;
      [apply quiet_ret|].
    destruct (_ || _); [apply IHm|].
    apply quiet_bind; [apply quiet_enter | intros r].
    destruct (_ && _); apply IHm.
  - revert list. induction entries as [|d_name more IHm]; intros list;
      [apply quiet_ret|].
    destruct (_ || _); [apply IHm|].
    apply quiet_bind; [apply quiet_enter | intros r].
    destruct (_ && _); [|apply IHm].
    apply quiet_bind; [apply IH | intros list'; apply IHm].
Qed.

Lemma quiet_associate_for (depth : nat) (argv : list string) (list : Heads) :
  quiet (associate_for sys opt depth argv list).
Proof.
  revert list. induction argv as [|arg rest IH]; intros list;
    cbn [associate_for]; [apply quiet_ret|].
  apply quiet_bind; [apply quiet_enter | intros r].
  destruct (_ =? _); [|apply IH].
  apply quiet_bind; [apply quiet_enterdir | intros list'; apply IH].
Qed.

Lemma quiet_associate (depth : nat) (argv : list string) :
  quiet (associate sys opt depth argv).
Proof.
  unfold associate. pose proof (quiet_associate_for depth argv []). quiet_step.
Qed.

Lemma quiet_main (depth : nat) (argv : list string) :
  noexec opt = true -> quiet (main sys opt depth argv).
Proof.
  intros Hn. unfold main.
  apply quiet_bind; [destruct argv; apply quiet_associate | intros list].
  apply quiet_bind; [apply quiet_main_while; exact Hn | intros _; apply quiet_ret].
Qed.

(** ** compare *)

Lemma to_N_inj (b1 b2 : byte) : Byte.to_N b1 = Byte.to_N b2 -> b1 = b2.
Proof.
  intros H. pose proof (Byte.of_to_N b1) as H1. rewrite H, Byte.of_to_N in H1.
  congruence.
Qed.

(** On buffers of the same length, compared in full, [memcmp] is 0 exactly
    when they are equal. *)
Lemma memcmp_0 (s1 s2 : list byte) :
  length s1 = length s2 -> (memcmp s1 s2 (length s1) = 0 <-> s1 = s2).
Proof.
  revert s2. induction s1 as [|b1 t1 IH]; intros [|b2 t2] Hlen;
    try discriminate; [tauto|].
  cbn [length memcmp]. injection Hlen as Hlen.
  destruct (Byte.eqb b1 b2) eqn:E.
  - apply Byte.byte_dec_bl in E. subst b2. rewrite (IH t2 Hlen).
    split; [intros -> | intros [= ->]]; reflexivity.
  - apply Byte.eqb_false in E. split.
    + intros H. exfalso. apply E, to_N_inj. lia.
    + intros [= ? ?]. contradiction.
Qed.

Lemma read_nothing (fd : list byte) :
  (0 < BUFSIZ sys)%nat -> length (take (BUFSIZ sys) fd) = 0%nat -> fd = [].
Proof. rewrite length_take. destruct fd; [reflexivity | simpl; lia]. Qed.

(** The loop returns 0 or 1; with fuel for every byte, and a buffer that
    is not empty, 0 exactly on equal contents. *)
Lemma compare_loop_spec (fuel : nat) (fd1 fd2 : list byte) :
  (0 < BUFSIZ sys)%nat -> (length fd1 <= fuel)%nat ->
  (compare_loop sys fuel fd1 fd2 = 0 /\ fd1 = fd2) \/
  (compare_loop sys fuel fd1 fd2 = 1 /\ fd1 <> fd2).
Proof.
  intros HB. revert fd1 fd2.
  induction fuel as [|fuel IH]; intros fd1 fd2 Hfuel; cbn [compare_loop read].
  - destruct fd1; [|simpl in Hfuel; lia]. rewrite take_nil. cbn [length].
    destruct (negb (Z.of_nat 0 =? Z.of_nat (length (take (BUFSIZ sys) fd2)))) eqn:E.
    + right. split; [reflexivity|]. intros <-. rewrite take_nil in E. discriminate.
    + left. split; [reflexivity|]. symmetry. apply read_nothing; [exact HB|].
      apply negb_false_iff, Z.eqb_eq in E. lia.
  - destruct (negb (_ =? _)) eqn:E1.
    { right. split; [reflexivity|]. intros <-. rewrite Z.eqb_refl in E1. discriminate. }
    apply negb_false_iff, Z.eqb_eq, Nat2Z.inj in E1.
    destruct (negb (memcmp _ _ _ =? 0)) eqn:E2.
    { right. split; [reflexivity|]. intros <-.
      apply negb_true_iff, Z.eqb_neq in E2. apply E2, memcmp_0; reflexivity. }
    apply negb_false_iff, Z.eqb_eq, memcmp_0 in E2; [|exact E1].
    destruct ((0 <? _) && (0 <? _)) eqn:E3.
    + apply andb_true_iff in E3 as [E3 _]. apply Z.ltb_lt in E3.
      destruct (IH (drop (BUFSIZ sys) fd1) (drop (BUFSIZ sys) fd2)) as [[-> Hd]|[-> Hd]].
      * rewrite length_drop. rewrite length_take in E3. lia.
      * left. split; [reflexivity|].
        rewrite <- (take_drop (BUFSIZ sys) fd1), <- (take_drop (BUFSIZ sys) fd2).
        congruence.
      * right. split; [reflexivity|]. intros <-. contradiction.
    + left. split; [reflexivity|].
      assert (length (take (BUFSIZ sys) fd1) = 0%nat) as H1.
      { rewrite <- E1 in E3. destruct (0 <? _) eqn:E4 in E3; [discriminate|].
        apply Z.ltb_ge in E4. lia. }
      rewrite (read_nothing fd1 HB H1). symmetry. apply read_nothing; [exact HB|].
      congruence.
Qed.

(** A mismatch in the first chunks is answered at once, whatever follows
    and whatever the fuel. *)
Lemma compare_loop_first_chunk (fuel : nat) (fd1 fd2 : list byte) :
  take (BUFSIZ sys) fd1 <> take (BUFSIZ sys) fd2 ->
  compare_loop sys fuel fd1 fd2 = 1.
Proof.
  intros Hne.
  assert (forall rest : Z,
    (if negb (Z.of_nat (length (take (BUFSIZ sys) fd1)) =?
              Z.of_nat (length (take (BUFSIZ sys) fd2))) then 1
     else if negb (memcmp (take (BUFSIZ sys) fd1) (take (BUFSIZ sys) fd2)
                          (length (take (BUFSIZ sys) fd1)) =? 0) then 1
     else rest) = 1) as H.
  { intros rest. destruct (negb (_ =? _)) eqn:E1; [reflexivity|].
    apply negb_false_iff, Z.eqb_eq, Nat2Z.inj in E1.
    destruct (negb (memcmp _ _ _ =? 0)) eqn:E2; [reflexivity|].
    apply negb_false_iff, Z.eqb_eq, memcmp_0 in E2; [contradiction | exact E1]. }
  destruct fuel; cbn [compare_loop read]; apply H.
Qed.

(** More fuel than bytes changes nothing. *)
Lemma compare_loop_fuel (fuel fuel' : nat) (fd1 fd2 : list byte) :
  (0 < BUFSIZ sys)%nat -> (length fd1 <= fuel)%nat -> (length fd1 <= fuel')%nat ->
  compare_loop sys fuel fd1 fd2 = compare_loop sys fuel' fd1 fd2.
Proof.
  intros HB H1 H2.
  destruct (compare_loop_spec fuel fd1 fd2 HB H1) as [[-> ?]|[-> ?]],
           (compare_loop_spec fuel' fd1 fd2 HB H2) as [[-> ?]|[-> ?]];
    congruence.
Qed.

Lemma compare_run (file1 file2 : string) (w : World) :
  compare sys file1 file2 w =
    match fst (open sys file1 w) with
    | None => (-1, snd (open sys file1 w))
    | Some fd1 =>
        match fst (open sys file2 (snd (open sys file1 w))) with
        | None => (-1, snd (open sys file2 (snd (open sys file1 w))))
        | Some fd2 => (compare_loop sys (length fd1) fd1 fd2,
                       snd (open sys file2 (snd (open sys file1 w))))
        end
    end.
Proof.
  unfold compare. rewrite bind_run. destruct (fst (open sys file1 w)); [|reflexivity].
  rewrite bind_run. destruct (fst (open sys file2 _)); reflexivity.
Qed.

(** [replace], step by step. *)
Lemma replace_run (a b : Info) (w : World) :
  i_ino a <> i_ino b ->
  replace sys opt a b w =
    if negb (fst (compared sys opt a b w) =? 0) then (0, snd (compared sys opt a b w))
    else
      match fst (restat_a sys opt a b w) with
      | None => (0, snd (emit (Stderr ("Cannot restat " +:+ i_name a +:+ nl))
                           (snd (restat_a sys opt a b w))))
      | Some stbuf_a =>
          match fst (restat_b sys opt a b w) with
          | None => (0, snd (emit (Stderr ("Cannot restat " +:+ i_name b +:+ nl))
                               (snd (restat_b sys opt a b w))))
          | Some stbuf_b =>
              (1, snd ((if st_nlink stbuf_b <=? st_nlink stbuf_a
                        then replace2 sys opt (i_name a) (i_name b)
                        else replace2 sys opt (i_name b) (i_name a))
                         (snd (restat_b sys opt a b w))))
          end
      end.
Proof.
  intros Hino. unfold restat_b, restat_a, compared, replace. rewrite bind_run.
  apply Z.eqb_neq in Hino. rewrite Hino. rewrite bind_run.
  destruct (negb (_ =? 0)); [reflexivity|].
  rewrite bind_run. destruct (fst (lstat sys (i_name a) _)).
  - rewrite bind_run. destruct (fst (lstat sys (i_name b) _)).
    + rewrite bind_run. reflexivity.
    + rewrite bind_run. reflexivity.
  - rewrite bind_run. reflexivity.
Qed.

(** ** The link swap, path by path *)

Lemma mutate_fst (c : Syscall) (f : FS -> option FS) (w : World) :
  fst (mutate sys c f w) = match attempt sys c f w with Some _ => 0 | None => -1 end.
Proof. unfold mutate. destruct (attempt sys c f w); reflexivity. Qed.

Lemma mutate_ok (c : Syscall) (f : FS -> option FS) (w : World) :
  fst (mutate sys c f w) = 0 ->
  exists fs', attempt sys c f w = Some fs' /\ f (w_fs w) = Some fs' /\
              mutate sys c f w = (0, logged c true fs' w).
Proof.
  unfold mutate, attempt. destruct (fault sys (w_calls w) c); [discriminate|].
  destruct (f (w_fs w)) as [fs'|]; [|discriminate]. intros _. eauto.
Qed.

Lemma mutate_failed (c : Syscall) (f : FS -> option FS) (w : World) :
  fst (mutate sys c f w) = -1 ->
  attempt sys c f w = None /\ mutate sys c f w = (-1, logged c false (w_fs w) w).
Proof.
  unfold mutate. destruct (attempt sys c f w); [discriminate|]. intros _. auto.
Qed.

(** A call sees the file system and the number of calls before it, and
    nothing else of the world. *)
Lemma attempt_ext {A} (c : Syscall) (f : FS -> option A) (w w' : World) :
  w_fs w = w_fs w' -> w_calls w = w_calls w' ->
  attempt sys c f w = attempt sys c f w'.
Proof. unfold attempt. intros -> ->. reflexivity. Qed.

(** Unfold the plumbing of a computation, down to the calls. *)
Ltac norm :=
  cbv beta iota zeta delta
    [bind ret when emit puts printf error raisepriority lowerpriority clock_now
     rename link unlink lstat stat open opendir mutate query attempt logged
     fst snd w_fs w_calls w_out niceness our_uid].

Ltac norm_in H :=
  cbv beta iota zeta delta
    [bind ret when emit puts printf error raisepriority lowerpriority clock_now
     rename link unlink lstat stat open opendir mutate query attempt logged
     fst snd w_fs w_calls w_out niceness our_uid] in H.

Lemma snapshots_app (l k : list Event) :
  snapshots (l ++ k) = snapshots l ++ snapshots k.
Proof. apply flat_map_app. Qed.

(** Read what was observed off an output that ends in known events. *)
Ltac observe :=
  rewrite ?mutations_app, ?reports_app, ?snapshots_app;
  cbn [mutations reports snapshots List.filter flat_map is_mutation is_mutating
       is_report app];
  rewrite ?app_nil_r, <- ?app_assoc;
  cbn [app].

(** Split on the outcome of every call the goal waits for. *)
Ltac outcomes :=
  repeat match goal with
  | |- context [match (if fault ?s ?n ?c then None else ?x) with _ => _ end] =>
      let E := fresh "E" in
      destruct (if fault s n c then None else x) eqn:E; simpl
  | |- context [if ?c then [Nice _] else []] => destruct c; simpl
  end.

Lemma length_append (s1 s2 : string) :
  String.length (s1 +:+ s2) = (String.length s1 + String.length s2)%nat.
Proof. induction s1 as [|c s1 IH]; simpl; [reflexivity | rewrite IH; reflexivity]. Qed.

(** The save file never has the name of the file it saves. *)
Lemma newname_fresh (to : string) (clock : Z) : newname_of sys to clock <> to.
Proof.
  unfold newname_of. intros H. apply (f_equal String.length) in H.
  rewrite !length_append in H. simpl in H. lia.
Qed.

Section Swap.

Variables (from to : string) (w : World).

(* the name of the save file *)
Let newname : string := newname_of sys to (time sys (w_calls w)).

(* the worlds after the calls of a swap, when they are made *)
Let w1 : World := snd (rename sys to newname w).
Let w2 : World := snd (link sys from to w1).
Let w3 : World := snd (rename sys newname to w2).
Let w4 : World := snd (unlink sys newname w2).

Hypothesis not_dry : noexec opt = false.

Ltac unlet :=
  repeat match goal with
  | x := _ : World |- _ => subst x
  | x := _ : string |- _ => subst x
  end.

Ltac paths :=
  unfold replace2; rewrite not_dry; unlet;
  destruct w as [fs n out nice uid];
  destruct (debug opt), (verbose opt); norm; outcomes;
  intros; try discriminate; observe; repeat split; auto; try discriminate.

(** The backup rename fails: nothing has changed, the result is 0, and
    nothing is said unless debugging. *)
Lemma replace2_backup_fails :
  fst (rename sys to newname w) = -1 ->
  fst (replace2 sys opt from to w) = 0 /\
  w_fs (snd (replace2 sys opt from to w)) = w_fs w /\
  mutations (w_out (snd (replace2 sys opt from to w))) =
    mutations (w_out w) ++ [Call (SysRename to newname) false (w_fs w)] /\
  (debug opt = false ->
   reports (w_out (snd (replace2 sys opt from to w))) = reports (w_out w)).
Proof. paths. Qed.

(** The link fails and the save file cannot be renamed back: the file
    system stays as the backup rename left it, the result is 0, and
    nothing is said unless debugging. *)
Lemma replace2_restore_fails :
  fst (rename sys to newname w) = 0 ->
  fst (link sys from to w1) = -1 ->
  fst (rename sys newname to w2) = -1 ->
  fst (replace2 sys opt from to w) = 0 /\
  w_fs (snd (replace2 sys opt from to w)) = w_fs w1 /\
  mutations (w_out (snd (replace2 sys opt from to w))) =
    mutations (w_out w) ++
    [Call (SysRename to newname) true (w_fs w1);
     Call (SysLink from to) false (w_fs w1);
     Call (SysRename newname to) false (w_fs w1)] /\
  (debug opt = false ->
   reports (w_out (snd (replace2 sys opt from to w))) = reports (w_out w)).
Proof. paths. Qed.

(** The link fails and the save file is renamed back: the result is -1
    and the message says that a copy has been left on the save file. *)
Lemma replace2_restore_ok :
  fst (rename sys to newname w) = 0 ->
  fst (link sys from to w1) = -1 ->
  fst (rename sys newname to w2) = 0 ->
  fst (replace2 sys opt from to w) = -1 /\
  w_fs (snd (replace2 sys opt from to w)) = w_fs w3 /\
  mutations (w_out (snd (replace2 sys opt from to w))) =
    mutations (w_out w) ++
    [Call (SysRename to newname) true (w_fs w1);
     Call (SysLink from to) false (w_fs w1);
     Call (SysRename newname to) true (w_fs w3)] /\
  reports (w_out (snd (replace2 sys opt from to w))) =
    reports (w_out w) ++
    [Error true ("failed to link " +:+ to +:+ " to " +:+ from
                 +:+ " - copy has been left on " +:+ newname +:+ nl)].
Proof. paths. Qed.

(** The link is made: the result is 1, whether or not the save file can
    be removed. *)
Lemma replace2_linked :
  fst (rename sys to newname w) = 0 ->
  fst (link sys from to w1) = 0 ->
  fst (replace2 sys opt from to w) = 1 /\
  w_fs (snd (replace2 sys opt from to w)) = w_fs w4 /\
  mutations (w_out (snd (replace2 sys opt from to w))) =
    mutations (w_out w) ++
    [Call (SysRename to newname) true (w_fs w1);
     Call (SysLink from to) true (w_fs w2);
     Call (SysUnlink newname) (fst (unlink sys newname w2) =? 0) (w_fs w4)].
Proof. paths. Qed.

(** The results, read backwards. *)
Lemma replace2_result :
  (fst (replace2 sys opt from to w) = 1 /\
   fst (rename sys to newname w) = 0 /\ fst (link sys from to w1) = 0) \/
  (fst (replace2 sys opt from to w) = 0 /\ fst (rename sys to newname w) = -1) \/
  (fst (replace2 sys opt from to w) = 0 /\
   fst (rename sys to newname w) = 0 /\ fst (link sys from to w1) = -1 /\
   fst (rename sys newname to w2) = -1) \/
  (fst (replace2 sys opt from to w) = -1 /\
   fst (rename sys to newname w) = 0 /\ fst (link sys from to w1) = -1 /\
   fst (rename sys newname to w2) = 0).
Proof.
  unfold replace2; rewrite not_dry; unlet;
  destruct w as [fs n out nice uid];
  destruct (debug opt), (verbose opt); norm; outcomes; tauto.
Qed.

End Swap.

(** ** The file system calls *)

Lemma attempt_some {A} (n : nat) (c : Syscall) (x : option A) (a : A) :
  (if fault sys n c then None else x) = Some a -> x = Some a.
Proof. destruct (fault sys n c); [discriminate | trivial]. Qed.

Lemma file_of_nlink (fs : FS) (names : gmap string Z) (d i ino : Z) :
  file_of {| fs_dev := fs_dev fs; fs_names := names;
             fs_inodes := alter (nlink_add d) i (fs_inodes fs) |} ino =
  file_of fs ino.
Proof.
  unfold file_of. cbn [fs_inodes]. rewrite lookup_alter. case_decide; [|reflexivity].
  subst. destruct (fs_inodes fs !! ino); reflexivity.
Qed.

(** A change of the link count apart, the calls leave the inodes alone. *)
Lemma fs_rename_file_of (old new : string) (fs fs' : FS) (ino : Z) :
  fs_rename old new fs = Some fs' -> file_of fs' ino = file_of fs ino.
Proof.
  unfold fs_rename. destruct (fs_names fs !! old); [|discriminate].
  destruct (fs_names fs !! new); [case_decide|]; intros [= <-];
    try reflexivity; apply file_of_nlink.
Qed.

Lemma fs_link_file_of (existing new : string) (fs fs' : FS) (ino : Z) :
  fs_link existing new fs = Some fs' -> file_of fs' ino = file_of fs ino.
Proof.
  unfold fs_link. destruct (fs_names fs !! existing); [|discriminate].
  destruct (fs_names fs !! new); [discriminate|]. intros [= <-].
  apply file_of_nlink.
Qed.

Lemma fs_unlink_file_of (path : string) (fs fs' : FS) (ino : Z) :
  fs_unlink path fs = Some fs' -> file_of fs' ino = file_of fs ino.
Proof.
  unfold fs_unlink. destruct (fs_names fs !! path); [|discriminate].
  intros [= <-]. apply file_of_nlink.
Qed.

(** What they do to the names. *)
Lemma fs_rename_fresh (old new : string) (fs fs' : FS) :
  fs_names fs !! new = None -> fs_rename old new fs = Some fs' ->
  exists i, fs_names fs !! old = Some i /\
            fs_names fs' = <[new := i]> (delete old (fs_names fs)) /\
            fs_inodes fs' = fs_inodes fs /\ fs_dev fs' = fs_dev fs.
Proof.
  unfold fs_rename. intros ->. destruct (fs_names fs !! old) as [i|]; [|discriminate].
  intros [= <-]. eauto.
Qed.

Lemma fs_link_names (existing new : string) (fs fs' : FS) :
  fs_link existing new fs = Some fs' ->
  exists i, fs_names fs !! existing = Some i /\ fs_names fs !! new = None /\
            fs_names fs' = <[new := i]> (fs_names fs) /\
            fs_inodes fs' = alter (nlink_add 1) i (fs_inodes fs) /\
            fs_dev fs' = fs_dev fs.
Proof.
  unfold fs_link. destruct (fs_names fs !! existing) as [i|]; [|discriminate].
  destruct (fs_names fs !! new); [discriminate|]. intros [= <-]. eauto 6.
Qed.

Lemma fs_unlink_names (path : string) (fs fs' : FS) :
  fs_unlink path fs = Some fs' ->
  exists i, fs_names fs !! path = Some i /\
            fs_names fs' = delete path (fs_names fs) /\
            fs_inodes fs' = alter (nlink_add (-1)) i (fs_inodes fs) /\
            fs_dev fs' = fs_dev fs.
Proof.
  unfold fs_unlink. destruct (fs_names fs !! path) as [i|]; [|discriminate].
  intros [= <-]. eauto 6.
Qed.

(** *** The states of a swap *)

Section Kept.

Variables (fs : FS) (from to newname : string).

Hypothesis unused : fs_names fs !! newname = None.
Hypothesis other : newname <> to.
Hypothesis identical : content fs from = content fs to.

Lemma kept_start : kept fs fs to newname.
Proof. unfold kept. auto. Qed.

(** After the backup rename, [to] is gone and the save file holds what it
    held. *)
Lemma kept_backup (fs1 : FS) :
  fs_rename to newname fs = Some fs1 ->
  kept fs fs1 to newname /\ fs_names fs1 !! to = None /\
  fs_names fs1 !! newname = fs_names fs !! to.
Proof.
  intros H1. pose proof (fun ino => fs_rename_file_of _ _ _ _ ino H1) as Hf.
  destruct (fs_rename_fresh _ _ _ _ unused H1) as (i & Hto & Hn & _).
  assert (fs_names fs1 !! to = None) as Hgone
    by (rewrite Hn, lookup_insert_ne, lookup_delete_eq; auto).
  assert (fs_names fs1 !! newname = Some i) as Hsave
    by (rewrite Hn, lookup_insert_eq; auto).
  unfold kept. split_and!; auto; [| |congruence].
  - intros p Hp Hp'. rewrite Hn, lookup_insert_ne, lookup_delete_ne; auto.
  - right. split; [assumption|]. unfold content. rewrite Hsave, Hto. apply Hf.
Qed.

(** After the link, [to] leads to what it led to before. *)
Lemma kept_link (fs1 fs2 : FS) :
  fs_rename to newname fs = Some fs1 -> fs_link from to fs1 = Some fs2 ->
  kept fs fs2 to newname /\ is_Some (fs_names fs2 !! to) /\
  (from <> newname -> fs_names fs2 !! to = fs_names fs !! from) /\
  fs_names fs2 !! newname = fs_names fs !! to /\
  content fs2 to = content fs to.
Proof.
  intros H1 H2. pose proof (fun ino => fs_rename_file_of _ _ _ _ ino H1) as Hf1.
  pose proof (fun ino => fs_link_file_of _ _ _ _ ino H2) as Hf2.
  destruct (fs_rename_fresh _ _ _ _ unused H1) as (i & Hto & Hn1 & _).
  destruct (fs_link_names _ _ _ _ H2) as (j & Hfrom & Hgone & Hn2 & _).
  assert (fs_names fs2 !! to = Some j) as Hto2 by (rewrite Hn2, lookup_insert_eq; auto).
  assert (from <> to) as Hft by congruence.
  assert (from <> newname -> fs_names fs !! from = Some j) as Hj.
  { intros Hfn. rewrite Hn1, lookup_insert_ne, lookup_delete_ne in Hfrom; auto. }
  assert (content fs2 to = content fs to) as Hc.
  { unfold content at 1. rewrite Hto2, Hf2, Hf1.
    destruct (decide (from = newname)) as [->|Hfn].
    + rewrite Hn1, lookup_insert_eq in Hfrom. injection Hfrom as <-.
      unfold content. rewrite Hto. reflexivity.
    + rewrite <- identical. unfold content. rewrite (Hj Hfn). reflexivity. }
  unfold kept. split_and!.
  - intros p Hp Hp'.
    rewrite Hn2, lookup_insert_ne, Hn1, lookup_insert_ne, lookup_delete_ne; auto.
  - intros ino. rewrite Hf2. apply Hf1.
  - left. exact Hc.
  - eauto.
  - intros Hfn. rewrite Hj; auto.
  - rewrite Hn2, lookup_insert_ne, Hn1, lookup_insert_eq; auto.
  - exact Hc.
Qed.

(** Removing the save file then changes nothing for [to]. *)
Lemma kept_unlink (fs1 fs2 fs4 : FS) :
  fs_rename to newname fs = Some fs1 -> fs_link from to fs1 = Some fs2 ->
  fs_unlink newname fs2 = Some fs4 ->
  kept fs fs4 to newname /\ fs_names fs4 !! to = fs_names fs2 !! to /\
  fs_names fs4 !! newname = None /\
  content fs4 to = content fs to.
Proof.
  intros H1 H2 H4.
  destruct (kept_link fs1 fs2 H1 H2) as ((Hp & Hf & _) & Hs & _ & _ & Hc).
  pose proof (fun ino => fs_unlink_file_of _ _ _ ino H4) as Hf4.
  destruct (fs_unlink_names _ _ _ H4) as (i & _ & Hn4 & _).
  assert (fs_names fs4 !! to = fs_names fs2 !! to) as Hto4
    by (rewrite Hn4, lookup_delete_ne; auto).
  assert (content fs4 to = content fs to) as Hc4.
  { rewrite <- Hc. unfold content. rewrite Hto4.
    destruct (fs_names fs2 !! to); [apply Hf4 | reflexivity]. }
  unfold kept. split_and!.
  - intros p Hpt Hpn. rewrite Hn4, lookup_delete_ne; auto.
  - intros ino. rewrite Hf4. apply Hf.
  - left. exact Hc4.
  - exact Hto4.
  - rewrite Hn4. apply lookup_delete_eq.
  - exact Hc4.
Qed.

(** Renaming the save file back puts [to] where it was. *)
Lemma kept_restore (fs1 fs3 : FS) :
  fs_rename to newname fs = Some fs1 -> fs_rename newname to fs1 = Some fs3 ->
  kept fs fs3 to newname /\ fs_names fs3 !! to = fs_names fs !! to /\
  fs_names fs3 !! newname = None.
Proof.
  intros H1 H3. destruct (kept_backup fs1 H1) as ((Hp & Hf & _) & Hgone & Hsave).
  pose proof (fun ino => fs_rename_file_of _ _ _ _ ino H3) as Hf3.
  destruct (fs_rename_fresh _ _ _ _ Hgone H3) as (i & Hi & Hn3 & _).
  assert (fs_names fs3 !! to = fs_names fs !! to) as Hto3
    by (rewrite Hn3, lookup_insert_eq; congruence).
  unfold kept. split_and!; auto.
  - intros p Hpt Hpn. rewrite Hn3, lookup_insert_ne, lookup_delete_ne; auto.
  - intros ino. rewrite Hf3. apply Hf.
  - left. unfold content. rewrite Hto3.
    destruct (fs_names fs !! to); [rewrite Hf3; apply Hf | reflexivity].
  - rewrite Hn3, lookup_insert_ne, lookup_delete_eq; auto.
Qed.

End Kept.

(** ** replace *)

(** The comparison and the calls of [lstat] leave the file system alone
    and say nothing on stderr. *)
Lemma restat_quiet (a b : Info) (w : World) :
  w_fs (snd (restat_b sys opt a b w)) = w_fs w /\
  mutations (w_out (snd (restat_b sys opt a b w))) = mutations (w_out w) /\
  reports (w_out (snd (restat_b sys opt a b w))) = reports (w_out w).
Proof.
  unfold restat_b, restat_a, compared, compare. destruct w as [fs n out nice uid].
  destruct (debug opt); norm; outcomes; observe; auto.
Qed.


(** One swap is tried, in the direction the link counts give. *)
Lemma replace_direction (a b : Info) (w : World) (stbuf_a stbuf_b : Stat) :
  i_ino a <> i_ino b -> fst (compared sys opt a b w) = 0 ->
  fst (restat_a sys opt a b w) = Some stbuf_a ->
  fst (restat_b sys opt a b w) = Some stbuf_b ->
  replace sys opt a b w =
    (1, snd ((if st_nlink stbuf_b <=? st_nlink stbuf_a
              then replace2 sys opt (i_name a) (i_name b)
              else replace2 sys opt (i_name b) (i_name a))
               (snd (restat_b sys opt a b w)))).
Proof.
  intros Hino Hc Ha Hb. rewrite (replace_run a b w Hino), Hc, Ha, Hb. reflexivity.
Qed.

(** Files with the same inode number: 1 at once, and no call is made. *)
Lemma replace_already_linked (a b : Info) (w : World) :
  i_ino a = i_ino b ->
  fst (replace sys opt a b w) = 1 /\
  w_fs (snd (replace sys opt a b w)) = w_fs w /\
  w_calls (snd (replace sys opt a b w)) = w_calls w /\
  w_out (snd (replace sys opt a b w)) =
    w_out w ++ (if debug opt then [Stdout ("replace" +:+ nl)] else []).
Proof.
  intros Hino. unfold replace. rewrite Hino, Z.eqb_refl.
  destruct w as [fs n out nice uid].
  destruct (debug opt); norm; rewrite ?app_nil_r; auto.
Qed.

(** [comb2], step by step: the given file is the first argument of
    [replace], the member of the list the second. *)
Lemma comb2_run (elem b : Info) (x : Infos) (w : World) :
  comb2 sys opt elem (b :: x) w =
    let r := replace sys opt elem b
               (snd (when (debug opt)
                       (printf (comb2_line elem b)) w)) in
    if negb (fst r =? 0) then comb2 sys opt elem x (snd r)
    else (b :: fst (comb2 sys opt elem x (snd r)), snd (comb2 sys opt elem x (snd r))).
Proof.
  cbn [comb2]. rewrite !bind_run. cbv zeta.
  destruct (negb (_ =? 0)); [reflexivity|]. rewrite bind_run. reflexivity.
Qed.


(** ** A sweep when no call fails *)

Section Calm.

Hypothesis calm_sys : forall n c, fault sys n c = false.
Hypothesis not_dry : noexec opt = false.
Hypothesis buffer : (0 < BUFSIZ sys)%nat.

Lemma fs_open_regular (fs : FS) (path : string) (ino : Z) (nd : Inode) :
  fs_names fs !! path = Some ino -> fs_inodes fs !! ino = Some nd ->
  n_kind nd = S_IFREG -> fs_open fs path = Some (n_data nd).
Proof.
  intros Hn Hi Hk. unfold fs_open, SYMLOOP_MAX. cbn [fs_resolve].
  unfold fs_lookup. rewrite Hn, Hi, Hk. rewrite Hk. reflexivity.
Qed.

Lemma fs_lstat_bound (fs : FS) (path : string) (ino : Z) (nd : Inode) :
  fs_names fs !! path = Some ino -> fs_inodes fs !! ino = Some nd ->
  fs_lstat fs path = Some (stat_of fs ino nd).
Proof. intros Hn Hi. unfold fs_lstat, fs_lookup. rewrite Hn, Hi. reflexivity. Qed.

(** The three calls of a swap, on names that allow them. *)
Lemma fs_swap (fs : FS) (from to newname : string) (i j : Z) :
  fs_names fs !! to = Some i -> fs_names fs !! from = Some j ->
  from <> to -> fs_names fs !! newname = None -> newname <> to ->
  exists fs1 fs2 fs4,
    fs_rename to newname fs = Some fs1 /\ fs_link from to fs1 = Some fs2 /\
    fs_unlink newname fs2 = Some fs4 /\
    fs_names fs4 = <[to := j]> (fs_names fs) /\
    fs_inodes fs4 = alter (nlink_add (-1)) i (alter (nlink_add 1) j (fs_inodes fs)).
Proof.
  intros Hto Hfrom Hft Hnew Hnt.
  assert (from <> newname) as Hfn by congruence.
  eexists _, _, _. split_and!.
  - unfold fs_rename. rewrite Hto, Hnew. reflexivity.
  - unfold fs_link. cbn [fs_names].
    rewrite lookup_insert_ne, lookup_delete_ne, Hfrom by auto.
    rewrite lookup_insert_ne, lookup_delete_eq by auto. reflexivity.
  - unfold fs_unlink. cbn [fs_names].
    rewrite lookup_insert_ne, lookup_insert_eq by auto. reflexivity.
  - cbn [fs_names]. apply map_eq. intros p.
    destruct (decide (p = newname)) as [->|Hp].
    + rewrite lookup_delete_eq, lookup_insert_ne, Hnew; auto.
    + rewrite lookup_delete_ne by auto. destruct (decide (p = to)) as [->|Hp'].
      * rewrite !lookup_insert_eq. reflexivity.
      * rewrite !lookup_insert_ne, lookup_delete_ne by auto. reflexivity.
  - reflexivity.
Qed.

Lemma query_calm {A} (c : Syscall) (f : FS -> option A) (w : World) :
  fst (query sys c f w) = f (w_fs w) /\ w_fs (snd (query sys c f w)) = w_fs w.
Proof. unfold query, attempt. rewrite calm_sys. destruct (f (w_fs w)); auto. Qed.

(** The swap goes through. *)
Lemma replace2_calm (from to : string) (w : World) (i j : Z) :
  fs_names (w_fs w) !! to = Some i -> fs_names (w_fs w) !! from = Some j ->
  from <> to ->
  fs_names (w_fs w) !! newname_of sys to (time sys (w_calls w)) = None ->
  fs_names (w_fs (snd (replace2 sys opt from to w))) = <[to := j]> (fs_names (w_fs w)) /\
  fs_inodes (w_fs (snd (replace2 sys opt from to w))) =
    alter (nlink_add (-1)) i (alter (nlink_add 1) j (fs_inodes (w_fs w))).
Proof.
  intros Hto Hfrom Hft Hnew.
  destruct (fs_swap (w_fs w) from to _ i j Hto Hfrom Hft Hnew (newname_fresh _ _))
    as (fs1 & fs2 & fs4 & H1 & H2 & H4 & Hn & Hi).
  unfold replace2. rewrite not_dry. destruct w as [fs n out nice uid].
  cbn [w_fs w_calls] in *.
  destruct (debug opt), (verbose opt); norm; rewrite ?calm_sys, H1; simpl;
    rewrite ?calm_sys, H2; simpl; rewrite ?calm_sys, H4; simpl; auto.
Qed.

(** The comparison of two regular files. *)
Lemma compared_calm (h m : Info) (w : World) (ndh ndm : Inode) :
  fs_names (w_fs w) !! i_name h = Some (i_ino h) ->
  fs_inodes (w_fs w) !! i_ino h = Some ndh -> n_kind ndh = S_IFREG ->
  fs_names (w_fs w) !! i_name m = Some (i_ino m) ->
  fs_inodes (w_fs w) !! i_ino m = Some ndm -> n_kind ndm = S_IFREG ->
  fst (compared sys opt h m w) =
    compare_loop sys (length (n_data ndh)) (n_data ndh) (n_data ndm) /\
  w_fs (snd (compared sys opt h m w)) = w_fs w /\
  mutations (w_out (snd (compared sys opt h m w))) = mutations (w_out w).
Proof.
  intros Hhn Hhi Hhk Hmn Hmi Hmk.
  pose proof (fs_open_regular _ _ _ _ Hhn Hhi Hhk) as Hoh.
  pose proof (fs_open_regular _ _ _ _ Hmn Hmi Hmk) as Hom.
  assert (w_fs (snd (when (debug opt) (puts "replace") w)) = w_fs w /\
          mutations (w_out (snd (when (debug opt) (puts "replace") w))) =
            mutations (w_out w)) as [Hw1 Hm1]
    by (apply quiet_when, quiet_puts).
  unfold compared.
  destruct (quiet_compare (i_name h) (i_name m)
              (snd (when (debug opt) (puts "replace") w))) as [Hq Hqm].
  split_and!; [|congruence|congruence].
  rewrite compare_run. unfold open.
  destruct (query_calm (SysOpen (i_name h)) (fun fs => fs_open fs (i_name h))
              (snd (when (debug opt) (puts "replace") w))) as [-> Hq1].
  rewrite Hw1, Hoh.
  destruct (query_calm (SysOpen (i_name m)) (fun fs => fs_open fs (i_name m))
              (snd (query sys (SysOpen (i_name h)) (fun fs => fs_open fs (i_name h))
                      (snd (when (debug opt) (puts "replace") w))))) as [-> Hq2].
  rewrite Hq1, Hw1, Hom. reflexivity.
Qed.

(** [replace] of the head of a sweep and a member with no other link. *)
Lemma replace_held (h m : Info) (w : World) :
  held (w_fs w) h -> solo (w_fs w) m ->
  i_ino h <> i_ino m -> i_name h <> i_name m -> unused_save sys (w_fs w) m ->
  (file_of (w_fs w) (i_ino m) <> file_of (w_fs w) (i_ino h) /\
   fst (replace sys opt h m w) = 0 /\ w_fs (snd (replace sys opt h m w)) = w_fs w) \/
  (file_of (w_fs w) (i_ino m) = file_of (w_fs w) (i_ino h) /\
   fst (replace sys opt h m w) = 1 /\
   fs_names (w_fs (snd (replace sys opt h m w))) =
     <[i_name m := i_ino h]> (fs_names (w_fs w)) /\
   fs_inodes (w_fs (snd (replace sys opt h m w))) =
     alter (nlink_add (-1)) (i_ino m) (alter (nlink_add 1) (i_ino h) (fs_inodes (w_fs w)))).
Proof.
  intros (Hhn & ndh & Hhi & Hhk & Hhl) (Hmn & ndm & Hmi & Hmk & Hml) Hino Hname Hsave.
  unfold file_of. rewrite Hhi, Hmi. cbn [fmap option_fmap option_map]. rewrite Hhk, Hmk.
  pose proof (fs_lstat_bound _ _ _ _ Hhn Hhi) as Hsh.
  pose proof (fs_lstat_bound _ _ _ _ Hmn Hmi) as Hsm.
  destruct (compared_calm h m w ndh ndm Hhn Hhi Hhk Hmn Hmi Hmk) as (Hc & Hcw & _).
  assert (fst (restat_a sys opt h m w) = Some (stat_of (w_fs w) (i_ino h) ndh) /\
          w_fs (snd (restat_a sys opt h m w)) = w_fs w) as [Ha Haw].
  { unfold restat_a, lstat.
    destruct (query_calm (SysLstat (i_name h)) (fun fs => fs_lstat fs (i_name h))
                (snd (compared sys opt h m w))) as [-> ->].
    rewrite Hcw. auto. }
  assert (fst (restat_b sys opt h m w) = Some (stat_of (w_fs w) (i_ino m) ndm) /\
          w_fs (snd (restat_b sys opt h m w)) = w_fs w) as [Hb Hbw].
  { unfold restat_b, lstat.
    destruct (query_calm (SysLstat (i_name m)) (fun fs => fs_lstat fs (i_name m))
                (snd (restat_a sys opt h m w))) as [-> ->].
    rewrite Haw. auto. }
  destruct (compare_loop_spec (length (n_data ndh)) (n_data ndh) (n_data ndm) buffer (le_n _))
    as [[Hcmp Hdata]|[Hcmp Hdata]]; rewrite Hcmp in Hc.
  - right. split; [congruence|].
    rewrite (replace_direction h m w _ _ Hino Hc Ha Hb). cbn [st_nlink stat_of fst snd].
    assert ((n_nlink ndm <=? n_nlink ndh) = true) as -> by (apply Z.leb_le; lia).
    split; [reflexivity|]. rewrite <- Hbw.
    apply replace2_calm; rewrite ?Hbw; auto.
  - left. split; [congruence|].
    rewrite (replace_run h m w Hino), Hc. cbn [negb fst snd Z.eqb]. auto.
Qed.

Lemma file_of_swap (fs fs' : FS) (i j ino : Z) :
  fs_inodes fs' = alter (nlink_add (-1)) i (alter (nlink_add 1) j (fs_inodes fs)) ->
  file_of fs' ino = file_of fs ino.
Proof.
  intros H. unfold file_of. rewrite H, !lookup_alter.
  repeat case_decide; subst; destruct (fs_inodes fs !! ino); reflexivity.
Qed.

(** A sweep: the members with the content of the head are taken out of
    the list and bound to the inode of the head; the others stay as they
    were. *)
Lemma comb2_sweep (h : Info) (t : Infos) (w : World) :
  held (w_fs w) h -> Forall (solo (w_fs w)) t ->
  NoDup (i_name <$> h :: t) -> NoDup (i_ino <$> h :: t) ->
  Forall (unused_save sys (w_fs w)) t ->
  let r := comb2 sys opt h t w in
  fst r `sublist_of` t /\
  held (w_fs (snd r)) h /\
  Forall (solo (w_fs (snd r))) (fst r) /\
  (forall m, m ∈ fst r -> file_of (w_fs w) (i_ino m) <> file_of (w_fs w) (i_ino h)) /\
  (forall m, m ∈ t -> m ∉ fst r ->
     file_of (w_fs w) (i_ino m) = file_of (w_fs w) (i_ino h) /\
     fs_names (w_fs (snd r)) !! i_name m = Some (i_ino h)) /\
  (forall p, p ∉ i_name <$> t -> fs_names (w_fs (snd r)) !! p = fs_names (w_fs w) !! p) /\
  (forall ino, file_of (w_fs (snd r)) ino = file_of (w_fs w) ino) /\
  (forall ino, ino <> i_ino h -> ino ∉ i_ino <$> t ->
     fs_inodes (w_fs (snd r)) !! ino = fs_inodes (w_fs w) !! ino).
Proof.
  revert w. induction t as [|b x IH]; intros w Hh Ht Hnames Hinos Hsave.
  { cbn. split_and!; auto; intros m Hm; inversion Hm. }
  cbv zeta. rewrite comb2_run. cbv zeta.
  set (w1 := snd (when (debug opt) _ w)).
  assert (w_fs w1 = w_fs w) as Hw1 by (subst w1; destruct (debug opt); reflexivity).
  rewrite !fmap_cons in Hnames. rewrite !fmap_cons in Hinos.
  apply NoDup_cons in Hnames as [Hhn Hnames], Hinos as [Hhi Hinos].
  pose proof Hnames as Hnames'. pose proof Hinos as Hinos'.
  apply NoDup_cons in Hnames' as [Hbn Hxn], Hinos' as [Hbi Hxi].
  apply not_elem_of_cons in Hhn as [Hhb Hhn], Hhi as [Hhbi Hhi].
  apply Forall_cons in Ht as [Hb Hx], Hsave as [Hsb Hsx].
  assert (forall m, m ∈ x -> i_name m ∈ i_name <$> x) as Hin
    by (intros m Hm; apply list_elem_of_fmap_2, Hm).
  assert (forall m, m ∈ x -> i_ino m ∈ i_ino <$> x) as Hii
    by (intros m Hm; apply list_elem_of_fmap_2, Hm).
  destruct (replace_held h b w1) as [(Hdiff & -> & Hfs)|(Hsame & -> & Hn2 & Hi2)];
    rewrite ?Hw1; auto; cbn [negb Z.eqb fst snd].
  - (* different: [b] stays *)
    set (w2 := snd (replace sys opt h b w1)) in *.
    rewrite Hw1 in Hfs, Hdiff.
    destruct (IH w2) as (P1 & P2 & P3 & P4 & P5 & P6 & P7 & P8);
      rewrite ?Hfs; auto.
    { rewrite fmap_cons. apply NoDup_cons. auto. }
    { rewrite fmap_cons. apply NoDup_cons. auto. }
    rewrite Hfs in *. split_and!; auto.
    + apply sublist_skip, P1.
    + apply Forall_cons. split; [|exact P3].
      destruct Hb as (Hbname & nd & Hbino & Hbk & Hbl). split.
      * rewrite P6; auto.
      * exists nd. rewrite P8; auto.
    + intros m [->|Hm]%elem_of_cons; auto.
    + intros m [->|Hm]%elem_of_cons Hout.
      * exfalso. apply Hout, list_elem_of_here.
      * apply P5; auto. intros Hk. apply Hout, list_elem_of_further, Hk.
    + intros p [Hp Hpx]%not_elem_of_cons. apply P6, Hpx.
    + intros ino Hino [Hib Hix]%not_elem_of_cons. apply P8; auto.
  - (* identical: [b] goes *)
    set (w2 := snd (replace sys opt h b w1)) in *.
    rewrite Hw1 in Hn2, Hi2, Hsame.
    pose proof (fun ino => file_of_swap (w_fs w) (w_fs w2) _ _ ino Hi2) as Hf2.
    assert (forall p, p <> i_name b -> fs_names (w_fs w2) !! p = fs_names (w_fs w) !! p)
      as Hframe by (intros p Hp; rewrite Hn2, lookup_insert_ne; auto).
    assert (forall ino, ino <> i_ino h -> ino <> i_ino b ->
              fs_inodes (w_fs w2) !! ino = fs_inodes (w_fs w) !! ino) as Hiframe
      by (intros ino H1 H2; rewrite Hi2, !lookup_alter_ne; auto).
    destruct (IH w2) as (P1 & P2 & P3 & P4 & P5 & P6 & P7 & P8).
    { destruct Hh as (Hhname & nd & Hhino & Hhk & Hhl). split.
      - rewrite Hframe; auto.
      - exists (nlink_add 1 nd). rewrite Hi2, lookup_alter_ne, lookup_alter_eq, Hhino by auto.
        cbn. split_and!; auto. lia. }
    { apply Forall_forall. intros m Hm.
      rewrite Forall_forall in Hx. destruct (Hx m Hm) as (Hmname & nd & Hmino & Hmk & Hml).
      assert (i_name m <> i_name b) by (intros E; apply Hbn; rewrite <- E; auto).
      assert (i_ino m <> i_ino b) by (intros E; apply Hbi; rewrite <- E; auto).
      assert (i_ino m <> i_ino h) by (intros E; apply Hhi; rewrite <- E; auto).
      split; [rewrite Hframe; auto|]. exists nd. rewrite Hiframe; auto. }
    { rewrite fmap_cons. apply NoDup_cons. auto. }
    { rewrite fmap_cons. apply NoDup_cons. auto. }
    { apply Forall_forall. intros m Hm n. rewrite Forall_forall in Hsx.
      rewrite Hframe; [apply Hsx, Hm|]. intros E.
      destruct Hb as (Hbname & _). rewrite <- E, (Hsx m Hm n) in Hbname. discriminate. }
    split_and!; auto.
    + apply sublist_cons, P1.
    + intros m Hm. rewrite <- !Hf2. apply P4, Hm.
    + intros m [->|Hm]%elem_of_cons Hout.
      * split; [exact Hsame|]. rewrite P6 by auto. rewrite Hn2. apply lookup_insert_eq.
      * rewrite <- !Hf2. apply P5; auto.
    + intros p [Hp Hpx]%not_elem_of_cons. rewrite P6 by auto. apply Hframe, Hp.
    + intros ino. rewrite P7. apply Hf2.
    + intros ino Hino [Hib Hix]%not_elem_of_cons. rewrite P8 by auto. apply Hiframe; auto.
Qed.

Lemma NoDup_fmap_eq {A B} (f : A -> B) (l : list A) (x y : A) :
  NoDup (f <$> l) -> x ∈ l -> y ∈ l -> f x = f y -> x = y.
Proof.
  induction l as [|a l IH]; intros Hnd Hx Hy Hf; [inversion Hx|].
  rewrite fmap_cons in Hnd. apply NoDup_cons in Hnd as [Ha Hnd].
  apply elem_of_cons in Hx as [->|Hx], Hy as [->|Hy]; auto.
  - exfalso. apply Ha. rewrite Hf. apply list_elem_of_fmap_2, Hy.
  - exfalso. apply Ha. rewrite <- Hf. apply list_elem_of_fmap_2, Hx.
Qed.

Lemma tidy_short (fs : FS) (l : Infos) :
  (length l <= 1)%nat -> tidy sys fs l ->
  forall r : Infos * World, r = (l, snd r) ->
  (forall s, s ∈ fst r -> fs_names fs !! i_name s = Some (i_ino s)) /\
  (forall s1 s2, s1 ∈ fst r -> s2 ∈ fst r -> s1 <> s2 ->
     file_of fs (i_ino s1) <> file_of fs (i_ino s2)).
Proof.
  intros Hlen (_ & _ & Hsolo & _) r ->. cbn [fst]. split.
  - intros s Hs. rewrite Forall_forall in Hsolo. apply (Hsolo s Hs).
  - intros s1 s2 H1 H2 Hne. exfalso. apply Hne.
    destruct l as [|a [|b l]]; [inversion H1| |simpl in Hlen; lia].
    apply list_elem_of_singleton in H1, H2. congruence.
Qed.

(** The loop of [combine] on a class nobody else has a link into. *)
Lemma combine_kept_spec (n : nat) (l : Infos) (w : World) :
  (length l <= n)%nat -> tidy sys (w_fs w) l ->
  let r := combine_kept sys opt n l w in
  fst r `sublist_of` l /\
  (forall s, s ∈ fst r -> fs_names (w_fs (snd r)) !! i_name s = Some (i_ino s)) /\
  (forall s1 s2, s1 ∈ fst r -> s2 ∈ fst r -> s1 <> s2 ->
     file_of (w_fs w) (i_ino s1) <> file_of (w_fs w) (i_ino s2)) /\
  (forall m, m ∈ l ->
     exists s, s ∈ fst r /\
       fs_names (w_fs (snd r)) !! i_name m = Some (i_ino s) /\
       file_of (w_fs w) (i_ino m) = file_of (w_fs w) (i_ino s)) /\
  (forall p, p ∉ i_name <$> l ->
     fs_names (w_fs (snd r)) !! p = fs_names (w_fs w) !! p) /\
  (forall ino, file_of (w_fs (snd r)) ino = file_of (w_fs w) ino).
Proof.
  revert l w. induction n as [|n IH]; intros l w Hlen Htidy.
  - (* no round *)
    assert (combine_kept sys opt 0 l w = (l, w)) as ->
      by (destruct l as [|a [|b l]]; reflexivity).
    assert (length l <= 1)%nat as Hshort by lia.
    destruct (tidy_short (w_fs w) l Hshort Htidy (l, w) eq_refl) as [Hn Hp].
    cbn [fst snd] in *. split_and!; auto. intros m Hm. exists m. auto.
  - destruct l as [|h [|b x]].
    + destruct (tidy_short (w_fs w) [] (Nat.le_0_l _) Htidy ([], w) eq_refl) as [Hn Hp].
      cbn. split_and!; auto. intros m Hm. inversion Hm.
    + destruct (tidy_short (w_fs w) [h] (le_n _) Htidy ([h], w) eq_refl) as [Hn Hp].
      cbn [combine_kept ret fst snd] in *. split_and!; auto. intros m Hm. exists m. auto.
    + (* a sweep, then the rest *)
      set (t := b :: x) in *.
      assert (combine_kept sys opt (S n) (h :: t) w =
                (h :: fst (combine_kept sys opt n (fst (comb2 sys opt h t w))
                             (snd (comb2 sys opt h t w))),
                 snd (combine_kept sys opt n (fst (comb2 sys opt h t w))
                        (snd (comb2 sys opt h t w))))) as ->.
      { subst t. cbn [combine_kept]. rewrite !bind_run. reflexivity. }
      destruct Htidy as (Hnames & Hinos & Hsolo & Hsave).
      pose proof Hnames as Hnames'. pose proof Hinos as Hinos'.
      rewrite fmap_cons in Hnames'. rewrite fmap_cons in Hinos'.
      apply NoDup_cons in Hnames' as [Hhn Htn], Hinos' as [Hhi Hti].
      apply Forall_cons in Hsolo as [Hh Ht], Hsave as [Hsh Hst].
      assert (held (w_fs w) h) as Hheld.
      { destruct Hh as (? & nd & ? & ? & Hl). split; [auto|]. exists nd.
        split_and!; auto. lia. }
      destruct (comb2_sweep h t w Hheld Ht Hnames Hinos Hst)
        as (P1 & P2 & P3 & P4 & P5 & P6 & P7 & P8).
      set (kept := fst (comb2 sys opt h t w)) in *.
      set (w1 := snd (comb2 sys opt h t w)) in *.
      assert (forall k, k ∈ kept -> k ∈ t) as Hsub
        by (intros k Hk; eapply elem_of_sublist; eauto).
      assert (forall m, m ∈ t -> i_name m ∈ i_name <$> t) as Hin
        by (intros m Hm; apply list_elem_of_fmap_2, Hm).
      assert (tidy sys (w_fs w1) kept) as Htidy1.
      { split_and!; auto.
        - eapply sublist_NoDup; [exact Htn | apply fmap_sublist, P1].
        - eapply sublist_NoDup; [exact Hti | apply fmap_sublist, P1].
        - apply Forall_forall. intros k Hk c. rewrite Forall_forall in Hst.
          rewrite P6; [apply Hst, Hsub, Hk|]. intros Hbk.
          apply list_elem_of_fmap_1 in Hbk as (m & Hbk & Hm).
          rewrite Forall_forall in Ht. destruct (Ht m Hm) as (Hbound & _).
          rewrite <- Hbk, (Hst k (Hsub k Hk) c) in Hbound. discriminate. }
      assert (length kept <= n)%nat as Hlen1.
      { apply sublist_length in P1. subst t. cbn [length] in *. lia. }
      destruct (IH kept w1 Hlen1 Htidy1) as (Q1 & Q2 & Q3 & Q4 & Q5 & Q6).
      set (surv := fst (combine_kept sys opt n kept w1)) in *.
      set (w' := snd (combine_kept sys opt n kept w1)) in *.
      assert (forall s, s ∈ surv -> s ∈ kept) as Hsub'
        by (intros s Hs; eapply elem_of_sublist; eauto).
      assert (i_name h ∉ i_name <$> kept) as Hhk.
      { intros (k & Hk & Hkin)%list_elem_of_fmap_1. apply Hhn. rewrite Hk. auto. }
      assert (fs_names (w_fs w') !! i_name h = Some (i_ino h)) as Hhead
        by (rewrite Q5 by exact Hhk; apply P2).
      cbn [fst snd]. split_and!.
      * apply sublist_skip. etransitivity; eauto.
      * intros s [->|Hs]%elem_of_cons; auto.
      * intros s1 s2 [->|H1]%elem_of_cons [->|H2]%elem_of_cons Hne.
        -- contradiction.
        -- intros E. apply (P4 s2); auto.
        -- apply P4; auto.
        -- rewrite <- !P7. apply Q3; auto.
      * intros m [->|Hm]%elem_of_cons.
        -- exists h. split_and!; auto. apply list_elem_of_here.
        -- destruct (decide (m ∈ kept)) as [Hk|Hk].
           ++ destruct (Q4 m Hk) as (s & Hs & Hname & Hfile).
              exists s. split_and!; auto; [apply list_elem_of_further, Hs|].
              rewrite <- !P7. exact Hfile.
           ++ destruct (P5 m Hm Hk) as (Hfile & Hname).
              exists h. split_and!; auto; [apply list_elem_of_here|].
              rewrite Q5; [exact Hname|].
              intros (k & Hkn & Hkin)%list_elem_of_fmap_1. apply Hk.
              rewrite (NoDup_fmap_eq i_name t m k Htn Hm (Hsub k Hkin) Hkn). exact Hkin.
      * intros p Hp. rewrite fmap_cons in Hp. apply not_elem_of_cons in Hp as [Hph Hpt].
        rewrite Q5, P6; auto.
        intros (k & Hkn & Hkin)%list_elem_of_fmap_1. apply Hpt. rewrite Hkn. auto.
      * intros ino. rewrite Q6. apply P7.
Qed.

(** *** A class with nothing left to link *)

Lemma regular_at_inode (fs : FS) (m : Info) :
  regular_at fs m ->
  exists nd, fs_names fs !! i_name m = Some (i_ino m) /\
             fs_inodes fs !! i_ino m = Some nd /\ n_kind nd = S_IFREG /\
             file_of fs (i_ino m) = Some (S_IFREG, n_data nd).
Proof.
  intros (Hn & data & Hf). unfold file_of in *.
  destruct (fs_inodes fs !! i_ino m) as [nd|]; [|discriminate].
  injection Hf as Hk Hd. exists nd. cbn. rewrite Hk. auto.
Qed.

Lemma replace_settled (x y : Info) (w : World) :
  regular_at (w_fs w) x -> regular_at (w_fs w) y ->
  (i_ino x <> i_ino y -> file_of (w_fs w) (i_ino x) <> file_of (w_fs w) (i_ino y)) ->
  w_fs (snd (replace sys opt x y w)) = w_fs w /\
  mutations (w_out (snd (replace sys opt x y w))) = mutations (w_out w).
Proof.
  intros Hx Hy Hdiff. destruct (decide (i_ino x = i_ino y)) as [Hi|Hi].
  - destruct (replace_already_linked x y w Hi) as (_ & Hfs & _ & Hout).
    split; [exact Hfs|]. rewrite Hout. destruct (debug opt); observe; reflexivity.
  - destruct (regular_at_inode _ _ Hx) as (ndx & Hxn & Hxi & Hxk & Hxf).
    destruct (regular_at_inode _ _ Hy) as (ndy & Hyn & Hyi & Hyk & Hyf).
    destruct (compared_calm x y w ndx ndy Hxn Hxi Hxk Hyn Hyi Hyk) as (Hc & Hcw & Hcm).
    destruct (compare_loop_spec (length (n_data ndx)) (n_data ndx) (n_data ndy)
                buffer (le_n _)) as [[_ Hdata]|[Hcmp _]].
    + exfalso. apply (Hdiff Hi). rewrite Hxf, Hyf, Hdata. reflexivity.
    + rewrite (replace_run x y w Hi), Hc, Hcmp. cbn [negb Z.eqb fst snd]. auto.
Qed.

Lemma comb2_settled (h : Info) (t : Infos) (w : World) :
  settled (w_fs w) (h :: t) ->
  fst (comb2 sys opt h t w) `sublist_of` t /\
  w_fs (snd (comb2 sys opt h t w)) = w_fs w /\
  mutations (w_out (snd (comb2 sys opt h t w))) = mutations (w_out w).
Proof.
  revert w. induction t as [|b x IH]; intros w [Hreg Hpair].
  { cbn. auto. }
  rewrite comb2_run. cbv zeta. set (w1 := snd (when (debug opt) _ w)).
  assert (w_fs w1 = w_fs w /\ mutations (w_out w1) = mutations (w_out w)) as [Hw1 Hm1]
    by (apply quiet_when, quiet_printf).
  apply Forall_cons in Hreg as [Hh Hreg]. apply Forall_cons in Hreg as [Hb Hx].
  destruct (replace_settled h b w1) as [Hfs Hmu]; rewrite ?Hw1; auto.
  { apply Hpair; repeat constructor. }
  destruct (IH (snd (replace sys opt h b w1))) as (Hsub & Hfs' & Hmu').
  { rewrite Hfs, Hw1. split; [apply Forall_cons; auto|].
    intros u v Hu Hv. apply Hpair.
    - apply elem_of_cons in Hu as [->|Hu]; repeat constructor; exact Hu.
    - apply elem_of_cons in Hv as [->|Hv]; repeat constructor; exact Hv. }
  destruct (negb _); cbn [fst snd].
  - split_and!; [apply sublist_cons, Hsub | congruence | congruence].
  - split_and!; [apply sublist_skip, Hsub | congruence | congruence].
Qed.

Lemma settled_sublist (fs : FS) (l k : Infos) :
  k `sublist_of` l -> settled fs l -> settled fs k.
Proof.
  intros Hsub [Hreg Hpair]. split.
  - rewrite Forall_forall in *. intros m Hm. apply Hreg. eapply elem_of_sublist; eauto.
  - intros x y Hx Hy. apply Hpair; eapply elem_of_sublist; eauto.
Qed.

Lemma combine_while_settled (n : nat) (l : Infos) (w : World) :
  settled (w_fs w) l ->
  w_fs (snd (combine_while sys opt n l w)) = w_fs w /\
  mutations (w_out (snd (combine_while sys opt n l w))) = mutations (w_out w).
Proof.
  revert l w. induction n as [|n IH]; intros [|h [|b x]] w Hs; cbn [combine_while];
    try (split; reflexivity).
  rewrite bind_run.
  destruct (comb2_settled h (b :: x) w Hs) as (Hsub & Hfs & Hmu).
  destruct (IH (fst (comb2 sys opt h (b :: x) w)) (snd (comb2 sys opt h (b :: x) w)))
    as [Hfs' Hmu'].
  { rewrite Hfs. eapply settled_sublist; [|exact Hs]. apply sublist_cons, Hsub. }
  split; congruence.
Qed.

Lemma combine_settled (l : Infos) (w : World) :
  settled (w_fs w) l ->
  w_fs (snd (combine sys opt l w)) = w_fs w /\
  mutations (w_out (snd (combine sys opt l w))) = mutations (w_out w).
Proof.
  intros Hs. unfold combine. rewrite bind_run.
  assert (w_fs (snd (when (debug opt) (puts "combine") w)) = w_fs w /\
          mutations (w_out (snd (when (debug opt) (puts "combine") w))) =
            mutations (w_out w)) as [Hw1 Hm1]
    by (apply quiet_when, quiet_puts).
  destruct (combine_while_settled (length l) l
              (snd (when (debug opt) (puts "combine") w))) as [Hfs Hmu].
  { rewrite Hw1. exact Hs. }
  split; congruence.
Qed.

(** [combine_kept] is [combine_while] with a result. *)
Lemma combine_kept_world (n : nat) (l : Infos) (w : World) :
  snd (combine_kept sys opt n l w) = snd (combine_while sys opt n l w).
Proof.
  revert l w. induction n as [|n IH]; intros [|h [|b x]] w; try reflexivity.
  cbn [combine_kept combine_while]. rewrite !bind_run. cbn [ret snd]. apply IH.
Qed.

Lemma combine_world (l : Infos) (w : World) :
  snd (combine sys opt l w) =
  snd (combine_kept sys opt (length l) l (snd (when (debug opt) (puts "combine") w))).
Proof. unfold combine. rewrite bind_run, combine_kept_world. reflexivity. Qed.

End Calm.

(** ** The loop of combine ends *)

(** [comb2] returns part of the list it is given. *)
Lemma comb2_sublist (elem : Info) (ilist : Infos) (w : World) :
  fst (comb2 sys opt elem ilist w) `sublist_of` ilist.
Proof.
  revert w. induction ilist as [|b x IH]; intros w; [constructor|].
  rewrite comb2_run. cbv zeta. destruct (negb _); cbn [fst].
  - apply sublist_cons, IH.
  - apply sublist_skip, IH.
Qed.

(** So every round of [combine] shortens the list, and fuel for one round
    per member is as good as any larger amount: the loop has ended by
    then. *)
Lemma combine_while_fuel (n n' : nat) (list : Infos) (w : World) :
  (length list <= n)%nat -> (length list <= n')%nat ->
  combine_while sys opt n list w = combine_while sys opt n' list w.
Proof.
  revert n' list w. induction n as [|n IH]; intros n' list w Hn Hn'.
  - destruct list as [|a [|b x]]; [destruct n'; reflexivity.. | simpl in Hn; lia].
  - destruct list as [|a [|b x]]; [destruct n'; reflexivity..|].
    destruct n' as [|n']; [simpl in Hn'; lia|].
    cbn [combine_while]. rewrite !bind_run.
    pose proof (sublist_length _ _ (comb2_sublist a (b :: x) w)) as Hlen.
    cbn [length] in *. apply IH; lia.
Qed.

Lemma combine_kept_fuel (n n' : nat) (list : Infos) (w : World) :
  (length list <= n)%nat -> (length list <= n')%nat ->
  combine_kept sys opt n list w = combine_kept sys opt n' list w.
Proof.
  revert n' list w. induction n as [|n IH]; intros n' list w Hn Hn'.
  - destruct list as [|a [|b x]]; [destruct n'; reflexivity.. | simpl in Hn; lia].
  - destruct list as [|a [|b x]]; [destruct n'; reflexivity..|].
    destruct n' as [|n']; [simpl in Hn'; lia|].
    cbn [combine_kept]. rewrite !bind_run.
    pose proof (sublist_length _ _ (comb2_sublist a (b :: x) w)) as Hlen.
    cbn [length] in *. rewrite (IH n'); [reflexivity | lia | lia].
Qed.

(** ** Dry run *)

(** C6.  With -n ([noexec]), [replace2] calls none of [rename], [link]
    and [unlink], and no other call of the system either: it prints the
    command it would carry out and returns 1.  A whole run then leaves
    the file system, and so the inode every path leads to, as it found
    it, and attempts no [rename], [link] or [unlink]. *)
Theorem dry_run_mutates_nothing :
  noexec opt = true ->
  (forall from to w,
     fst (replace2 sys opt from to w) = 1 /\
     w_fs (snd (replace2 sys opt from to w)) = w_fs w /\
     w_calls (snd (replace2 sys opt from to w)) = w_calls w /\
     w_out (snd (replace2 sys opt from to w)) =
       w_out w ++
       (if debug opt
        then [Stdout ("replace2(" +:+ from +:+ ", " +:+ to +:+ ")" +:+ nl)]
        else []) ++
       [Stdout ("link " +:+ to +:+ " to " +:+ from +:+ nl)]) /\
  (forall depth argv w,
     w_fs (snd (main sys opt depth argv w)) = w_fs w /\
     mutations (w_out (snd (main sys opt depth argv w))) = mutations (w_out w)).
Proof.
  intros Hn. split.
  - intros from to w. unfold replace2. rewrite Hn.
    destruct w as [fs n out nice uid].
    destruct (debug opt); norm; rewrite <- ?app_assoc; auto.
  - intros depth argv. apply quiet_main, Hn.
Qed.

(** ** Comparison *)

(** C9.  [compare] returns 0 exactly when both files can be opened and
    hold the same bytes, 1 exactly when both can be opened and differ, and
    -1 exactly when one of them cannot be opened.  A mismatch within the
    first chunk gives 1 whatever follows.  A result other than 0 makes
    [replace] return 0 with nothing done after the comparison.  Two files
    of length zero compare equal. *)
Theorem compare_equal_iff_identical (file1 file2 : string) (w : World) :
  (0 < BUFSIZ sys)%nat ->
  let o1 := open sys file1 w in
  let o2 := open sys file2 (snd o1) in
  let r := fst (compare sys file1 file2 w) in
  (r = 0 <-> exists d, fst o1 = Some d /\ fst o2 = Some d) /\
  (r = 1 <-> exists d1 d2, fst o1 = Some d1 /\ fst o2 = Some d2 /\ d1 <> d2) /\
  (r = -1 <-> fst o1 = None \/ fst o2 = None) /\
  (forall fuel fd1 fd2,
     take (BUFSIZ sys) fd1 <> take (BUFSIZ sys) fd2 ->
     compare_loop sys fuel fd1 fd2 = 1) /\
  (forall a b w0,
     i_ino a <> i_ino b -> fst (compared sys opt a b w0) <> 0 ->
     replace sys opt a b w0 = (0, snd (compared sys opt a b w0))) /\
  (fst o1 = Some [] -> fst o2 = Some [] -> r = 0).
Proof.
  intros HB o1 o2 r.
  assert (Hr : r = match fst o1 with
                   | None => -1
                   | Some fd1 =>
                       match fst o2 with
                       | None => -1
                       | Some fd2 => compare_loop sys (length fd1) fd1 fd2
                       end
                   end).
  { subst r o2 o1. rewrite compare_run.
    destruct (fst (open sys file1 w)); [|reflexivity].
    destruct (fst (open sys file2 _)); reflexivity. }
  clearbody r o2 o1. subst r.
  repeat split.
  - destruct (fst o1) as [d1|]; [|discriminate].
    destruct (fst o2) as [d2|]; [|discriminate].
    destruct (compare_loop_spec (length d1) d1 d2 HB (le_n _)) as [[_ ->]|[-> _]];
      [eauto | discriminate].
  - intros (d & -> & ->).
    destruct (compare_loop_spec (length d) d d HB (le_n _)) as [[-> _]|[_ H]];
      [reflexivity | contradiction].
  - destruct (fst o1) as [d1|]; [|discriminate].
    destruct (fst o2) as [d2|]; [|discriminate].
    destruct (compare_loop_spec (length d1) d1 d2 HB (le_n _)) as [[-> _]|[_ H]];
      [discriminate | eauto].
  - intros (d1 & d2 & -> & -> & Hne).
    destruct (compare_loop_spec (length d1) d1 d2 HB (le_n _)) as [[_ H]|[-> _]];
      [contradiction | reflexivity].
  - destruct (fst o1) as [d1|]; [|auto].
    destruct (fst o2) as [d2|]; [|auto].
    destruct (compare_loop_spec (length d1) d1 d2 HB (le_n _)) as [[-> _]|[-> _]];
      discriminate.
  - intros [->| H]; [reflexivity|].
    destruct (fst o1); [rewrite H|]; reflexivity.
  - intros fuel fd1 fd2. apply compare_loop_first_chunk.
  - intros a b w0 Hino Hc. rewrite (replace_run a b w0 Hino).
    apply Z.eqb_neq in Hc. rewrite Hc. reflexivity.
  - intros -> ->.
    destruct (compare_loop_spec (length []) [] [] HB (le_n _)) as [[-> _]|[_ H]];
      [reflexivity | contradiction].
Qed.

(** ** Classification *)

Lemma fits_spec (hp c : Head) :
  fits opt hp c = true <->
  h_size hp = h_size c /\ h_dev hp = h_dev c /\
  (ignore_uid opt = true \/ h_uid hp = h_uid c) /\
  (ignore_gid opt = true \/ h_gid hp = h_gid c) /\
  (ignore_perms opt = true \/ h_perms hp = h_perms c).
Proof.
  unfold fits. rewrite !andb_true_iff, !orb_true_iff, !Z.eqb_eq. tauto.
Qed.

(** The loop stops at the first class that fits. *)
Lemma assoc_for_spec (hp : Head) (list : Heads) (w : World) :
  (exists l1 c l2,
     list = l1 ++ c :: l2 /\ Forall (fun h => fits opt hp h = false) l1 /\
     fits opt hp c = true /\
     fst (assoc_for opt hp list w) = Some (l1 ++ insert_info hp c :: l2)) \/
  (Forall (fun h => fits opt hp h = false) list /\
   fst (assoc_for opt hp list w) = None).
Proof.
  revert w. induction list as [|listp rest IH]; intros w; cbn [assoc_for].
  - right. split; [constructor | reflexivity].
  - destruct (fits opt hp listp) eqn:E.
    + left. exists [], listp, rest. rewrite bind_run. auto.
    + rewrite bind_run. cbn [ret fst].
      destruct (IH w) as [(l1 & c & l2 & -> & Hl1 & Hc & ->)|[Hall ->]].
      * left. exists (listp :: l1), c, l2. repeat split; auto.
      * right. split; [constructor; assumption | reflexivity].
Qed.


(** Fitting is an equivalence on the keys, for the flags of the run. *)
Lemma fits_sym (a b : Head) : fits opt a b = fits opt b a.
Proof.
  unfold fits.
  rewrite (Z.eqb_sym (h_size a)), (Z.eqb_sym (h_dev a)), (Z.eqb_sym (h_uid a)),
    (Z.eqb_sym (h_gid a)), (Z.eqb_sym (h_perms a)).
  reflexivity.
Qed.

Lemma fits_trans (a b c : Head) :
  fits opt a b = true -> fits opt b c = true -> fits opt a c = true.
Proof.
  rewrite !fits_spec. intros (-> & -> & Hu & Hg & Hp) (-> & -> & Hu' & Hg' & Hp').
  split_and!; auto;
    [destruct Hu, Hu' | destruct Hg, Hg' | destruct Hp, Hp']; auto; right; congruence.
Qed.

Lemma apart_middle (l1 l2 : Heads) (c : Head) :
  apart opt (l1 ++ c :: l2) ->
  Forall (fun d => fits opt d c = false) l1 /\ Forall (fun d => fits opt c d = false) l2.
Proof.
  induction l1 as [|a l1 IH]; cbn [app apart].
  - intros [H _]. split; [constructor | exact H].
  - intros [Ha Hrest]. destruct (IH Hrest) as [H1 H2]. split; [|exact H2].
    constructor; [|exact H1]. apply Forall_app in Ha as [_ Ha].
    apply Forall_cons in Ha as [Ha _]. exact Ha.
Qed.

(** In such a list a file fits one class at most. *)
Lemma apart_one_fit (hp : Head) (l1 l2 : Heads) (c : Head) :
  apart opt (l1 ++ c :: l2) -> fits opt hp c = true ->
  Forall (fun d => fits opt hp d = false) l1 /\
  Forall (fun d => fits opt hp d = false) l2.
Proof.
  intros Hap Hc. destruct (apart_middle l1 l2 c Hap) as [H1 H2].
  split; (eapply Forall_impl; [eassumption|]); cbv beta; intros d Hd;
    destruct (fits opt hp d) eqn:E; auto; rewrite <- Hd; symmetry.
  - apply (fits_trans d hp c); [rewrite fits_sym; exact E | exact Hc].
  - apply (fits_trans c hp d); [rewrite fits_sym; exact Hc | exact E].
Qed.

Lemma apart_replace (l1 l2 : Heads) (c c' : Head) :
  (forall d, fits opt c' d = fits opt c d) -> (forall d, fits opt d c' = fits opt d c) ->
  apart opt (l1 ++ c :: l2) -> apart opt (l1 ++ c' :: l2).
Proof.
  intros Hl Hr. induction l1 as [|a l1 IH]; cbn [app apart].
  - intros [H Hrest]. split; [|exact Hrest].
    eapply Forall_impl; [exact H|]. cbv beta. intros d Hd. rewrite Hl. exact Hd.
  - intros [Ha Hrest]. split; [|apply IH, Hrest].
    apply Forall_app in Ha as [Ha1 Ha2]. apply Forall_cons in Ha2 as [Hac Ha2].
    apply Forall_app. split; [exact Ha1|]. constructor; [|exact Ha2].
    rewrite Hr. exact Hac.
Qed.

(** [assoc] keeps the classes apart. *)
Lemma assoc_apart (hp : Head) (list : Heads) (w : World) :
  apart opt list -> apart opt (fst (assoc opt hp list w)).
Proof.
  intros Hap. unfold assoc. rewrite !bind_run.
  destruct (assoc_for_spec hp list (snd (when (debug opt) (puts "assoc") w)))
    as [(l1 & c & l2 & -> & Hl1 & Hc & ->)|[Hall ->]]; cbn [fst ret].
  - apply (apart_replace l1 l2 c); auto.
  - cbn [apart]. split; [|exact Hap].
    eapply Forall_impl; [exact Hall|]. cbv beta. intros d Hd. exact Hd.
Qed.

(** C8.  [assoc] goes through the classes in the order of the list; the
    file joins the first class with the same size and device and, unless
    the flag to ignore it is set, the same owner, group and permissions,
    in front of the files already there.  When no class fits, a new class
    holding just this file is pushed on the front of the list.  No other
    class changes, so classes are never merged; and in a list whose
    classes do not fit one another, as [assoc] leaves it, the file fits
    one class at most, whatever the order of the list. *)
Theorem assoc_first_fit (hp : Head) (i : Info) (list : Heads) (w : World) :
  h_info hp = [i] ->
  (forall c,
     fits opt hp c = true <->
     h_size hp = h_size c /\ h_dev hp = h_dev c /\
     (ignore_uid opt = true \/ h_uid hp = h_uid c) /\
     (ignore_gid opt = true \/ h_gid hp = h_gid c) /\
     (ignore_perms opt = true \/ h_perms hp = h_perms c)) /\
  ((exists l1 c l2,
      list = l1 ++ c :: l2 /\ Forall (fun h => fits opt hp h = false) l1 /\
      fits opt hp c = true /\
      fst (assoc opt hp list w) =
        l1 ++ {| h_info := i :: h_info c; h_size := h_size c; h_dev := h_dev c;
                 h_uid := h_uid c; h_gid := h_gid c; h_perms := h_perms c |} :: l2) \/
   (Forall (fun h => fits opt hp h = false) list /\
    fst (assoc opt hp list w) = hp :: list)) /\
  (apart opt list ->
   apart opt (fst (assoc opt hp list w)) /\
   forall l1 c l2,
     list = l1 ++ c :: l2 -> fits opt hp c = true ->
     Forall (fun h => fits opt hp h = false) l1 /\
     Forall (fun h => fits opt hp h = false) l2) /\
  w_fs (snd (assoc opt hp list w)) = w_fs w.
Proof.
  intros Hi. split; [apply fits_spec|]. split; [|split; [|apply quiet_assoc]].
  - unfold assoc. rewrite !bind_run.
    destruct (assoc_for_spec hp list (snd (when (debug opt) (puts "assoc") w)))
      as [(l1 & c & l2 & Hl & Hl1 & Hc & ->)|[Hall ->]].
    + left. exists l1, c, l2. repeat split; auto.
      unfold insert_info. rewrite Hi. reflexivity.
    + right. split; [assumption|]. destruct hp; reflexivity.
  - intros Hap. split; [apply assoc_apart, Hap|].
    intros l1 c l2 -> Hc. apply (apart_one_fit hp l1 l2 c); assumption.
Qed.

(** ** Every step of the swap *)

(** C3, as the code has it.  Take a swap that retires [to] in favour of
    [from], two names with the same content, with a save file whose name
    is not in use.  After every call of the swap, and at its end, every
    other name is bound to the inode it was bound to, every inode holds
    what it held, and what [to] led to is found under [to] or, as long as
    [to] is missing, under the save file.  When the swap returns 1, [to]
    leads to the same content as before. *)
Theorem link_swap_keeps_content (from to : string) (w : World) :
  let newname := newname_of sys to (time sys (w_calls w)) in
  let done := replace2 sys opt from to w in
  fs_names (w_fs w) !! newname = None ->
  content (w_fs w) from = content (w_fs w) to ->
  exists evs,
    w_out (snd done) = w_out w ++ evs /\
    Forall (fun fs' => kept (w_fs w) fs' to newname) (snapshots evs) /\
    kept (w_fs w) (w_fs (snd done)) to newname /\
    (fst done = 1 -> content (w_fs (snd done)) to = content (w_fs w) to).
Proof.
  intros newname done Hunused Hsame. subst done newname. unfold replace2.
  pose proof (newname_fresh to (time sys (w_calls w))) as Hother.
  destruct w as [fs n out nice uid]. cbn [w_fs w_calls w_out] in *.
  pose proof (kept_start fs to (newname_of sys to (time sys n))) as K0.
  pose proof (kept_backup fs to _ Hunused Hother) as K1.
  pose proof (kept_link fs from to _ Hunused Hother Hsame) as K2.
  pose proof (kept_unlink fs from to _ Hunused Hother Hsame) as K4.
  pose proof (kept_restore fs to _ Hunused Hother) as K3.
  destruct (noexec opt), (debug opt), (verbose opt); norm; outcomes;
    repeat match goal with
    | E : (if fault _ _ _ then None else _) = Some _ |- _ => apply attempt_some in E
    end;
    rewrite <- ?app_assoc; (eexists; split; [reflexivity|]); observe.
  all: repeat match goal with
       | H1 : fs_rename _ _ _ = Some ?f1, H2 : fs_link _ _ ?f1 = Some ?f2,
         H4 : fs_unlink _ ?f2 = Some _ |- _ =>
           destruct (K4 _ _ _ H1 H2 H4) as (? & _ & _ & ?); clear H4
       | H1 : fs_rename _ _ _ = Some ?f1, H3 : fs_rename _ _ ?f1 = Some _ |- _ =>
           destruct (K3 _ _ H1 H3) as (? & _); clear H3
       | H1 : fs_rename _ _ _ = Some ?f1, H2 : fs_link _ _ ?f1 = Some _ |- _ =>
           destruct (K2 _ _ H1 H2) as (? & _ & _ & _ & ?); clear H2
       | H1 : fs_rename _ _ _ = Some _ |- _ =>
           destruct (K1 _ H1) as (? & _); clear H1
       end.
  all: split_and!;
    repeat match goal with |- Forall _ _ => constructor end;
    try discriminate; auto.
Qed.

(** ** One attempt, one direction *)

(** The calls counted by [attempts] are those [mutations] keeps. *)
Lemma attempts_mutations (out : list Event) : attempts (mutations out) = attempts out.
Proof.
  induction out as [|e out IH]; [reflexivity|].
  destruct e as [s|s|b s|z|c ok fs]; cbn [mutations List.filter is_mutation]; try exact IH.
  fold (mutations out). unfold attempts in *.
  destruct (is_mutating c) eqn:E; cbn [flat_map]; rewrite E, IH; reflexivity.
Qed.

Lemma attempts_app (l k : list Event) : attempts (l ++ k) = attempts l ++ attempts k.
Proof. apply flat_map_app. Qed.

(** C2, as the code has it.  For two files with different inode numbers
    that compare equal and whose link counts can be read, [replace] makes
    one attempt, in the direction the link counts give, whatever the
    calls of that attempt come to, and returns 1: the calls of [rename],
    [link] and [unlink] it makes are those of one [replace2], which
    retires [to] in favour of [from], and none is made in the other
    direction.  When the backup rename of that attempt fails, the failed
    rename is the only call of [rename], [link] or [unlink], the file
    system is as before, nothing goes to stderr unless debugging, and
    [comb2] drops the member and goes on with the rest of the list. *)
Theorem failed_swap_is_not_retried (a b : Info) (w : World) (stbuf_a stbuf_b : Stat) :
  let from := if st_nlink stbuf_b <=? st_nlink stbuf_a then i_name a else i_name b in
  let to := if st_nlink stbuf_b <=? st_nlink stbuf_a then i_name b else i_name a in
  let w' := snd (restat_b sys opt a b w) in
  let newname := newname_of sys to (time sys (w_calls w')) in
  noexec opt = false ->
  i_ino a <> i_ino b ->
  fst (compared sys opt a b w) = 0 ->
  fst (restat_a sys opt a b w) = Some stbuf_a ->
  fst (restat_b sys opt a b w) = Some stbuf_b ->
  replace sys opt a b w = (1, snd (replace2 sys opt from to w')) /\
  (exists calls,
     attempts (w_out (snd (replace sys opt a b w))) = attempts (w_out w) ++ calls /\
     (calls = [(SysRename to newname, false)] \/
      calls = [(SysRename to newname, true); (SysLink from to, false);
               (SysRename newname to, false)] \/
      calls = [(SysRename to newname, true); (SysLink from to, false);
               (SysRename newname to, true)] \/
      exists ok, calls = [(SysRename to newname, true); (SysLink from to, true);
                          (SysUnlink newname, ok)])) /\
  (forall x w0,
     snd (when (debug opt) (printf (comb2_line a b)) w0) = w ->
     comb2 sys opt a (b :: x) w0 = comb2 sys opt a x (snd (replace sys opt a b w))) /\
  (fst (rename sys to newname w') = -1 ->
   fst (replace sys opt a b w) = 1 /\
   w_fs (snd (replace sys opt a b w)) = w_fs w /\
   mutations (w_out (snd (replace sys opt a b w))) =
     mutations (w_out w) ++ [Call (SysRename to newname) false (w_fs w)] /\
   (debug opt = false ->
    reports (w_out (snd (replace sys opt a b w))) = reports (w_out w))).
Proof.
  intros from to w' newname Hn Hino Hc Ha Hb.
  pose proof (replace_direction a b w stbuf_a stbuf_b Hino Hc Ha Hb) as Hr.
  assert (replace sys opt a b w = (1, snd (replace2 sys opt from to w'))) as Hr'.
  { rewrite Hr. subst from to w'. destruct (_ <=? _); reflexivity. }
  clear Hr. destruct (restat_quiet a b w) as (Hfs & Hmu & Hre). fold w' in Hfs, Hmu, Hre.
  split; [exact Hr'|]. rewrite Hr'. cbn [fst snd]. split_and!.
  - rewrite <- (attempts_mutations (w_out (snd _))), <- (attempts_mutations (w_out w)).
    rewrite <- Hmu. fold newname.
    destruct (replace2_result from to w' Hn)
      as [(_ & H1 & H2)|[(_ & H1)|[(_ & H1 & H2 & H3)|(_ & H1 & H2 & H3)]]].
    + destruct (replace2_linked from to w' Hn H1 H2) as (_ & _ & ->).
      eexists. split; [rewrite attempts_app; reflexivity|]. cbn. eauto 6.
    + destruct (replace2_backup_fails from to w' Hn H1) as (_ & _ & -> & _).
      eexists. split; [rewrite attempts_app; reflexivity|]. cbn. auto.
    + destruct (replace2_restore_fails from to w' Hn H1 H2 H3) as (_ & _ & -> & _).
      eexists. split; [rewrite attempts_app; reflexivity|]. cbn. auto.
    + destruct (replace2_restore_ok from to w' Hn H1 H2 H3) as (_ & _ & -> & _).
      eexists. split; [rewrite attempts_app; reflexivity|]. cbn. auto.
  - intros x w0 Hw0. rewrite comb2_run, Hw0, Hr'. reflexivity.
  - intros Hfail.
    destruct (replace2_backup_fails from to w' Hn Hfail) as (_ & Hfs2 & Hmu2 & Hre2).
    split_and!.
    + reflexivity.
    + congruence.
    + rewrite Hmu2, Hmu, Hfs. reflexivity.
    + intros Hd. rewrite (Hre2 Hd). exact Hre.
Qed.



(** ** What a run leaves behind *)

Section Partition.

Variables (list : Infos) (w : World).

Hypothesis buffer : (0 < BUFSIZ sys)%nat.
Hypothesis not_dry : noexec opt = false.
Hypothesis calm_sys : forall n c, fault sys n c = false.
Hypothesis tidy_class : tidy sys (w_fs w) list.

(* the world [combine] leaves, and the members it never removed *)
Let w' : World := snd (combine sys opt list w).
Let kept : Infos := survivors sys opt list w.

Lemma combine_tidy :
  kept `sublist_of` list /\
  (forall s, s ∈ kept -> fs_names (w_fs w') !! i_name s = Some (i_ino s)) /\
  (forall s1 s2, s1 ∈ kept -> s2 ∈ kept -> s1 <> s2 ->
     file_of (w_fs w) (i_ino s1) <> file_of (w_fs w) (i_ino s2)) /\
  (forall m, m ∈ list ->
     exists s, s ∈ kept /\
       fs_names (w_fs w') !! i_name m = Some (i_ino s) /\
       file_of (w_fs w) (i_ino m) = file_of (w_fs w) (i_ino s)) /\
  (forall ino, file_of (w_fs w') ino = file_of (w_fs w) ino).
Proof.
  subst w' kept. unfold survivors. rewrite combine_world.
  assert (w_fs (snd (when (debug opt) (puts "combine") w)) = w_fs w) as Hw0
    by (destruct (debug opt); reflexivity).
  destruct (combine_kept_spec calm_sys not_dry buffer (length list) list
              (snd (when (debug opt) (puts "combine") w)) (le_n _))
    as (Q1 & Q2 & Q3 & Q4 & _ & Q6); rewrite ?Hw0 in *; auto.
Qed.

(** C4, as the code has it.  Take a class whose members have different
    names and inode numbers, each the only link to a regular file, with
    no save file in use; let no call fail, outside a dry run.  When
    [combine] is done, the members it never removed hold different
    content, two by two; every member it removed is bound to the inode of
    exactly one of them; and every name of the class leads to the content
    it led to before. *)
Theorem combine_leaves_a_partition :
  kept `sublist_of` list /\
  (forall s1 s2, s1 ∈ kept -> s2 ∈ kept -> s1 <> s2 ->
     content (w_fs w') (i_name s1) <> content (w_fs w') (i_name s2)) /\
  (forall m, m ∈ list -> m ∉ kept ->
     exists s, s ∈ kept /\
       is_Some (fs_names (w_fs w') !! i_name m) /\
       fs_names (w_fs w') !! i_name m = fs_names (w_fs w') !! i_name s /\
       forall s', s' ∈ kept ->
         fs_names (w_fs w') !! i_name s' = fs_names (w_fs w') !! i_name m -> s' = s) /\
  (forall m, m ∈ list -> content (w_fs w') (i_name m) = content (w_fs w) (i_name m)).
Proof.
  destruct combine_tidy as (Q1 & Q2 & Q3 & Q4 & Q6).
  destruct tidy_class as (Hnames & Hinos & Hsolo & _).
  rewrite Forall_forall in Hsolo.
  assert (forall s, s ∈ kept -> content (w_fs w') (i_name s) = file_of (w_fs w) (i_ino s))
    as Hcontent by (intros s Hs; unfold content; rewrite (Q2 s Hs); apply Q6).
  split_and!.
  - exact Q1.
  - intros s1 s2 H1 H2 Hne. rewrite !Hcontent by assumption. apply Q3; assumption.
  - intros m Hm _. destruct (Q4 m Hm) as (s & Hs & Hname & _).
    exists s. split_and!; [exact Hs | rewrite Hname; eauto | rewrite (Q2 s Hs); exact Hname |].
    intros s' Hs' Heq. rewrite (Q2 s' Hs'), Hname in Heq. injection Heq as Heq.
    apply (NoDup_fmap_eq i_ino list s' s Hinos); auto; eapply elem_of_sublist; eauto.
  - intros m Hm. destruct (Q4 m Hm) as (s & Hs & Hname & Hfile).
    unfold content. rewrite Hname, Q6, <- Hfile.
    destruct (Hsolo m Hm) as (-> & _). reflexivity.
Qed.

(** After the run the class, read again, has nothing left to link. *)
Lemma reread_settled : settled (w_fs w') (reread (w_fs w') list).
Proof.
  destruct combine_tidy as (Q1 & Q2 & Q3 & Q4 & Q6).
  destruct tidy_class as (Hnames & Hinos & Hsolo & _).
  rewrite Forall_forall in Hsolo.
  assert (forall m', m' ∈ reread (w_fs w') list ->
            exists s, s ∈ kept /\ i_ino m' = i_ino s /\
                      fs_names (w_fs w') !! i_name m' = Some (i_ino s)) as Hre.
  { intros m' (m & -> & Hm)%list_elem_of_fmap_1. cbn [i_name i_ino].
    destruct (Q4 m Hm) as (s & Hs & Hname & _). exists s. rewrite Hname. auto. }
  split.
  - apply Forall_forall. intros m' Hm'. destruct (Hre m' Hm') as (s & Hs & Hi & Hn).
    split; [congruence|]. rewrite Hi, Q6.
    destruct (Hsolo s (elem_of_sublist _ _ _ Hs Q1)) as (_ & nd & Hnd & Hk & _).
    exists (n_data nd). unfold file_of. rewrite Hnd. cbn. rewrite Hk. reflexivity.
  - intros x y Hx Hy Hne.
    destruct (Hre x Hx) as (sx & Hsx & Hix & _), (Hre y Hy) as (sy & Hsy & Hiy & _).
    rewrite Hix, Hiy, !Q6. apply Q3; auto. congruence.
Qed.

(** C5, as the code has it.  Two names with the same inode number make
    [replace] return 1 without a call of the system.  After the run of
    [combine] on a class as in C4, every name of the class read again
    carries the inode number of a member that was never removed, and
    [combine] on the class read again leaves the file system alone and
    attempts no [rename], [link] or [unlink]. *)
Theorem second_run_links_nothing :
  let again := reread (w_fs w') list in
  (forall a b w0,
     i_ino a = i_ino b ->
     fst (replace sys opt a b w0) = 1 /\
     w_fs (snd (replace sys opt a b w0)) = w_fs w0 /\
     w_calls (snd (replace sys opt a b w0)) = w_calls w0) /\
  Forall (fun m => exists s, s ∈ kept /\ i_ino m = i_ino s) again /\
  w_fs (snd (combine sys opt again w')) = w_fs w' /\
  mutations (w_out (snd (combine sys opt again w'))) = mutations (w_out w').
Proof.
  intros again. split_and!.
  - intros a b w0 Hi. destruct (replace_already_linked a b w0 Hi) as (? & ? & ? & _). auto.
  - destruct combine_tidy as (_ & _ & _ & Q4 & _).
    apply Forall_forall. intros m' (m & -> & Hm)%list_elem_of_fmap_1. cbn [i_ino].
    destruct (Q4 m Hm) as (s & Hs & Hname & _). exists s. rewrite Hname. auto.
  - apply (combine_settled calm_sys buffer), reread_settled.
  - apply (combine_settled calm_sys buffer), reread_settled.
Qed.

End Partition.

(** ** What the calls leave alone *)

Lemma fs_rename_other (old new p : string) (fs fs' : FS) :
  fs_rename old new fs = Some fs' -> p <> old -> p <> new ->
  fs_names fs' !! p = fs_names fs !! p.
Proof.
  unfold fs_rename. destruct (fs_names fs !! old); [|discriminate].
  destruct (fs_names fs !! new); [case_decide|]; intros [= <-] Ho Hn;
    try reflexivity; cbn [fs_names]; rewrite lookup_insert_ne, lookup_delete_ne; auto.
Qed.

Lemma fs_link_other (existing new p : string) (fs fs' : FS) :
  fs_link existing new fs = Some fs' -> p <> new ->
  fs_names fs' !! p = fs_names fs !! p.
Proof.
  intros H Hp. destruct (fs_link_names _ _ _ _ H) as (i & _ & _ & -> & _).
  apply lookup_insert_ne. auto.
Qed.

Lemma fs_unlink_other (path p : string) (fs fs' : FS) :
  fs_unlink path fs = Some fs' -> p <> path ->
  fs_names fs' !! p = fs_names fs !! p.
Proof.
  intros H Hp. destruct (fs_unlink_names _ _ _ H) as (i & _ & -> & _).
  apply lookup_delete_ne. auto.
Qed.

(** Split on whether [nice] is called. *)
Ltac nice_or_not :=
  repeat match goal with
  | |- context [if ?c then [Nice _] else []] => destruct c; simpl
  end.

(** Name the calls that went through on the path at hand. *)
Ltac went :=
  repeat match goal with
  | E : (if fault _ _ _ then None else _) = Some _ |- _ => apply attempt_some in E
  end.

(** A swap changes no binding but those of [to] and of the save file. *)
Lemma replace2_other (from to p : string) (w : World) :
  p <> to -> p <> newname_of sys to (time sys (w_calls w)) ->
  fs_names (w_fs (snd (replace2 sys opt from to w))) !! p = fs_names (w_fs w) !! p.
Proof.
  intros Hto Hnew. unfold replace2. destruct w as [fs n out nice uid].
  cbn [w_calls w_fs] in Hnew.
  destruct (noexec opt), (debug opt), (verbose opt); norm; outcomes; went;
    try reflexivity;
    repeat match goal with
    | H : fs_rename _ _ _ = Some ?f |- context [fs_names ?f !! _] =>
        rewrite (fs_rename_other _ _ p _ _ H) by auto
    | H : fs_link _ _ _ = Some ?f |- context [fs_names ?f !! _] =>
        rewrite (fs_link_other _ _ p _ _ H) by auto
    | H : fs_unlink _ _ = Some ?f |- context [fs_names ?f !! _] =>
        rewrite (fs_unlink_other _ p _ _ H) by auto
    end; reflexivity.
Qed.

(** Nor what any inode holds. *)
Lemma replace2_file_of (from to : string) (w : World) (ino : Z) :
  file_of (w_fs (snd (replace2 sys opt from to w))) ino = file_of (w_fs w) ino.
Proof.
  unfold replace2. destruct w as [fs n out nice uid].
  destruct (noexec opt), (debug opt), (verbose opt); norm; outcomes; went;
    try reflexivity;
    repeat match goal with
    | H : fs_rename _ _ _ = Some ?f |- context [file_of ?f _] =>
        rewrite (fs_rename_file_of _ _ _ _ ino H)
    | H : fs_link _ _ _ = Some ?f |- context [file_of ?f _] =>
        rewrite (fs_link_file_of _ _ _ _ ino H)
    | H : fs_unlink _ _ = Some ?f |- context [file_of ?f _] =>
        rewrite (fs_unlink_file_of _ _ _ ino H)
    end; reflexivity.
Qed.

(** The priority after a swap, on every path through [replace2]. *)
Lemma replace2_niceness (from to : string) (w : World) :
  niceness (snd (replace2 sys opt from to w)) =
    if noexec opt then niceness w
    else if (if our_uid w =? NO_UID then geteuid sys else our_uid w) =? 0 then 0
         else niceness w.
Proof.
  unfold replace2. destruct w as [fs n out nice uid].
  destruct (noexec opt), (debug opt), (verbose opt); norm; outcomes;
    try reflexivity;
    destruct (if uid =? NO_UID then geteuid sys else uid) eqn:U; reflexivity.
Qed.

Lemma Forall_part {A} (R : A -> Prop) (l k : list A) :
  k `sublist_of` l -> Forall R l -> Forall R k.
Proof.
  rewrite !Forall_forall. intros Hs H x Hx. apply H. eapply elem_of_sublist; eauto.
Qed.

(** ** What a run keeps *)

Section Along.

(* what is kept, and the names a swap may be given *)
Variable P : World -> Prop.
Variable Q : string -> Prop.

Hypothesis P_stdout : forall s, along P (emit (Stdout s)).
Hypothesis P_stderr : forall s, along P (emit (Stderr s)).
Hypothesis P_error : forall b s, along P (emit (Error b s)).
Hypothesis P_logged :
  forall c ok w, is_mutating c = false -> P w -> P (logged c ok (w_fs w) w).
Hypothesis P_replace2 :
  forall from to, Q from -> Q to -> along P (replace2 sys opt from to).

Lemma along_ret {A} (a : A) : along P (ret a).
Proof. intros w H. exact H. Qed.

Lemma along_bind {A B} (m : M A) (k : A -> M B) :
  along P m -> (forall a, along P (k a)) -> along P (bind m k).
Proof. intros Hm Hk w H. rewrite bind_run. apply Hk, Hm, H. Qed.

Lemma along_when (b : bool) (m : M unit) : along P m -> along P (when b m).
Proof. destruct b; [trivial | intros _; apply along_ret]. Qed.

Lemma along_printf (s : string) : along P (printf s).
Proof. apply P_stdout. Qed.

Lemma along_puts (s : string) : along P (puts s).
Proof. apply P_stdout. Qed.

Lemma along_error (b : bool) (s : string) : along P (error b s).
Proof. apply P_error. Qed.

Lemma along_query {A} (c : Syscall) (f : FS -> option A) :
  is_mutating c = false -> along P (query sys c f).
Proof.
  intros Hc w H. unfold query. destruct (attempt sys c f w); apply P_logged; auto.
Qed.

Lemma along_lstat (path : string) : along P (lstat sys path).
Proof. apply along_query. reflexivity. Qed.

Lemma along_stat (path : string) : along P (stat sys path).
Proof. apply along_query. reflexivity. Qed.

Lemma along_open (path : string) : along P (open sys path).
Proof. apply along_query. reflexivity. Qed.

Lemma along_opendir (path : string) : along P (opendir sys path).
Proof. apply along_query. reflexivity. Qed.

Create HintDb along.
#[local] Hint Resolve along_ret along_printf along_puts along_error along_when
  along_lstat along_stat along_open along_opendir P_stderr : along.

Ltac along_step :=
  repeat first
    [ solve [auto with along]
    | match goal with
      | |- along _ (bind _ _) => apply along_bind; [| intros ?]
      | |- along _ (if ?b then _ else _) => destruct b
      | |- along _ (match ?x with _ => _ end) => destruct x
      end ].

Lemma along_compare (file1 file2 : string) : along P (compare sys file1 file2).
Proof. unfold compare. along_step. Qed.

Lemma along_replace (a b : Info) :
  Q (i_name a) -> Q (i_name b) -> along P (replace sys opt a b).
Proof.
  intros Ha Hb. pose proof (along_compare (i_name a) (i_name b)).
  pose proof (P_replace2 _ _ Ha Hb). pose proof (P_replace2 _ _ Hb Ha).
  unfold replace. along_step.
Qed.

Lemma along_comb2 (elem : Info) (ilist : Infos) :
  Q (i_name elem) -> Forall (fun m => Q (i_name m)) ilist ->
  along P (comb2 sys opt elem ilist).
Proof.
  intros He Hl. induction Hl as [|b x Hb Hx IH]; cbn [comb2]; [apply along_ret|].
  pose proof (along_replace elem b He Hb). along_step.
Qed.

Lemma along_combine_while (fuel : nat) (list : Infos) :
  Forall (fun m => Q (i_name m)) list -> along P (combine_while sys opt fuel list).
Proof.
  revert list. induction fuel as [|fuel IH]; intros [|elem [|b x]] Hl;
    cbn [combine_while]; try apply along_ret.
  apply Forall_cons in Hl as [He Hl]. intros w H. rewrite bind_run.
  apply IH; [|apply along_comb2; assumption].
  eapply Forall_part; [apply comb2_sublist | exact Hl].
Qed.

Lemma along_combine (list : Infos) :
  Forall (fun m => Q (i_name m)) list -> along P (combine sys opt list).
Proof.
  intros Hl. unfold combine.
  pose proof (along_combine_while (length list) list Hl). along_step.
Qed.

Lemma along_main_while (list : Heads) :
  Forall (fun h => Forall (fun m => Q (i_name m)) (h_info h)) list ->
  along P (main_while sys opt list).
Proof.
  intros Hl. induction Hl as [|h rest Hh Hrest IH]; cbn [main_while];
    [apply along_ret|].
  pose proof (along_combine (h_info h) Hh). along_step.
Qed.

Lemma along_assoc_for (hp : Head) (list : Heads) : along P (assoc_for opt hp list).
Proof.
  induction list as [|listp rest IH]; cbn [assoc_for]; [apply along_ret|].
  along_step.
Qed.

Lemma along_assoc (hp : Head) (list : Heads) : along P (assoc opt hp list).
Proof. unfold assoc. pose proof (along_assoc_for hp list). along_step. Qed.

Lemma along_newinfo (filename directory : string) :
  along P (newinfo sys opt filename directory).
Proof. unfold newinfo, fill. along_step. Qed.

Lemma along_enter (filename directory : string) (list : Heads) :
  along P (enter sys opt filename directory list).
Proof.
  unfold enter. pose proof (along_newinfo filename directory).
  pose proof along_assoc. along_step.
Qed.

Lemma along_enterdir (depth : nat) (dirname : string) (list : Heads) :
  along P (enterdir sys opt depth dirname list).
Proof.
  revert dirname list.
  induction depth as [|depth IH]; intros dirname list; cbn [enterdir];
    (apply along_bind; [auto with along | intros _]);
    (apply along_bind; [apply along_opendir | intros [entries|]]);
    try (apply along_bind; [auto with along | intros _; apply along_ret]).
  - revert list. induction entries as [|d_name more IHm]; intros list;
      [apply along_ret|].
    destruct (_ || _); [apply IHm|].
    apply along_bind; [apply along_enter | intros r].
    destruct (_ && _); apply IHm.
  - revert list. induction entries as [|d_name more IHm]; intros list;
      [apply along_ret|].
    destruct (_ || _); [apply IHm|].
    apply along_bind; [apply along_enter | intros r].
    destruct (_ && _); [|apply IHm].
    apply along_bind; [apply IH | intros list'; apply IHm].
Qed.

Lemma along_associate_for (depth : nat) (argv : list string) (list : Heads) :
  along P (associate_for sys opt depth argv list).
Proof.
  revert list. induction argv as [|arg rest IH]; intros list;
    cbn [associate_for]; [apply along_ret|].
  apply along_bind; [apply along_enter | intros r].
  destruct (_ =? _); [|apply IH].
  apply along_bind; [apply along_enterdir | intros list'; apply IH].
Qed.

Lemma along_associate (depth : nat) (argv : list string) :
  along P (associate sys opt depth argv).
Proof.
  unfold associate. pose proof (along_associate_for depth argv []). along_step.
Qed.

Lemma along_assocfromfile_while (depth fuel : nat) (filename : string) (lineno : Z)
    (infile : list byte) (list : Heads) :
  along P (assocfromfile_while sys opt depth fuel filename lineno infile list).
Proof.
  revert lineno infile list.
  induction fuel as [|fuel IH]; intros lineno infile list; cbn [assocfromfile_while];
    destruct (fgets 256 infile) as [[buf infile']|]; try apply along_ret;
    destruct (strchr buf x0a); try apply along_ret;
    try solve [unfold fatal; along_step].
  apply along_bind; [apply along_enter | intros r].
  apply along_bind; [|intros list'; apply IH].
  destruct (_ =? _); [apply along_enterdir | apply along_ret].
Qed.

Lemma along_assocfromfile (depth : nat) (stdin : list byte) (filename : string) :
  along P (assocfromfile sys opt depth stdin filename).
Proof.
  unfold assocfromfile, fatal. pose proof along_assocfromfile_while.
  along_step.
Qed.

(** The names a whole run hands to [replace2] are those it has found. *)
Hypothesis any_name : forall s, Q s.

Lemma any_class (list : Heads) :
  Forall (fun h => Forall (fun m => Q (i_name m)) (h_info h)) list.
Proof. apply Forall_forall. intros h _. apply Forall_forall. intros m _. apply any_name. Qed.

Lemma along_main (depth : nat) (argv : list string) :
  along P (main sys opt depth argv).
Proof.
  unfold main.
  apply along_bind; [destruct argv; apply along_associate | intros list].
  apply along_bind; [apply along_main_while, any_class | intros _; apply along_ret].
Qed.

End Along.

(** ** Names a class does not have *)

Lemma newname_length (to : string) (clock : Z) :
  String.length (newname_of sys to clock) = (String.length to + 8)%nat.
Proof. unfold newname_of. rewrite !length_append. reflexivity. Qed.

(** X1.  [combine] on a class changes the binding of no name but those of
    the members of the class and of their save files, whatever calls
    fail: a name that is neither keeps the inode it had. *)
Theorem combine_leaves_other_names (list : Infos) (w : World) (p : string) :
  p ∉ (i_name <$> list) ->
  (forall m n, m ∈ list -> p <> newname_of sys (i_name m) (time sys n)) ->
  fs_names (w_fs (snd (combine sys opt list w))) !! p = fs_names (w_fs w) !! p.
Proof.
  intros Hp Hsave.
  apply (along_combine
           (fun w' => fs_names (w_fs w') !! p = fs_names (w_fs w) !! p)
           (fun s => p <> s /\ forall n, p <> newname_of sys s (time sys n))).
  - intros s w' H. exact H.
  - intros s w' H. exact H.
  - intros c ok w' _ H. exact H.
  - intros from to _ [Hto Hnew] w' H. rewrite replace2_other; auto.
  - apply Forall_forall. intros m Hm. split; [|intros n; apply Hsave, Hm].
    intros ->. apply Hp. apply list_elem_of_fmap_2, Hm.
  - reflexivity.
Qed.

(** ** A save name that is in use *)

Section Unhindered.

Hypothesis no_fault : forall n c, fault sys n c = false.
Hypothesis real_run : noexec opt = false.

(** The three calls of a swap when the save name is bound to another
    file. *)
Lemma fs_swap_over (fs : FS) (from to newname : string) (i j k : Z) :
  fs_names fs !! to = Some i -> fs_names fs !! from = Some j ->
  fs_names fs !! newname = Some k ->
  from <> to -> from <> newname -> k <> i ->
  exists fs1 fs2 fs4,
    fs_rename to newname fs = Some fs1 /\ fs_link from to fs1 = Some fs2 /\
    fs_unlink newname fs2 = Some fs4 /\
    fs_names fs4 = <[to := j]> (delete newname (fs_names fs)) /\
    fs_inodes fs4 =
      alter (nlink_add (-1)) i
        (alter (nlink_add 1) j (alter (nlink_add (-1)) k (fs_inodes fs))).
Proof.
  intros Hto Hfrom Hnew Hft Hfn Hki.
  assert (newname <> to) as Hnt by congruence.
  eexists _, _, _. split_and!.
  - unfold fs_rename. rewrite Hto, Hnew. rewrite decide_False by auto. reflexivity.
  - unfold fs_link. cbn [fs_names].
    rewrite lookup_insert_ne, lookup_delete_ne, Hfrom by auto.
    rewrite lookup_insert_ne, lookup_delete_eq by auto. reflexivity.
  - unfold fs_unlink. cbn [fs_names].
    rewrite lookup_insert_ne, lookup_insert_eq by auto. reflexivity.
  - cbn [fs_names]. apply map_eq. intros p.
    destruct (decide (p = newname)) as [->|Hp].
    + rewrite lookup_delete_eq, lookup_insert_ne, lookup_delete_eq; auto.
    + rewrite lookup_delete_ne by auto. destruct (decide (p = to)) as [->|Hp'].
      * rewrite !lookup_insert_eq. reflexivity.
      * rewrite !lookup_insert_ne, !lookup_delete_ne by auto. reflexivity.
  - reflexivity.
Qed.

(** X2.  [replace2] does not look whether the name it makes up for the
    save file is free.  When no call fails and that name is bound to
    another regular file, the swap goes through and returns 1, with
    nothing on stderr: [to] is bound to the inode of [from], and the
    save name is gone, so that the file that had it has lost that name
    and one link. *)
Theorem save_name_in_use_is_removed (from to : string) (w : World) (i j k : Z) :
  let newname := newname_of sys to (time sys (w_calls w)) in
  let done := replace2 sys opt from to w in
  fs_names (w_fs w) !! to = Some i -> fs_names (w_fs w) !! from = Some j ->
  fs_names (w_fs w) !! newname = Some k ->
  from <> to -> from <> newname -> k <> i ->
  (forall ino, ino ∈ [i; j; k] -> exists data, file_of (w_fs w) ino = Some (S_IFREG, data)) ->
  fst done = 1 /\
  fs_names (w_fs (snd done)) = <[to := j]> (delete newname (fs_names (w_fs w))) /\
  fs_inodes (w_fs (snd done)) =
    alter (nlink_add (-1)) i
      (alter (nlink_add 1) j (alter (nlink_add (-1)) k (fs_inodes (w_fs w)))) /\
  reports (w_out (snd done)) = reports (w_out w).
Proof.
  intros newname done Hto Hfrom Hnew Hft Hfn Hki _. subst done newname.
  destruct (fs_swap_over (w_fs w) from to _ i j k Hto Hfrom Hnew Hft Hfn Hki)
    as (fs1 & fs2 & fs4 & H1 & H2 & H4 & Hn & Hi).
  unfold replace2. rewrite real_run. destruct w as [fs n out nice uid].
  cbn [w_fs w_calls w_out] in *.
  destruct (debug opt), (verbose opt); norm; rewrite ?no_fault, H1; simpl;
    rewrite ?no_fault, H2; simpl; rewrite ?no_fault, H4; simpl; nice_or_not;
    observe; auto.
Qed.

End Unhindered.

(** ** A save file that cannot be removed *)

(** X3.  When the save file cannot be removed after the link has been
    made, [replace2] says so on stderr and still returns 1.  The file
    system is as the link left it: when the save name was free, [to] is
    bound to the inode of [from] and the save file to the inode [to] had. *)
Theorem stray_save_file_is_reported (from to : string) (w : World) :
  let newname := newname_of sys to (time sys (w_calls w)) in
  let w1 := snd (rename sys to newname w) in
  let w2 := snd (link sys from to w1) in
  let done := replace2 sys opt from to w in
  noexec opt = false ->
  fst (rename sys to newname w) = 0 -> fst (link sys from to w1) = 0 ->
  fst (unlink sys newname w2) = -1 ->
  fst done = 1 /\
  w_fs (snd done) = w_fs w2 /\
  reports (w_out (snd done)) =
    reports (w_out w) ++ [Error true ("cannot remove temporary file " +:+ newname)] /\
  (fs_names (w_fs w) !! newname = None -> from <> newname ->
   fs_names (w_fs (snd done)) !! to = fs_names (w_fs w) !! from /\
   fs_names (w_fs (snd done)) !! newname = fs_names (w_fs w) !! to /\
   is_Some (fs_names (w_fs w) !! from) /\ is_Some (fs_names (w_fs w) !! to)).
Proof.
  intros newname w1 w2 done Hn. subst done w2 w1 newname.
  pose proof (newname_fresh to (time sys (w_calls w))) as Hother.
  unfold replace2. rewrite Hn. destruct w as [fs n out nice uid].
  cbn [w_fs w_calls w_out] in *.
  destruct (debug opt), (verbose opt); norm; outcomes; went;
    intros; try discriminate; observe; split_and!; auto;
    intros Hfree Hfn;
    match goal with
    | H1 : fs_rename _ _ _ = Some ?f1, H2 : fs_link _ _ ?f1 = Some _ |- _ =>
        destruct (fs_rename_fresh _ _ _ _ Hfree H1) as (i & Hto & Hn1 & _);
        destruct (fs_link_names _ _ _ _ H2) as (j & Hfrom & Hgone & Hn2 & _)
    end;
    assert (from <> to) as Hft by congruence;
    rewrite Hn1, lookup_insert_ne, lookup_delete_ne in Hfrom by congruence;
    rewrite Hn2, Hto, Hfrom, lookup_insert_eq, lookup_insert_ne, Hn1, lookup_insert_eq
      by congruence;
    eauto.
Qed.

(** ** What is entered *)

Lemma fs_resolve_direct (hops : nat) (fs : FS) (path : string) (ino : Z) (nd : Inode) :
  fs_lookup fs path = Some (ino, nd) -> (forall t, n_kind nd <> S_IFLNK t) ->
  fs_resolve hops fs path = Some (ino, nd).
Proof.
  intros Hl Hk. destruct hops; cbn [fs_resolve]; rewrite Hl;
    destruct (n_kind nd) eqn:K; try reflexivity; exfalso; eapply Hk; eauto.
Qed.

Lemma fs_lookup_names (fs : FS) (path : string) (ino : Z) (nd : Inode) :
  fs_lookup fs path = Some (ino, nd) -> fs_names fs !! path = Some ino.
Proof.
  unfold fs_lookup. destruct (fs_names fs !! path); [|discriminate].
  destruct (fs_inodes fs !! _); [|discriminate]. congruence.
Qed.

Lemma query_some {A} (c : Syscall) (f : FS -> option A) (w : World) (a : A) :
  fst (query sys c f w) = Some a -> f (w_fs w) = Some a.
Proof.
  unfold query, attempt. destruct (fault sys (w_calls w) c); [discriminate|].
  destruct (f (w_fs w)); [trivial | discriminate].
Qed.

Lemma query_fs {A} (c : Syscall) (f : FS -> option A) (w : World) :
  w_fs (snd (query sys c f w)) = w_fs w.
Proof. unfold query. destruct (attempt sys c f w); reflexivity. Qed.

(** The header [newinfo] fills in. *)
Lemma fill_spec (cp : string) (fs : FS) (ino : Z) (nd : Inode) (w : World) :
  match fst (fill opt cp (stat_of fs ino nd) w) with
  | inr head =>
      head = {| h_info := [ {| i_name := cp; i_dir := None; i_ino := ino |} ];
                h_size := Z.of_nat (length (n_data nd)); h_dev := fs_dev fs;
                h_uid := n_uid nd; h_gid := n_gid nd; h_perms := n_perms nd |} /\
      (ignore_empty opt = true -> n_data nd <> [])
  | inl code => code = NOSUCHFILE
  end.
Proof.
  unfold fill. cbn [stat_of st_size st_ino st_dev st_uid st_gid st_perms].
  destruct (ignore_empty opt) eqn:Z; cbn [andb].
  - destruct (_ =? 0) eqn:E; cbn [ret fst]; [reflexivity|].
    split; [reflexivity|]. intros _ D. rewrite D in E. discriminate.
  - cbn [ret fst]. split; [reflexivity | discriminate].
Qed.

(** What [newinfo] returns, read off the file system. *)
Lemma newinfo_spec (filename directory : string) (w : World) :
  let cp := mkpath directory filename in
  match fst (newinfo sys opt filename directory w) with
  | inr head =>
      exists ino nd,
        fs_resolve SYMLOOP_MAX (w_fs w) cp = Some (ino, nd) /\
        n_kind nd = S_IFREG /\
        head = {| h_info := [ {| i_name := cp; i_dir := None; i_ino := ino |} ];
                  h_size := Z.of_nat (length (n_data nd)); h_dev := fs_dev (w_fs w);
                  h_uid := n_uid nd; h_gid := n_gid nd; h_perms := n_perms nd |} /\
        (ignore_empty opt = true -> n_data nd <> []) /\
        (symbolic opt = false -> fs_lookup (w_fs w) cp = Some (ino, nd))
  | inl code =>
      code = NOSUCHFILE \/
      (code = ISDIR /\
       exists ino nd entries,
         fs_resolve SYMLOOP_MAX (w_fs w) cp = Some (ino, nd) /\
         n_kind nd = S_IFDIR entries /\
         (symbolic opt = false -> fs_lookup (w_fs w) cp = Some (ino, nd)))
  end.
Proof.
  intros cp. unfold newinfo. fold cp. rewrite bind_run.
  set (w1 := snd (when (debug opt) _ w)).
  assert (w_fs w1 = w_fs w) as <- by (apply quiet_when, quiet_printf).
  rewrite bind_run.
  destruct (fst (lstat sys cp w1)) as [stbuf|] eqn:L; [|left; reflexivity].
  apply query_some in L. unfold fs_lstat in L.
  destruct (fs_lookup (w_fs w1) cp) as [[ino nd]|] eqn:Lk; [|discriminate].
  injection L as <-. cbn [st_kind stat_of].
  destruct (n_kind nd) as [|entries|target|] eqn:K.
  - pose proof (fill_spec cp (w_fs w1) ino nd (snd (lstat sys cp w1))) as F.
    destruct (fst (fill _ _ _ _)) as [code|head]; [left; exact F|].
    destruct F as [-> Hz]. exists ino, nd. split_and!; auto.
    apply fs_resolve_direct; [exact Lk | congruence].
  - right. split; [reflexivity|]. exists ino, nd, entries. split_and!; auto.
    apply fs_resolve_direct; [exact Lk | congruence].
  - destruct (symbolic opt) eqn:Sy; cbn [negb]; [|left; reflexivity].
    rewrite bind_run.
    destruct (fst (stat sys cp _)) as [stbuf'|] eqn:St; [|left; reflexivity].
    apply query_some in St. unfold lstat in St. rewrite query_fs in St.
    unfold fs_stat in St.
    destruct (fs_resolve SYMLOOP_MAX (w_fs w1) cp) as [[ino' nd']|] eqn:R;
      [|discriminate].
    injection St as <-. cbn [st_kind stat_of].
    destruct (n_kind nd') as [|entries| |] eqn:K'; try (left; reflexivity).
    + pose proof (fill_spec cp (w_fs w1) ino' nd'
                    (snd (stat sys cp (snd (lstat sys cp w1))))) as F.
      destruct (fst (fill _ _ _ _)) as [code|head]; [left; exact F|].
      destruct F as [-> Hz]. exists ino', nd'. split_and!; auto. discriminate.
    + right. split; [reflexivity|]. exists ino', nd', entries.
      split_and!; auto. discriminate.
  - left. reflexivity.
Qed.

(** ** The classes [associate] builds *)

Lemma yields_ret {A} (fs : FS) (R : A -> Prop) (a : A) : R a -> yields fs R (ret a).
Proof. intros H w Hw. auto. Qed.

Lemma yields_bind {A B} (fs : FS) (R : A -> Prop) (R' : B -> Prop)
    (m : M A) (k : A -> M B) :
  yields fs R m -> (forall a, R a -> yields fs R' (k a)) -> yields fs R' (bind m k).
Proof.
  intros Hm Hk w Hw. rewrite bind_run. destruct (Hm w Hw) as [Ha Hw'].
  apply Hk; assumption.
Qed.

Lemma yields_quiet {A} (fs : FS) (m : M A) : quiet m -> yields fs (fun _ => True) m.
Proof. intros Hq w Hw. split; [trivial|]. rewrite <- Hw. apply Hq. Qed.

(** The key of a class is all that [keyed] asks of it. *)
Lemma keyed_key (fs : FS) (c c' : Head) (m : Info) :
  h_size c' = h_size c -> h_dev c' = h_dev c -> h_uid c' = h_uid c ->
  h_gid c' = h_gid c -> h_perms c' = h_perms c ->
  keyed opt fs c m -> keyed opt fs c' m.
Proof.
  intros Hs Hd Hu Hg Hp (nd & H). exists nd. rewrite Hs, Hd, Hu, Hg, Hp. exact H.
Qed.

(** A file that fits a class has its key. *)
Lemma keyed_fits (fs : FS) (hp c : Head) (m : Info) :
  fits opt hp c = true -> keyed opt fs hp m -> keyed opt fs c m.
Proof.
  rewrite fits_spec. intros (Hs & Hd & Hu & Hg & Hp) (nd & H1 & H2 & H3 & H4 & H5 & H6 & H7 & H8 & H9).
  exists nd. rewrite <- Hs, <- Hd. split_and!; auto.
  - intros E. destruct Hu as [Hu|Hu]; [congruence | rewrite <- Hu; auto].
  - intros E. destruct Hg as [Hg|Hg]; [congruence | rewrite <- Hg; auto].
  - intros E. destruct Hp as [Hp|Hp]; [congruence | rewrite <- Hp; auto].
Qed.

Lemma assoc_classed (fs : FS) (hp : Head) (i : Info) (list : Heads) (w : World) :
  h_info hp = [i] -> keyed opt fs hp i -> classed opt fs list ->
  classed opt fs (fst (assoc opt hp list w)).
Proof.
  intros Hi Hk [Hap Hall]. split; [apply assoc_apart, Hap|].
  unfold assoc. rewrite !bind_run.
  destruct (assoc_for_spec hp list (snd (when (debug opt) (puts "assoc") w)))
    as [(l1 & c & l2 & -> & Hl1 & Hc & ->)|[Hno ->]]; cbn [fst ret].
  - apply Forall_app in Hall as [H1 H2]. apply Forall_cons in H2 as [[_ Hcm] H2].
    apply Forall_app. split; [exact H1|]. constructor; [|exact H2].
    unfold insert_info. rewrite Hi. cbn [take app h_info]. split; [discriminate|].
    constructor.
    + apply (keyed_key fs c); try reflexivity. apply (keyed_fits fs hp); assumption.
    + eapply Forall_impl; [exact Hcm|]. cbv beta. intros m.
      apply keyed_key; reflexivity.
  - constructor; [|exact Hall]. cbn [h_info]. rewrite Hi. split; [discriminate|].
    constructor; [|constructor]. revert Hk. apply keyed_key; reflexivity.
Qed.

Lemma enter_classed (fs : FS) (filename directory : string) (list : Heads) :
  classed opt fs list ->
  yields fs (fun r => classed opt fs (snd r)) (enter sys opt filename directory list).
Proof.
  intros Hc w Hw. split; [|rewrite <- Hw; apply quiet_enter].
  unfold enter. rewrite !bind_run.
  set (w1 := snd (when (debug opt) _ w)).
  assert (w_fs w1 = fs) as Hw1 by (rewrite <- Hw; apply quiet_when, quiet_printf).
  pose proof (newinfo_spec filename directory w1) as N. cbv zeta in N.
  destruct (fst (newinfo sys opt filename directory w1)) as [code|head].
  - destruct (code =? NOSUCHFILE); [exact Hc|]. destruct (code =? ISDIR); exact Hc.
  - destruct N as (ino & nd & Hr & Hk & -> & Hz & Hs). rewrite bind_run.
    cbn [ret fst snd]. rewrite Hw1 in *.
    eapply assoc_classed; [reflexivity | | exact Hc].
    exists nd. cbn [i_name i_ino h_size h_dev h_uid h_gid h_perms].
    split_and!; auto. intros Sy. eapply fs_lookup_names; eauto.
Qed.

Lemma enterdir_classed (fs : FS) (depth : nat) (dirname : string) (list : Heads) :
  classed opt fs list ->
  yields fs (classed opt fs) (enterdir sys opt depth dirname list).
Proof.
  revert dirname list.
  induction depth as [|depth IH]; intros dirname list Hc; cbn [enterdir];
    (eapply yields_bind; [apply yields_quiet; auto with quiet | intros _ _]);
    (eapply yields_bind; [apply yields_quiet, quiet_opendir | intros [entries|] _]);
    try (eapply yields_bind; [apply yields_quiet; auto with quiet
                             | intros _ _; apply yields_ret, Hc]).
  - revert list Hc. induction entries as [|d_name more IHm]; intros list Hc;
      [apply yields_ret, Hc|].
    destruct (_ || _); [apply IHm, Hc|].
    eapply yields_bind; [apply enter_classed, Hc | intros r Hr].
    destruct (_ && _); apply IHm, Hr.
  - revert list Hc. induction entries as [|d_name more IHm]; intros list Hc;
      [apply yields_ret, Hc|].
    destruct (_ || _); [apply IHm, Hc|].
    eapply yields_bind; [apply enter_classed, Hc | intros r Hr].
    destruct (_ && _); [|apply IHm, Hr].
    eapply yields_bind; [apply IH, Hr | intros list' Hl; apply IHm, Hl].
Qed.

Lemma associate_for_classed (fs : FS) (depth : nat) (argv : list string) (list : Heads) :
  classed opt fs list ->
  yields fs (classed opt fs) (associate_for sys opt depth argv list).
Proof.
  revert list. induction argv as [|arg rest IH]; intros list Hc;
    cbn [associate_for]; [apply yields_ret, Hc|].
  eapply yields_bind; [apply enter_classed, Hc | intros r Hr].
  destruct (_ =? _); [|apply IH, Hr].
  eapply yields_bind; [apply enterdir_classed, Hr | intros list' Hl; apply IH, Hl].
Qed.

Lemma classed_nil (fs : FS) : classed opt fs [].
Proof. split; [exact I | constructor]. Qed.

Lemma fill_fst (cp : string) (stbuf : Stat) (w w' : World) :
  fst (fill opt cp stbuf w) = fst (fill opt cp stbuf w').
Proof. unfold fill. destruct (_ && _); reflexivity. Qed.

(** When no call fails, what [newinfo] returns is read off the file
    system. *)
Lemma newinfo_calm (filename directory : string) (w : World) :
  (forall n c, fault sys n c = false) ->
  let cp := mkpath directory filename in
  fst (newinfo sys opt filename directory w) =
    match leads_to opt (w_fs w) cp with
    | Some (ino, nd) =>
        match n_kind nd with
        | S_IFREG => fst (fill opt cp (stat_of (w_fs w) ino nd) w)
        | S_IFDIR _ => inl ISDIR
        | _ => inl NOSUCHFILE
        end
    | None => inl NOSUCHFILE
    end.
Proof.
  intros Hcalm cp. unfold newinfo. fold cp. rewrite bind_run.
  set (w1 := snd (when (debug opt) _ w)).
  assert (w_fs w1 = w_fs w) as <- by (apply quiet_when, quiet_printf).
  rewrite bind_run. unfold lstat at 1.
  destruct (query_calm Hcalm (SysLstat cp) (fun fs => fs_lstat fs cp) w1) as [-> _].
  unfold fs_lstat, leads_to.
  destruct (fs_lookup (w_fs w1) cp) as [[ino nd]|]; [|reflexivity].
  cbn [st_kind stat_of]. destruct (n_kind nd) as [|entries|target|] eqn:K;
    rewrite ?K; try reflexivity; [apply fill_fst|].
  destruct (symbolic opt); cbn [negb]; [|reflexivity].
  rewrite bind_run. unfold stat at 1.
  destruct (query_calm Hcalm (SysStat cp) (fun fs => fs_stat fs cp)
              (snd (lstat sys cp w1))) as [-> _].
  unfold lstat. rewrite query_fs. unfold fs_stat.
  destruct (fs_resolve SYMLOOP_MAX (w_fs w1) cp) as [[ino' nd']|]; [|reflexivity].
  cbn [st_kind stat_of]. destruct (n_kind nd') eqn:K'; rewrite ?K'; try reflexivity.
  apply fill_fst.
Qed.

(** X4.  [enter] never writes to stderr and leaves the file system
    alone.  It returns ISDIR for a directory only (or, with -s, a
    symbolic link to one), with the list as it was; otherwise it returns
    NOTDIR, and the list is as it was unless the name leads to a regular
    file, which is then handed to [assoc] under the path [mkpath] makes,
    with the inode number, size, device, owner, group and permissions of
    that file.  When no call fails the result is settled by the file
    system: a regular file (with -s also one a symbolic link leads to)
    is handed to [assoc], unless it is empty and -z is given; a
    directory gives ISDIR; a name that does not exist, a special file,
    a symbolic link without -s or one that leads nowhere is passed
    over. *)
Theorem enter_skips_silently (filename directory : string) (list : Heads) (w : World) :
  let cp := mkpath directory filename in
  let r := enter sys opt filename directory list w in
  reports (w_out (snd r)) = reports (w_out w) /\
  w_fs (snd r) = w_fs w /\
  ((fst r = (ISDIR, list) /\
    exists ino nd entries,
      fs_resolve SYMLOOP_MAX (w_fs w) cp = Some (ino, nd) /\
      n_kind nd = S_IFDIR entries /\
      (symbolic opt = false -> fs_lookup (w_fs w) cp = Some (ino, nd))) \/
   fst r = (NOTDIR, list) \/
   (exists ino nd w',
      fs_resolve SYMLOOP_MAX (w_fs w) cp = Some (ino, nd) /\
      n_kind nd = S_IFREG /\
      (ignore_empty opt = true -> n_data nd <> []) /\
      (symbolic opt = false -> fs_lookup (w_fs w) cp = Some (ino, nd)) /\
      fst r =
        (NOTDIR,
         fst (assoc opt
                {| h_info := [ {| i_name := cp; i_dir := None; i_ino := ino |} ];
                   h_size := Z.of_nat (length (n_data nd)); h_dev := fs_dev (w_fs w);
                   h_uid := n_uid nd; h_gid := n_gid nd; h_perms := n_perms nd |}
                list w')))) /\
  ((forall n c, fault sys n c = false) ->
   exists w',
     fst r =
       match leads_to opt (w_fs w) cp with
       | Some (ino, nd) =>
           match n_kind nd with
           | S_IFREG =>
               if ignore_empty opt && (Z.of_nat (length (n_data nd)) =? 0)
               then (NOTDIR, list)
               else
                 (NOTDIR,
                  fst (assoc opt
                         {| h_info := [ {| i_name := cp; i_dir := None;
                                           i_ino := ino |} ];
                            h_size := Z.of_nat (length (n_data nd));
                            h_dev := fs_dev (w_fs w); h_uid := n_uid nd;
                            h_gid := n_gid nd; h_perms := n_perms nd |}
                         list w'))
           | S_IFDIR _ => (ISDIR, list)
           | _ => (NOTDIR, list)
           end
       | None => (NOTDIR, list)
       end).
Proof.
  intros cp r. subst r. split_and!.
  4: {
    intros Hcalm. unfold enter. rewrite !bind_run.
    set (w1 := snd (when (debug opt) _ w)).
    assert (w_fs w1 = w_fs w) as Hw1 by (apply quiet_when, quiet_printf).
    exists (snd (newinfo sys opt filename directory w1)).
    rewrite (newinfo_calm filename directory w1 Hcalm). fold cp. rewrite Hw1.
    destruct (leads_to opt (w_fs w) cp) as [[ino nd]|]; [|reflexivity].
    destruct (n_kind nd); try reflexivity.
    unfold fill. cbn [stat_of st_size st_ino st_dev st_uid st_gid st_perms].
    destruct (_ && _); [reflexivity|]. cbn [ret fst]. rewrite bind_run. reflexivity. }
  - apply (along_enter (fun w' => reports (w_out w') = reports (w_out w))).
    + intros s w' H. cbn. rewrite reports_app, H. apply app_nil_r.
    + intros c ok w' _ H. cbn. rewrite reports_app, H. apply app_nil_r.
    + reflexivity.
  - apply quiet_enter.
  - unfold enter. rewrite !bind_run.
    set (w1 := snd (when (debug opt) _ w)).
    assert (w_fs w1 = w_fs w) as Hw1 by (apply quiet_when, quiet_printf).
    pose proof (newinfo_spec filename directory w1) as N. cbv zeta in N.
    fold cp in N. rewrite Hw1 in N.
    destruct (fst (newinfo sys opt filename directory w1)) as [code|head].
    + destruct N as [->|[-> N]]; cbn [ret fst]; auto.
    + destruct N as (ino & nd & Hr & Hk & -> & Hz & Hs). rewrite bind_run.
      cbn [ret fst]. right. right. eauto 10.
Qed.

(** X5.  The classes [associate] returns, whatever the arguments and
    whatever calls fail: no class is empty, no class has the key of
    another, and every member of a class is the name of a regular file
    that has the size and the device of the class and, unless the flag
    to ignore it is set, its owner, group and permissions; with -z no
    member is empty, and without -s no member is a symbolic link.  The
    file system is as it was. *)
Theorem associate_builds_keyed_classes (depth : nat) (argv : list string) (w : World) :
  classed opt (w_fs w) (fst (associate sys opt depth argv w)) /\
  w_fs (snd (associate sys opt depth argv w)) = w_fs w.
Proof.
  assert (yields (w_fs w) (classed opt (w_fs w)) (associate sys opt depth argv)) as H.
  { unfold associate.
    eapply yields_bind; [apply yields_quiet; auto with quiet | intros _ _].
    apply associate_for_classed, classed_nil. }
  apply H. reflexivity.
Qed.

(** ** The names a run finds *)

(** [assoc] adds the file it is given to the members and drops none. *)
Lemma assoc_members (T : string -> Prop) (hp : Head) (list : Heads) (w : World) :
  Forall (fun m => T (i_name m)) (h_info hp) -> members T list ->
  members T (fst (assoc opt hp list w)).
Proof.
  intros Hi Hall. unfold assoc. rewrite !bind_run.
  destruct (assoc_for_spec hp list (snd (when (debug opt) (puts "assoc") w)))
    as [(l1 & c & l2 & -> & Hl1 & Hc & ->)|[Hno ->]]; cbn [fst ret].
  - apply Forall_app in Hall as [H1 H2]. apply Forall_cons in H2 as [Hcm H2].
    apply Forall_app. split; [exact H1|]. constructor; [|exact H2].
    unfold insert_info. cbn [h_info]. apply Forall_app. split; [|exact Hcm].
    eapply Forall_part; [apply sublist_take | exact Hi].
  - constructor; [exact Hi | exact Hall].
Qed.

Lemma enter_members (fs : FS) (T : string -> Prop) (filename directory : string)
    (list : Heads) :
  T (mkpath directory filename) -> members T list ->
  yields fs (fun r => members T (snd r)) (enter sys opt filename directory list).
Proof.
  intros Ht Hc w Hw. split; [|rewrite <- Hw; apply quiet_enter].
  unfold enter. rewrite !bind_run.
  set (w1 := snd (when (debug opt) _ w)).
  pose proof (newinfo_spec filename directory w1) as N. cbv zeta in N.
  destruct (fst (newinfo sys opt filename directory w1)) as [code|head].
  - destruct (code =? NOSUCHFILE); [exact Hc|]. destruct (code =? ISDIR); exact Hc.
  - destruct N as (ino & nd & _ & _ & -> & _). rewrite bind_run.
    cbn [ret fst snd]. apply assoc_members; [|exact Hc].
    constructor; [exact Ht | constructor].
Qed.

Lemma yields_opendir (fs : FS) (dirname : string) :
  yields fs (fun r => forall entries, r = Some entries ->
                        fs_opendir fs dirname = Some entries)
    (opendir sys dirname).
Proof.
  intros w Hw. split; [|rewrite <- Hw; apply query_fs].
  intros entries H. apply query_some in H. rewrite <- Hw. exact H.
Qed.

Lemma not_dot (d_name : string) :
  String.eqb d_name "." || String.eqb d_name ".." = false ->
  d_name <> "."%string /\ d_name <> ".."%string.
Proof.
  intros H. apply orb_false_iff in H as [H1 H2].
  split; apply String.eqb_neq; assumption.
Qed.

Lemma enterdir_members (fs : FS) (argv : list string) (depth : nat)
    (dirname : string) (list : Heads) :
  found opt fs argv dirname -> dirname ∈ argv \/ recursive opt = true ->
  members (found opt fs argv) list ->
  yields fs (members (found opt fs argv)) (enterdir sys opt depth dirname list).
Proof.
  revert dirname list.
  assert (forall dirname entries (more : Datatypes.list string),
            found opt fs argv dirname -> dirname ∈ argv \/ recursive opt = true ->
            fs_opendir fs dirname = Some entries ->
            (forall d, d ∈ more -> d ∈ entries) ->
            forall d_name, d_name ∈ more ->
              String.eqb d_name "." || String.eqb d_name ".." = false ->
              found opt fs argv (mkpath dirname d_name)) as Hentry.
  { intros dirname entries more Hd Hr Ho Hsub d_name Hin Hdot.
    apply not_dot in Hdot as [H1 H2]. eapply found_entry; eauto. }
  induction depth as [|depth IH]; intros dirname list Hd Hr Hc; cbn [enterdir];
    (eapply yields_bind; [apply yields_quiet; auto with quiet | intros _ _]);
    (eapply yields_bind; [apply yields_opendir | intros [entries|] Ho]);
    try (eapply yields_bind; [apply yields_quiet; auto with quiet
                             | intros _ _; apply yields_ret, Hc]);
    specialize (Ho entries eq_refl);
    pose proof (Hentry dirname entries) as He;
    match goal with
    | |- yields _ _ (?F ?e ?l0) =>
        assert (forall (more : Datatypes.list string) l,
                  (forall d, d ∈ more -> d ∈ e) ->
                  members (found opt fs argv) l ->
                  yields fs (members (found opt fs argv)) (F more l)) as Hloop;
          [|apply Hloop; auto]
    end.
  - induction more as [|d_name more IHm]; intros l Hsub Hl;
      [apply yields_ret, Hl|].
    assert (forall d, d ∈ more -> d ∈ entries) as Hsub'
      by (intros d Hin; apply Hsub; right; exact Hin).
    destruct (_ || _) eqn:Hdot; [apply IHm; assumption|].
    assert (found opt fs argv (mkpath dirname d_name)) as Hf
      by (eapply (He (d_name :: more)); eauto; left).
    eapply yields_bind; [apply enter_members; [exact Hf | exact Hl] | intros r Hr'].
    destruct (_ && _); apply IHm; assumption.
  - induction more as [|d_name more IHm]; intros l Hsub Hl;
      [apply yields_ret, Hl|].
    assert (forall d, d ∈ more -> d ∈ entries) as Hsub'
      by (intros d Hin; apply Hsub; right; exact Hin).
    destruct (_ || _) eqn:Hdot; [apply IHm; assumption|].
    assert (found opt fs argv (mkpath dirname d_name)) as Hf
      by (eapply (He (d_name :: more)); eauto; left).
    eapply yields_bind; [apply enter_members; [exact Hf | exact Hl] | intros r Hr'].
    destruct (_ && _) eqn:Hrec; [|apply IHm; assumption].
    apply andb_true_iff in Hrec as [_ Hrec].
    eapply yields_bind; [apply IH; auto | intros list' Hl'; apply IHm; assumption].
Qed.

Lemma associate_for_members (fs : FS) (argv : list string) (depth : nat)
    (args : list string) (list : Heads) :
  (forall arg, arg ∈ args -> arg ∈ argv) -> members (found opt fs argv) list ->
  yields fs (members (found opt fs argv)) (associate_for sys opt depth args list).
Proof.
  revert list. induction args as [|arg rest IH]; intros list Hsub Hc;
    cbn [associate_for]; [apply yields_ret, Hc|].
  assert (arg ∈ argv) as Ha by (apply Hsub; left).
  assert (found opt fs argv arg) as Hf by (apply found_arg, Ha).
  assert (forall a, a ∈ rest -> a ∈ argv) as Hsub'
    by (intros a Hin; apply Hsub; right; exact Hin).
  eapply yields_bind;
    [apply enter_members; [exact Hf | exact Hc] | intros r Hr].
  destruct (_ =? _); [|apply IH; [exact Hsub' | exact Hr]].
  eapply yields_bind; [apply enterdir_members; [exact Hf | left; exact Ha | exact Hr]
                      | intros list' Hl; apply IH; assumption].
Qed.

(** X6.  The names a run can change.  Every file [associate] enters is
    a name given as an argument or an entry, other than "." and "..", of
    a directory given as an argument or, with -r, of a directory so
    found; without -r the entries of an entry are not looked at.  [main]
    changes the binding of no name but these and their save files,
    whatever calls fail. *)
Theorem main_changes_only_names_it_found (depth : nat) (argv : list string)
    (w : World) (p : string) :
  let args := match argv with [] => ["."%string] | _ => argv end in
  ~ found opt (w_fs w) args p ->
  (forall s n, found opt (w_fs w) args s -> p <> newname_of sys s (time sys n)) ->
  members (found opt (w_fs w) args) (fst (associate sys opt depth args w)) /\
  fs_names (w_fs (snd (main sys opt depth argv w))) !! p = fs_names (w_fs w) !! p.
Proof.
  intros args Hp Hsave.
  assert (yields (w_fs w) (members (found opt (w_fs w) args))
            (associate sys opt depth args)) as Hy.
  { unfold associate.
    eapply yields_bind; [apply yields_quiet; auto with quiet | intros _ _].
    apply associate_for_members; [auto | constructor]. }
  destruct (Hy w eq_refl) as [Hm Hfs]. split; [exact Hm|].
  assert (main sys opt depth argv w =
          (0, snd (main_while sys opt (fst (associate sys opt depth args w))
                     (snd (associate sys opt depth args w))))) as ->.
  { unfold main. rewrite !bind_run. subst args. destruct argv; reflexivity. }
  cbn [snd]. rewrite <- Hfs.
  apply (along_main_while
           (fun w' => fs_names (w_fs w') !! p =
                      fs_names (w_fs (snd (associate sys opt depth args w))) !! p)
           (fun s => p <> s /\ forall n, p <> newname_of sys s (time sys n))).
  - intros s w' H. exact H.
  - intros s w' H. exact H.
  - intros c ok w' _ H. exact H.
  - intros from to _ [Hto Hnew] w' H. rewrite replace2_other; auto.
  - eapply Forall_impl; [exact Hm|]. cbv beta. intros c Hc.
    eapply Forall_impl; [exact Hc|]. cbv beta. intros m Hf. split.
    + intros ->. apply Hp, Hf.
    + intros n. apply Hsave, Hf.
  - reflexivity.
Qed.

(** ** The list of names read from a file *)

Lemma eqb_other (b c : byte) : b <> c -> Byte.eqb b c = false.
Proof.
  intros H. destruct (Byte.eqb b c) eqn:E; [|reflexivity].
  apply Byte.byte_dec_bl in E. contradiction.
Qed.

Lemma length_bytes (name : string) :
  length (list_byte_of_string name) = String.length name.
Proof.
  unfold list_byte_of_string. rewrite length_map.
  induction name as [|c s IH]; simpl; [reflexivity | rewrite IH; reflexivity].
Qed.

(** [fgets] reads a line that fits. *)
Lemma fgets_into_line (bytes rest : list byte) (room : nat) :
  Forall (fun b => b <> x00 /\ b <> x0a) bytes -> (length bytes < room)%nat ->
  fgets_into room (bytes ++ x0a :: rest) = (bytes ++ [x0a], rest).
Proof.
  intros Hb. revert room. induction Hb as [|b bytes [_ Hn] Hb IH]; intros room Hr.
  - destruct room; [simpl in Hr; lia | reflexivity].
  - destruct room as [|room]; [simpl in Hr; lia|]. cbn [app fgets_into].
    rewrite (eqb_other _ _ Hn), IH by (simpl in Hr; lia). reflexivity.
Qed.

Lemma fgets_line (name : string) (rest : list byte) :
  fits_a_line name -> fgets 256 (line_of name ++ rest) = Some (line_of name, rest).
Proof.
  intros [Hl Hb]. unfold line_of. rewrite <- app_assoc. cbn [app].
  unfold fgets. rewrite fgets_into_line by (rewrite ?length_bytes; simpl; auto; lia).
  destruct (list_byte_of_string name); reflexivity.
Qed.

(** The newline is found at its end. *)
Lemma strchr_line (bytes : list byte) :
  Forall (fun b => b <> x00 /\ b <> x0a) bytes ->
  strchr (bytes ++ [x0a]) x0a = Some (length bytes).
Proof.
  induction 1 as [|b bytes [Hz Hn] Hb IH]; [reflexivity|].
  cbn [app strchr length]. rewrite (eqb_other _ _ Hn), (eqb_other _ _ Hz), IH.
  reflexivity.
Qed.

(** And what is before it is the name. *)
Lemma cstring_name (name : string) :
  Forall (fun b => b <> x00 /\ b <> x0a) (list_byte_of_string name) ->
  cstring (list_byte_of_string name) = name.
Proof.
  unfold list_byte_of_string. induction name as [|c s IH]; [reflexivity|].
  cbn [list_ascii_of_string map cstring]. intros H.
  apply Forall_cons in H as [[Hz _] H].
  rewrite (eqb_other _ _ Hz), ascii_of_byte_of_ascii, IH by exact H. reflexivity.
Qed.

(** One round of the loop of [assocfromfile] on a line that fits. *)
Lemma assocfromfile_while_line (depth fuel : nat) (filename : string) (lineno : Z)
    (name : string) (rest : list byte) (list : Heads) (w : World) :
  fits_a_line name ->
  assocfromfile_while sys opt depth (S fuel) filename lineno (line_of name ++ rest)
    list w =
  let r := enter sys opt name "." list w in
  let d := (if fst (fst r) =? ISDIR then enterdir sys opt depth name (snd (fst r))
            else ret (snd (fst r))) (snd r) in
  assocfromfile_while sys opt depth fuel filename (lineno + 1) rest (fst d) (snd d).
Proof.
  intros Hn. cbn [assocfromfile_while]. rewrite (fgets_line name rest Hn).
  destruct Hn as [Hl Hb]. unfold line_of. rewrite (strchr_line _ Hb).
  rewrite take_app_length, (cstring_name _ Hb), !bind_run. reflexivity.
Qed.

Lemma associate_for_step (depth : nat) (arg : string) (rest : list string)
    (list : Heads) (w : World) :
  associate_for sys opt depth (arg :: rest) list w =
  let r := enter sys opt arg "." list w in
  let d := (if fst (fst r) =? ISDIR then enterdir sys opt depth arg (snd (fst r))
            else ret (snd (fst r))) (snd r) in
  associate_for sys opt depth rest (fst d) (snd d).
Proof.
  cbn [associate_for]. rewrite bind_run. cbv zeta.
  destruct (_ =? _); [rewrite bind_run|]; reflexivity.
Qed.

Lemma listfile_length (names : list string) :
  (length names <= length (listfile names))%nat.
Proof.
  induction names as [|n names IH]; [reflexivity|].
  unfold listfile in *. cbn [flat_map]. rewrite length_app. unfold line_of at 1.
  rewrite length_app. simpl. lia.
Qed.

Lemma assocfromfile_while_names (depth : nat) (filename : string) (names : list string) :
  Forall fits_a_line names ->
  forall fuel lineno list w,
    (length names <= fuel)%nat ->
    assocfromfile_while sys opt depth fuel filename lineno (listfile names) list w =
      (Some (fst (associate_for sys opt depth names list w)),
       snd (associate_for sys opt depth names list w)).
Proof.
  induction 1 as [|name names Hn Hns IH]; intros fuel lineno list w Hf.
  - destruct fuel; reflexivity.
  - destruct fuel as [|fuel]; [simpl in Hf; lia|].
    unfold listfile. cbn [flat_map]. fold (listfile names).
    rewrite (assocfromfile_while_line _ _ _ _ _ _ _ _ Hn), associate_for_step.
    cbv zeta. apply IH. simpl in Hf. lia.
Qed.

(** [fgets] takes what it returns off the stream, one byte at least. *)
Lemma fgets_into_app (room : nat) (stream : list byte) :
  stream = fst (fgets_into room stream) ++ snd (fgets_into room stream).
Proof.
  revert stream. induction room as [|room IH]; intros [|b rest]; try reflexivity.
  cbn [fgets_into]. destruct (Byte.eqb b x0a); [reflexivity|].
  specialize (IH rest). destruct (fgets_into room rest) as [buf rest'].
  cbn [fst snd app] in *. congruence.
Qed.

Lemma fgets_into_some (room : nat) (b : byte) (stream : list byte) :
  fst (fgets_into (S room) (b :: stream)) <> [].
Proof.
  cbn [fgets_into]. destruct (Byte.eqb b x0a); [discriminate|].
  destruct (fgets_into room stream). discriminate.
Qed.

Lemma fgets_shorter (stream buf rest : list byte) :
  fgets 256 stream = Some (buf, rest) -> (length rest < length stream)%nat.
Proof.
  unfold fgets. destruct stream as [|b stream]; [discriminate|].
  change (256 - 1)%nat with (S 254).
  generalize (fgets_into_app (S 254) (b :: stream)) (fgets_into_some 254 b stream).
  destruct (fgets_into (S 254) (b :: stream)) as [buf' rest']. cbn [fst snd].
  intros Happ Hbuf [= <- <-]. rewrite Happ, length_app.
  destruct buf'; [contradiction | simpl; lia].
Qed.

(** So the loop has ended when the fuel for one round per byte is used
    up, and more fuel changes nothing. *)
Lemma assocfromfile_while_fuel (depth n n' : nat) (filename : string) (lineno : Z)
    (infile : list byte) (list : Heads) (w : World) :
  (length infile <= n)%nat -> (length infile <= n')%nat ->
  assocfromfile_while sys opt depth n filename lineno infile list w =
  assocfromfile_while sys opt depth n' filename lineno infile list w.
Proof.
  revert n' lineno infile list w.
  induction n as [|n IH]; intros n' lineno infile list w Hn Hn'.
  - destruct infile; [|simpl in Hn; lia]. destruct n'; reflexivity.
  - destruct n' as [|n'].
    + destruct infile; [|simpl in Hn'; lia]. reflexivity.
    + cbn [assocfromfile_while].
      destruct (fgets 256 infile) as [[buf rest]|] eqn:E; [|reflexivity].
      apply fgets_shorter in E. destruct (strchr buf x0a); [|reflexivity].
      rewrite !bind_run. apply IH; lia.
Qed.

(** X7.  A list file in which every line is a name that fits, ended by
    its newline, is read as if the names were the arguments: after the
    debugging line and the call that opens the file, [assocfromfile]
    returns the list [associate] builds from the names, in the same
    world.  The standard input is read for the file name "-". *)
Theorem list_file_is_read_as_arguments (depth : nat) (names : list string) (w : World) :
  Forall fits_a_line names ->
  (let w1 := snd (when (debug opt) (printf "assocfromfile(-)") w) in
   assocfromfile sys opt depth (listfile names) "-" w =
     (Some (fst (associate_for sys opt depth names [] w1)),
      snd (associate_for sys opt depth names [] w1))) /\
  (forall stdin filename,
     let w1 := snd (when (debug opt)
                      (printf ("assocfromfile(" +:+ filename +:+ ")")) w) in
     let w2 := snd (open sys filename w1) in
     filename <> "-"%string ->
     fst (open sys filename w1) = Some (listfile names) ->
     assocfromfile sys opt depth stdin filename w =
       (Some (fst (associate_for sys opt depth names [] w2)),
        snd (associate_for sys opt depth names [] w2))).
Proof.
  intros Hn. split.
  - intros w1. unfold assocfromfile. rewrite bind_run. cbn [String.eqb Ascii.eqb Bool.eqb].
    apply assocfromfile_while_names; [exact Hn | apply listfile_length].
  - intros stdin filename w1 w2 Hf Ho. unfold assocfromfile. rewrite bind_run.
    apply String.eqb_neq in Hf. rewrite Hf, bind_run. fold w1. rewrite Ho.
    apply assocfromfile_while_names; [exact Hn | apply listfile_length].
Qed.

(** Without a newline in what [fgets] reads, [strchr] finds none. *)
Lemma strchr_no_newline (room : nat) (stream : list byte) :
  Forall (fun b => b <> x0a) (take room stream) ->
  strchr (fst (fgets_into room stream)) x0a = None.
Proof.
  revert stream. induction room as [|room IH]; intros [|b rest] H;
    try reflexivity.
  cbn [take] in H. apply Forall_cons in H as [Hn H]. cbn [fgets_into].
  rewrite (eqb_other _ _ Hn). specialize (IH rest H).
  destruct (fgets_into room rest) as [buf rest']. cbn [fst strchr] in *.
  rewrite (eqb_other _ _ Hn), IH. destruct (Byte.eqb b x00); reflexivity.
Qed.

Lemma assocfromfile_while_tail (depth : nat) (filename : string) (names : list string)
    (tail : list byte) :
  Forall fits_a_line names ->
  tail <> [] -> Forall (fun b => b <> x0a) (take 255 tail) ->
  forall fuel lineno list w,
    (length names <= fuel)%nat ->
    assocfromfile_while sys opt depth fuel filename lineno (listfile names ++ tail)
      list w =
      (None,
       snd (error true
              ("Line " +:+ decimal (lineno + Z.of_nat (length names))
               +:+ " too long in " +:+ dq +:+ filename +:+ dq)
              (snd (associate_for sys opt depth names list w)))).
Proof.
  intros Hnames Htail Hnl.
  induction Hnames as [|name names Hn Hns IH]; intros fuel lineno list w Hf.
  - cbn [listfile flat_map app length associate_for ret snd]. rewrite Z.add_0_r.
    destruct tail as [|b tail]; [contradiction|].
    assert (strchr (fst (fgets_into 255 (b :: tail))) x0a = None) as Hs
      by (apply strchr_no_newline, Hnl).
    destruct fuel; cbn [assocfromfile_while fgets Nat.sub];
      destruct (fgets_into 255 (b :: tail)) as [buf rest]; cbn [fst] in Hs;
      rewrite Hs; unfold fatal; rewrite bind_run; reflexivity.
  - destruct fuel as [|fuel]; [simpl in Hf; lia|].
    unfold listfile. cbn [flat_map]. fold (listfile names). rewrite <- app_assoc.
    rewrite (assocfromfile_while_line _ _ _ _ _ _ _ _ Hn), associate_for_step.
    cbv zeta. rewrite IH by (simpl in Hf; lia).
    cbn [length]. replace (lineno + 1 + Z.of_nat (length names))
      with (lineno + Z.of_nat (S (length names))) by lia.
    reflexivity.
Qed.

(** X8.  A list file whose last line has no newline, or that has a line
    of 255 bytes or more, ends the run: the names on the lines before it
    are entered, then [assocfromfile] reports the line as too long, with
    its number, and the process exits, however short the last line is. *)
Theorem unterminated_line_is_fatal (depth : nat) (names : list string)
    (tail : list byte) (w : World) :
  Forall fits_a_line names ->
  tail <> [] -> Forall (fun b => b <> x0a) (take 255 tail) ->
  let w1 := snd (when (debug opt) (printf "assocfromfile(-)") w) in
  assocfromfile sys opt depth (listfile names ++ tail) "-" w =
    (None,
     snd (error true
            ("Line " +:+ decimal (1 + Z.of_nat (length names))
             +:+ " too long in " +:+ dq +:+ "-" +:+ dq)
            (snd (associate_for sys opt depth names [] w1)))).
Proof.
  intros Hn Ht Hnl w1. unfold assocfromfile. rewrite bind_run.
  cbn [String.eqb Ascii.eqb Bool.eqb].
  apply assocfromfile_while_tail; auto.
  rewrite length_app. pose proof (listfile_length names). lia.
Qed.

(** ** Path names *)

Lemma mkpath_by_opt (dir file : string) :
  mkpath dir file = if mkpath_opt dir file then file else dir +:+ "/" +:+ file.
Proof.
  unfold mkpath, mkpath_opt.
  destruct dir as [|[b0 b1 b2 b3 b4 b5 b6 b7] dir]; [reflexivity|].
  destruct file as [|[c0 c1 c2 c3 c4 c5 c6 c7] file];
    repeat match goal with
    | |- context [if ?b then _ else _] => is_var b; destruct b
    | |- context [match ?s with EmptyString => _ | String _ _ => _ end] =>
        is_var s; destruct s
    end; reflexivity.
Qed.

Lemma append_assoc (s1 s2 s3 : string) : (s1 +:+ s2) +:+ s3 = s1 +:+ s2 +:+ s3.
Proof.
  induction s1 as [|c s1 IH]; [reflexivity|].
  change (String c ((s1 +:+ s2) +:+ s3) = String c (s1 +:+ s2 +:+ s3)).
  rewrite IH. reflexivity.
Qed.

(** X9.  [mkpath] returns the file name as it is when the directory is
    empty or ".", or the file name begins with a slash, and the two
    joined by a slash otherwise.  With its terminating NUL the result
    takes exactly the [size] bytes that were allocated for it, and it
    always ends in the file name. *)
Theorem mkpath_fills_its_allocation (dir file : string) :
  mkpath dir file = (if mkpath_opt dir file then file else dir +:+ "/" +:+ file) /\
  (String.length (mkpath dir file) + 1)%nat = mkpath_size dir file /\
  (exists d, mkpath dir file = d +:+ file) /\
  mkpath "." file = file /\
  (forall rest, mkpath dir (String "/" rest) = String "/" rest).
Proof.
  split_and!.
  - apply mkpath_by_opt.
  - rewrite mkpath_by_opt. unfold mkpath_size.
    destruct (mkpath_opt dir file); rewrite ?length_append; simpl; lia.
  - rewrite mkpath_by_opt. destruct (mkpath_opt dir file).
    + exists EmptyString. reflexivity.
    + exists (dir +:+ "/"). rewrite append_assoc. reflexivity.
  - reflexivity.
  - intros rest. rewrite mkpath_by_opt.
    assert (mkpath_opt dir (String "/" rest) = true) as ->; [|reflexivity].
    unfold mkpath_opt. destruct dir as [|[b0 b1 b2 b3 b4 b5 b6 b7] dir]; [reflexivity|].
    repeat match goal with
    | |- context [if ?b then _ else _] => is_var b; destruct b
    | |- context [match ?s with EmptyString => _ | String _ _ => _ end] =>
        is_var s; destruct s
    end; reflexivity.
Qed.

(** ** The name of the save file *)

Lemma hexdigit_inj (d d' : Z) :
  0 <= d < 16 -> 0 <= d' < 16 -> hexdigit d = hexdigit d' -> d = d'.
Proof.
  intros Hd Hd'. unfold hexdigit.
  rewrite <- (Z2Nat.id d), <- (Z2Nat.id d') at 2 by lia.
  assert (Z.to_nat d < 16)%nat as Hn by lia.
  assert (Z.to_nat d' < 16)%nat as Hn' by lia.
  generalize dependent (Z.to_nat d'). generalize dependent (Z.to_nat d).
  intros n Hn n' Hn'.
  do 16 (destruct n as [|n]; [do 16 (destruct n' as [|n']; [cbn; congruence|]); lia|]).
  lia.
Qed.

Lemma hex4_inj (v v' : Z) :
  0 <= v < 65536 -> 0 <= v' < 65536 -> hex4 v = hex4 v' -> v = v'.
Proof.
  intros Hv Hv' H. unfold hex4 in H. injection H as H3 H2 H1 H0.
  apply hexdigit_inj in H3, H2, H1, H0;
    try (split; [apply Z.mod_pos_bound | apply Z.mod_pos_bound]; lia).
  Z.div_mod_to_equations. lia.
Qed.

Lemma append_inj (s x y : string) : s +:+ x = s +:+ y -> x = y.
Proof. induction s as [|c s IH]; simpl; [trivial | intros [= H]; auto]. Qed.

(** X10.  The save file of [to] is [to] followed by eight hexadecimal
    digits, so a different name of eight bytes more.  The digits are the
    low 16 bits of the process id and of the clock: the same process
    makes up the same save name for a file again exactly when the clocks
    agree modulo 65536. *)
Theorem save_names_repeat (to : string) (clock clock' : Z) :
  String.length (newname_of sys to clock) = (String.length to + 8)%nat /\
  newname_of sys to clock <> to /\
  (newname_of sys to clock = newname_of sys to clock' <->
   clock mod 65536 = clock' mod 65536).
Proof.
  split_and!.
  - apply newname_length.
  - apply newname_fresh.
  - unfold newname_of. change 65535 with (Z.ones 16).
    rewrite !Z.land_ones by lia. change (2 ^ 16) with 65536. split.
    + intros H. apply append_inj in H.
      apply (append_inj (hex4 (getpid sys mod 65536))) in H.
      apply hex4_inj in H; auto; apply Z.mod_pos_bound; lia.
    + intros ->. reflexivity.
Qed.

(** ** A symbolic link entered with -s *)

Section Follow.

Hypothesis all_calm : forall n c, fault sys n c = false.
Hypothesis not_noexec : noexec opt = false.
Hypothesis some_buffer : (0 < BUFSIZ sys)%nat.

(** The comparison of two names that can be opened. *)
Lemma compared_open (h m : Info) (w : World) (dh dm : list byte) :
  fs_open (w_fs w) (i_name h) = Some dh -> fs_open (w_fs w) (i_name m) = Some dm ->
  fst (compared sys opt h m w) = compare_loop sys (length dh) dh dm /\
  w_fs (snd (compared sys opt h m w)) = w_fs w.
Proof.
  intros Hoh Hom.
  assert (w_fs (snd (when (debug opt) (puts "replace") w)) = w_fs w) as Hw1
    by (apply quiet_when, quiet_puts).
  unfold compared.
  destruct (quiet_compare (i_name h) (i_name m)
              (snd (when (debug opt) (puts "replace") w))) as [Hq _].
  split; [|congruence].
  rewrite compare_run. unfold open.
  destruct (query_calm all_calm (SysOpen (i_name h)) (fun fs => fs_open fs (i_name h))
              (snd (when (debug opt) (puts "replace") w))) as [-> Hq1].
  rewrite Hw1, Hoh.
  destruct (query_calm all_calm (SysOpen (i_name m)) (fun fs => fs_open fs (i_name m))
              (snd (query sys (SysOpen (i_name h)) (fun fs => fs_open fs (i_name h))
                      (snd (when (debug opt) (puts "replace") w))))) as [-> Hq2].
  rewrite Hq1, Hw1, Hom. reflexivity.
Qed.

(** X11.  With -s a symbolic link to a regular file is entered under
    the inode number of that file, but the swap is made on the name
    itself.  When no call fails and the link leads to a file with the
    bytes of the regular file [a], on another inode, [replace] of [a]
    and the link [s] returns 1 and the name of [s] is bound to the inode
    of [a]: the symbolic link is gone, and a hard link to [a] is in its
    place.  (The link count read for [s] is that of the link itself.) *)
Theorem symbolic_link_becomes_hard_link (a s : Info) (w : World) (l : Z)
    (nda ndl : Inode) :
  fs_lookup (w_fs w) (i_name a) = Some (i_ino a, nda) -> n_kind nda = S_IFREG ->
  fs_lookup (w_fs w) (i_name s) = Some (l, ndl) ->
  (exists target, n_kind ndl = S_IFLNK target) ->
  fs_open (w_fs w) (i_name s) = Some (n_data nda) ->
  i_ino a <> i_ino s -> i_name a <> i_name s ->
  n_nlink ndl <= n_nlink nda ->
  unused_save sys (w_fs w) s ->
  let done := replace sys opt a s w in
  fst done = 1 /\
  fs_names (w_fs (snd done)) = <[i_name s := i_ino a]> (fs_names (w_fs w)) /\
  content (w_fs (snd done)) (i_name s) = Some (S_IFREG, n_data nda).
Proof.
  intros Ha Hka Hs Hks Hos Hino Hname Hlinks Hsave done. subst done.
  pose proof (fs_lookup_names _ _ _ _ Ha) as Han.
  pose proof (fs_lookup_names _ _ _ _ Hs) as Hsn.
  assert (fs_inodes (w_fs w) !! i_ino a = Some nda) as Hai.
  { unfold fs_lookup in Ha. rewrite Han in Ha.
    destruct (fs_inodes (w_fs w) !! i_ino a); [congruence | discriminate]. }
  assert (fs_open (w_fs w) (i_name a) = Some (n_data nda)) as Hoa.
  { unfold fs_open. rewrite (fs_resolve_direct _ _ _ _ _ Ha) by congruence.
    rewrite Hka. reflexivity. }
  destruct (compared_open a s w _ _ Hoa Hos) as [Hc Hcw].
  destruct (compare_loop_spec (length (n_data nda)) (n_data nda) (n_data nda)
              some_buffer (le_n _)) as [[Hcmp _]|[_ Hne]]; [|contradiction].
  rewrite Hcmp in Hc.
  assert (fst (restat_a sys opt a s w) = Some (stat_of (w_fs w) (i_ino a) nda) /\
          w_fs (snd (restat_a sys opt a s w)) = w_fs w) as [Hra Haw].
  { unfold restat_a, lstat.
    destruct (query_calm all_calm (SysLstat (i_name a)) (fun fs => fs_lstat fs (i_name a))
                (snd (compared sys opt a s w))) as [-> ->].
    rewrite Hcw. unfold fs_lstat. rewrite Ha. auto. }
  assert (fst (restat_b sys opt a s w) = Some (stat_of (w_fs w) l ndl) /\
          w_fs (snd (restat_b sys opt a s w)) = w_fs w) as [Hrb Hbw].
  { unfold restat_b, lstat.
    destruct (query_calm all_calm (SysLstat (i_name s)) (fun fs => fs_lstat fs (i_name s))
                (snd (restat_a sys opt a s w))) as [-> ->].
    rewrite Haw. unfold fs_lstat. rewrite Hs. auto. }
  rewrite (replace_direction a s w _ _ Hino Hc Hra Hrb). cbn [st_nlink stat_of fst snd].
  assert ((n_nlink ndl <=? n_nlink nda) = true) as -> by (apply Z.leb_le; lia).
  destruct (replace2_calm all_calm not_noexec (i_name a) (i_name s)
              (snd (restat_b sys opt a s w)) l (i_ino a)) as [Hn Hi];
    rewrite ?Hbw; auto.
  split_and!; [reflexivity | rewrite Hn, Hbw; reflexivity |].
  unfold content. rewrite Hn, lookup_insert_eq.
  rewrite replace2_file_of, Hbw. unfold file_of. rewrite Hai. cbn. rewrite Hka.
  reflexivity.
Qed.

End Follow.

(** ** The number of calls *)

Lemma costs_ret {A} (a : A) : costs 0 (ret a).
Proof. intros w. cbn. lia. Qed.

Lemma costs_more (n n' : nat) {A} (m : M A) : (n <= n')%nat -> costs n m -> costs n' m.
Proof. intros Hn H w. specialize (H w). lia. Qed.

Lemma costs_bind (n1 n2 : nat) {A B} (m : M A) (k : A -> M B) :
  costs n1 m -> (forall a, costs n2 (k a)) -> costs (n1 + n2) (bind m k).
Proof.
  intros Hm Hk w. rewrite bind_run. specialize (Hm w).
  specialize (Hk (fst (m w)) (snd (m w))). lia.
Qed.

Lemma costs_emit (e : Event) : costs 0 (emit e).
Proof. intros w. cbn. lia. Qed.

Lemma costs_when (b : bool) (m : M unit) : costs 0 m -> costs 0 (when b m).
Proof. destruct b; [trivial | intros _; apply costs_ret]. Qed.

Lemma costs_query {A} (c : Syscall) (f : FS -> option A) : costs 1 (query sys c f).
Proof. intros w. unfold query. destruct (attempt sys c f w); cbn; lia. Qed.

Lemma costs_compare (file1 file2 : string) : costs 2 (compare sys file1 file2).
Proof.
  unfold compare. apply (costs_bind 1 1); [apply costs_query | intros [fd1|]].
  - apply (costs_more 1); [lia|]. rewrite <- (Nat.add_0_r 1).
    apply costs_bind; [apply costs_query | intros [fd2|]; apply costs_ret].
  - apply (costs_more 0); [lia | apply costs_ret].
Qed.

Lemma costs_replace2 (from to : string) : costs 3 (replace2 sys opt from to).
Proof.
  intros w. unfold replace2. destruct w as [fs n out nice uid].
  destruct (noexec opt), (debug opt), (verbose opt); norm; outcomes; lia.
Qed.

Lemma costs_replace (a b : Info) : costs 7 (replace sys opt a b).
Proof.
  unfold replace. change 7%nat with (0 + 7)%nat.
  apply costs_bind; [apply costs_when, costs_emit | intros _].
  destruct (_ =? _); [apply (costs_more 0); [lia | apply costs_ret]|].
  change 7%nat with (2 + 5)%nat.
  apply costs_bind; [apply costs_compare | intros r].
  destruct (negb _); [apply (costs_more 0); [lia | apply costs_ret]|].
  change 5%nat with (1 + 4)%nat.
  apply costs_bind; [apply costs_query | intros [stbuf_a|]].
  - change 4%nat with (1 + 3)%nat.
    apply costs_bind; [apply costs_query | intros [stbuf_b|]].
    + rewrite <- (Nat.add_0_r 3).
      apply costs_bind; [|intros _; apply costs_ret].
      destruct (_ <=? _); apply costs_replace2.
    + apply (costs_more (0 + 0)); [lia|].
      apply costs_bind; [apply costs_emit | intros _; apply costs_ret].
  - apply (costs_more (0 + 0)); [lia|].
    apply costs_bind; [apply costs_emit | intros _; apply costs_ret].
Qed.

Lemma costs_comb2 (elem : Info) (ilist : Infos) :
  costs (7 * length ilist) (comb2 sys opt elem ilist).
Proof.
  induction ilist as [|b x IH]; cbn [comb2 length]; [apply costs_ret|].
  apply (costs_more (0 + (7 + 7 * length x))); [lia|].
  apply costs_bind; [apply costs_when, costs_emit | intros _].
  apply costs_bind; [apply costs_replace | intros r].
  destruct (negb _); [exact IH|].
  rewrite <- (Nat.add_0_r (7 * length x)).
  apply costs_bind; [exact IH | intros rest; apply costs_ret].
Qed.

Lemma costs_combine_while (fuel : nat) (list : Infos) (w : World) :
  (w_calls w <= w_calls (snd (combine_while sys opt fuel list w)))%nat /\
  (2 * w_calls (snd (combine_while sys opt fuel list w)) <=
   2 * w_calls w + 7 * (length list * (length list - 1)))%nat.
Proof.
  revert list w. induction fuel as [|fuel IH]; intros [|elem [|b x]] w;
    cbn [combine_while ret snd]; try lia.
  rewrite bind_run.
  pose proof (costs_comb2 elem (b :: x) w) as Hc.
  pose proof (sublist_length _ _ (comb2_sublist elem (b :: x) w)) as Hl.
  specialize (IH (fst (comb2 sys opt elem (b :: x) w))
                 (snd (comb2 sys opt elem (b :: x) w))).
  cbn [length] in *.
  set (m := length (fst (comb2 sys opt elem (b :: x) w))) in *.
  assert (m * (m - 1) <= S (length x) * length x)%nat by nia.
  replace (S (S (length x)) - 1)%nat with (S (length x)) by lia.
  nia.
Qed.

(** X12.  The work of [combine], counted in calls on path names.  One
    call of [replace] makes seven of them at most (two of [open], two of
    [lstat], and three of [rename], [link] and [unlink] for the swap),
    and [combine] on a class of [k] files at most 7 k (k - 1) / 2, one
    [replace] for every pair of members: the loop ends, and the number
    of comparisons and swaps of a class is quadratic in its size.  The
    calls of [read], which grow with the size of the files, and of
    [close], [time], [getpid], [geteuid] and [nice] are not counted. *)
Theorem combine_makes_quadratically_many_calls (list : Infos) (w : World) :
  let k := length list in
  let done := snd (combine sys opt list w) in
  (forall a b, costs 7 (replace sys opt a b)) /\
  (w_calls w <= w_calls done)%nat /\
  (2 * w_calls done <= 2 * w_calls w + 7 * (k * (k - 1)))%nat.
Proof.
  intros k done. subst k done. split; [apply costs_replace|].
  unfold combine. rewrite bind_run.
  pose proof (costs_when (debug opt) (puts "combine")
                (costs_emit _) w) as Hw.
  pose proof (costs_combine_while (length list) list
                (snd (when (debug opt) (puts "combine") w))) as Hc.
  lia.
Qed.
End Properties.

(** * The whole program *)

(** ** The option flags *)

(** Follow the tests the [switch] makes on a character. *)
Ltac bits :=
  repeat match goal with
  | |- context [if ?b then _ else _] => is_var b; destruct b
  end.

Lemma covers_refl (o : Options) : covers o o.
Proof. unfold covers. tauto. Qed.

Lemma covers_trans (o1 o2 o3 : Options) : covers o1 o2 -> covers o2 o3 -> covers o1 o3.
Proof. unfold covers. tauto. Qed.

(** A letter sets options and clears none; -n sets -v with it; and no
    letter calls the system. *)
Lemma flag_spec (c : ascii) (next : option string) (o : Options)
    (f : option string) (w : World) (o' : Options) (f' : option string) :
  fst (flag c next (o, f) w) = Some (o', f') ->
  covers o o' /\
  ((noexec o = true -> verbose o = true) -> noexec o' = true -> verbose o' = true) /\
  (c = "n"%char -> noexec o' = true).
Proof.
  unfold flag. destruct c as [b0 b1 b2 b3 b4 b5 b6 b7]. bits; destruct next;
    cbv [bind ret emit fst]; intros [= <- <-]; unfold covers; cbn;
    (split_and!; [tauto.. | try discriminate; auto]).
Qed.

Lemma flags_spec (letters : string) (next : option string) (o : Options)
    (f : option string) (w : World) (o' : Options) (f' : option string) :
  fst (flags letters next (o, f) w) = Some (o', f') ->
  covers o o' /\
  ((noexec o = true -> verbose o = true) -> noexec o' = true -> verbose o' = true) /\
  (In "n"%char (list_ascii_of_string letters) -> noexec o' = true).
Proof.
  revert o f w. induction letters as [|c letters IH]; intros o f w.
  - cbn. intros [= <- <-]. split_and!; [apply covers_refl | auto | contradiction].
  - cbn [flags list_ascii_of_string In]. rewrite bind_run.
    destruct (fst (flag c next (o, f) w)) as [[o1 f1]|] eqn:E; [|discriminate].
    apply flag_spec in E as (C1 & I1 & N1). intros H.
    apply IH in H as (C2 & I2 & N2). split_and!.
    + eapply covers_trans; eauto.
    + auto.
    + intros [->|Hn]; [|auto]. apply C2. auto.
Qed.

Lemma main_for_spec (argv : list string) (o : Options) (f : option string)
    (w : World) (o' : Options) (f' : option string) (rest : list string) :
  fst (main_for argv (o, f) w) = Some (o', f', rest) ->
  covers o o' /\
  ((noexec o = true -> verbose o = true) -> noexec o' = true -> verbose o' = true) /\
  (exists pre, argv = pre ++ rest /\ Forall dashed pre) /\
  (forall arg more, rest = arg :: more -> ~ dashed arg).
Proof.
  revert o f w. induction argv as [|arg argv IH]; intros o f w.
  - cbn. intros [= <- <- <-]. split_and!; [apply covers_refl | auto | | discriminate].
    exists []. split; [reflexivity | constructor].
  - assert (~ dashed arg ->
            fst (main_for (arg :: argv) (o, f) w) = Some (o', f', rest) ->
            o' = o /\ f' = f /\ rest = arg :: argv) as Hplain.
    { intros Hd. destruct arg as [|[b0 b1 b2 b3 b4 b5 b6 b7] letters];
        cbn [main_for]; [intros [= <- <- <-]; auto|].
      bits; try (intros [= <- <- <-]; auto). exfalso. apply Hd. eexists; reflexivity. }
    assert (forall letters, arg = String "-" letters ->
            fst (main_for (arg :: argv) (o, f) w) = Some (o', f', rest) ->
            exists o1 f1 w1,
              fst (flags letters (head argv) (o, f) w) = Some (o1, f1) /\
              fst (main_for argv (o1, f1) w1) = Some (o', f', rest)) as Hdash.
    { intros letters ->. cbn [main_for]. rewrite bind_run.
      destruct (fst (flags letters (head argv) (o, f) w)) as [[o1 f1]|];
        [|discriminate]. eauto. }
    intros H.
    assert (dashed arg \/ ~ dashed arg) as [[letters Ha]|Hn].
    { destruct arg as [|[b0 b1 b2 b3 b4 b5 b6 b7] letters];
        [right; intros [? [=]]|].
      destruct b0, b1, b2, b3, b4, b5, b6, b7;
        try solve [right; intros [? [=]]]. left. eexists; reflexivity. }
    + destruct (Hdash letters Ha H) as (o1 & f1 & w1 & Hf & Hm).
      apply flags_spec in Hf as (C1 & I1 & _).
      apply IH in Hm as (C2 & I2 & (pre & -> & Hpre) & Hrest). split_and!.
      * eapply covers_trans; eauto.
      * auto.
      * exists (arg :: pre). split; [reflexivity|]. constructor; [|exact Hpre].
        exists letters. exact Ha.
      * exact Hrest.
    + destruct (Hplain Hn H) as (-> & -> & ->). split_and!.
      * apply covers_refl.
      * auto.
      * exists []. split; [reflexivity | constructor].
      * intros a more [= <- <-]. exact Hn.
Qed.

(** A flag argument with the letter n in it, before any name: the run
    is a dry run if it gets that far. *)
Lemma main_for_dry (pre : list string) (letters : string) (post : list string)
    (o : Options) (f : option string) (w : World) (o' : Options)
    (f' : option string) (rest : list string) :
  Forall dashed pre -> In "n"%char (list_ascii_of_string letters) ->
  fst (main_for (pre ++ String "-" letters :: post) (o, f) w) = Some (o', f', rest) ->
  noexec o' = true.
Proof.
  intros Hpre Hn. revert o f w.
  induction Hpre as [|arg pre [l ->] Hpre IH]; intros o f w; cbn [app main_for];
    rewrite bind_run.
  - destruct (fst (flags letters _ (o, f) w)) as [[o1 f1]|] eqn:E; [|discriminate].
    apply flags_spec in E as (_ & _ & N). intros H.
    apply main_for_spec in H as (C & _). apply C, N, Hn.
  - destruct (fst (flags l _ (o, f) w)) as [[o1 f1]|]; [|discriminate]. apply IH.
Qed.

(** ** What a whole run keeps *)

Section Program.

Variable sys : System.
Variable P : World -> Prop.

Hypothesis on_stdout : forall s, along P (emit (Stdout s)).
Hypothesis on_stderr : forall s, along P (emit (Stderr s)).
Hypothesis on_error : forall b s, along P (emit (Error b s)).
Hypothesis on_query :
  forall c ok w, is_mutating c = false -> P w -> P (logged c ok (w_fs w) w).

Lemma along_flag (c : ascii) (next : option string) (st : Options * option string) :
  along P (flag c next st).
Proof.
  destruct st as [o f]. unfold flag. destruct c as [b0 b1 b2 b3 b4 b5 b6 b7].
  bits; try apply along_ret;
    try (apply along_bind; [apply on_stderr | intros _; apply along_ret]).
  destruct next; [apply along_ret|].
  apply along_bind; [apply on_stderr | intros _; apply along_ret].
Qed.

Lemma along_flags (letters : string) (next : option string)
    (st : Options * option string) :
  along P (flags letters next st).
Proof.
  revert st. induction letters as [|c letters IH]; intros st; cbn [flags];
    [apply along_ret|].
  apply along_bind; [apply along_flag | intros [st'|]; [apply IH | apply along_ret]].
Qed.

Lemma along_main_for (argv : list string) (st : Options * option string) :
  along P (main_for argv st).
Proof.
  revert st. induction argv as [|arg argv IH]; intros st; [apply along_ret|].
  destruct arg as [|[b0 b1 b2 b3 b4 b5 b6 b7] letters]; cbn [main_for];
    [apply along_ret|].
  bits; try apply along_ret.
  apply along_bind; [apply along_flags | intros [st'|]; [apply IH | apply along_ret]].
Qed.

Hypothesis on_swap : forall opt from to, along P (replace2 sys opt from to).

Lemma along_rat (depth : nat) (stdin : list byte) (argv : list string) :
  along P (rat sys depth stdin argv).
Proof.
  unfold rat. apply along_bind; [apply along_main_for | intros [[[opt f] rest]|]];
    [|apply along_ret].
  destruct f as [filename|].
  - apply along_bind; [apply along_assocfromfile; assumption | intros [list|]];
      [|apply along_ret].
    apply along_bind; [|intros _; apply along_ret].
    apply (along_main_while sys opt P (fun _ => True)); auto.
    apply Forall_forall. intros h _. apply Forall_forall. auto.
  - apply (along_main sys opt P (fun _ => True)); auto.
Qed.

End Program.

(** ** The exit status *)

(** Before the classes are combined nothing is changed. *)
Lemma quiet_along {A} (m : M A) :
  (forall w, along (fun w' => w_fs w' = w_fs w /\
                              mutations (w_out w') = mutations (w_out w)) m) ->
  quiet m.
Proof. intros H w. apply (H w w). auto. Qed.

Lemma says_quiet (e : Event) (w : World) :
  is_mutation e = false ->
  along (fun w' => w_fs w' = w_fs w /\ mutations (w_out w') = mutations (w_out w))
    (emit e).
Proof.
  intros He w' [Hf Hm]. split; [exact Hf|]. cbn. rewrite mutations_app, Hm. cbn.
  rewrite He. apply app_nil_r.
Qed.

Lemma asks_quiet (c : Syscall) (ok : bool) (w w' : World) :
  is_mutating c = false ->
  w_fs w' = w_fs w /\ mutations (w_out w') = mutations (w_out w) ->
  w_fs (logged c ok (w_fs w') w') = w_fs w /\
  mutations (w_out (logged c ok (w_fs w') w')) = mutations (w_out w).
Proof.
  intros Hc [Hf Hm]. split; [exact Hf|]. cbn. rewrite mutations_app, Hm. cbn.
  rewrite Hc. apply app_nil_r.
Qed.

Lemma quiet_main_for (argv : list string) (st : Options * option string) :
  quiet (main_for argv st).
Proof.
  apply quiet_along. intros w. apply along_main_for.
  intros s. apply says_quiet. reflexivity.
Qed.

Lemma quiet_assocfromfile (sys : System) (opt : Options) (depth : nat)
    (stdin : list byte) (filename : string) :
  quiet (assocfromfile sys opt depth stdin filename).
Proof.
  apply quiet_along. intros w. apply along_assocfromfile.
  - intros s. apply says_quiet. reflexivity.
  - intros b s. apply says_quiet. reflexivity.
  - intros c ok w'. apply asks_quiet.
Qed.

Lemma main_returns_0 (sys : System) (opt : Options) (depth : nat)
    (argv : list string) (w : World) :
  fst (main sys opt depth argv w) = 0.
Proof. unfold main. rewrite !bind_run. reflexivity. Qed.

(** [rat], step by step. *)
Lemma rat_run (sys : System) (depth : nat) (stdin : list byte) (argv : list string)
    (w : World) :
  let parsed := main_for argv (unset, None) w in
  rat sys depth stdin argv w =
    match fst parsed with
    | None => (1, snd parsed)
    | Some (opt, Some filename, rest) =>
        let read := assocfromfile sys opt depth stdin filename (snd parsed) in
        match fst read with
        | None => (1, snd read)
        | Some list => (0, snd (main_while sys opt list (snd read)))
        end
    | Some (opt, None, rest) => main sys opt depth rest (snd parsed)
    end.
Proof.
  cbv zeta. unfold rat. rewrite bind_run.
  destruct (fst (main_for argv (unset, None) w)) as [[[opt [filename|]] rest]|];
    try reflexivity.
  rewrite bind_run. destruct (fst (assocfromfile _ _ _ _ _ _)); [|reflexivity].
  rewrite bind_run. reflexivity.
Qed.

(** X13.  A run that does not end with status 0 ends with status 1, and
    has then called none of [rename], [link] and [unlink] and left the
    file system as it was: the process exits for a flag it does not
    know, a list file it cannot open or a line of it that is too long,
    all before the first class is combined. *)
Theorem exit_status_1_before_any_change (sys : System) (depth : nat)
    (stdin : list byte) (argv : list string) (w : World) :
  let r := rat sys depth stdin argv w in
  fst r <> 0 ->
  fst r = 1 /\ w_fs (snd r) = w_fs w /\
  mutations (w_out (snd r)) = mutations (w_out w).
Proof.
  intros r. subst r. rewrite rat_run. cbv zeta.
  destruct (quiet_main_for argv (unset, None) w) as [Hf Hm].
  destruct (fst (main_for argv (unset, None) w)) as [[[opt [filename|]] rest]|].
  - destruct (quiet_assocfromfile sys opt depth stdin filename
                (snd (main_for argv (unset, None) w))) as [Hf' Hm'].
    destruct (fst (assocfromfile _ _ _ _ _ _)); cbn [fst snd]; [contradiction|].
    intros _. split_and!; congruence.
  - rewrite main_returns_0. contradiction.
  - cbn [fst snd]. auto.
Qed.

(** X14.  The flags of the command line.  A flag sets options and clears
    none, and -n sets -v with it.  The arguments are read as flags as
    long as they begin with a dash (a dash alone is a flag argument
    without letters); from the first that does not, they are names,
    whatever they look like.  Reading the flags calls nothing of the
    system. *)
Theorem flags_only_switch_on (argv : list string) (o : Options) (f : option string)
    (w : World) (o' : Options) (f' : option string) (rest : list string) :
  fst (main_for argv (o, f) w) = Some (o', f', rest) ->
  covers o o' /\
  ((noexec o = true -> verbose o = true) -> noexec o' = true -> verbose o' = true) /\
  (exists pre, argv = pre ++ rest /\ Forall dashed pre) /\
  (forall arg more, rest = arg :: more -> ~ dashed arg) /\
  w_fs (snd (main_for argv (o, f) w)) = w_fs w /\
  w_calls (snd (main_for argv (o, f) w)) = w_calls w.
Proof.
  intros H. apply main_for_spec in H as (C & I & Hpre & Hrest).
  split_and!; auto.
  - apply quiet_main_for.
  - apply (along_main_for (fun w' => w_calls w' = w_calls w)); auto.
    intros s w' H. exact H.
Qed.

(** X15.  With the letter n in a flag argument that comes before any
    name, the whole run, from the command line on, calls none of
    [rename], [link] and [unlink] and leaves the file system as it was,
    whatever the other flags, the names and the list file are. *)
Theorem dash_n_changes_nothing (sys : System) (depth : nat) (stdin : list byte)
    (pre : list string) (letters : string) (post : list string) (w : World) :
  Forall dashed pre -> In "n"%char (list_ascii_of_string letters) ->
  let r := rat sys depth stdin (pre ++ String "-" letters :: post) w in
  w_fs (snd r) = w_fs w /\ mutations (w_out (snd r)) = mutations (w_out w).
Proof.
  intros Hpre Hn r. subst r. rewrite rat_run. cbv zeta.
  pose proof (main_for_dry pre letters post unset None w) as Hdry.
  destruct (quiet_main_for (pre ++ String "-" letters :: post) (unset, None) w)
    as [Hf Hm].
  destruct (fst (main_for _ (unset, None) w)) as [[[opt [filename|]] rest]|].
  - specialize (Hdry _ _ _ Hpre Hn eq_refl).
    destruct (quiet_assocfromfile sys opt depth stdin filename
                (snd (main_for (pre ++ String "-" letters :: post) (unset, None) w)))
      as [Hf' Hm'].
    destruct (fst (assocfromfile _ _ _ _ _ _)) as [list|]; cbn [fst snd].
    + destruct (quiet_main_while sys opt list Hdry
                  (snd (assocfromfile sys opt depth stdin filename
                          (snd (main_for (pre ++ String "-" letters :: post)
                                  (unset, None) w))))) as [Hf'' Hm''].
      split; congruence.
    + split; congruence.
  - specialize (Hdry _ _ _ Hpre Hn eq_refl).
    destruct (quiet_main sys opt depth rest Hdry
                (snd (main_for (pre ++ String "-" letters :: post) (unset, None) w)))
      as [Hf' Hm'].
    split; congruence.
  - auto.
Qed.

(** ** Priority *)

Lemma nices_app (l k : list Event) : nices (l ++ k) = nices l ++ nices k.
Proof. apply flat_map_app. Qed.

Lemma priority_app (p0 : Z) (l k : list Event) :
  priority p0 (l ++ k) = fold_left nice_to (nices k) (priority p0 l).
Proof. unfold priority. rewrite nices_app. apply fold_left_app. Qed.

(** The calls of [nice] of a swap, on every path through [replace2]. *)
Lemma replace2_nices (sys : System) (opt : Options) (from to : string) (w : World) :
  niceness w = 0 ->
  nices (w_out (snd (replace2 sys opt from to w))) =
    nices (w_out w) ++
    (if noexec opt then []
     else if (if our_uid w =? NO_UID then geteuid sys else our_uid w) =? 0
          then [PRIORITY; - PRIORITY] else []).
Proof.
  intros H. unfold replace2. destruct w as [fs n out nice uid].
  cbn [niceness] in H. subst nice. cbn [our_uid w_out].
  destruct (noexec opt), (debug opt), (verbose opt);
    cbv beta iota zeta delta
      [bind ret when emit puts printf error raisepriority lowerpriority clock_now
       rename link unlink mutate attempt logged
       fst snd w_fs w_calls w_out niceness our_uid];
    repeat match goal with
    | |- context [match (if fault ?s ?n ?c then None else ?x) with _ => _ end] =>
        destruct (if fault s n c then None else x); simpl
    end;
    destruct ((if uid =? NO_UID then geteuid sys else uid) =? 0); simpl;
    rewrite ?nices_app, ?app_nil_r, <- ?app_assoc; reflexivity.
Qed.

(** X16.  Priority.  On every path through [replace2], the failing ones
    included, root calls [nice(-5)] once and [nice(5)] once after it,
    and any other user, or a dry run, calls [nice] not at all; the
    variable [niceness] is 0 again.  The nice value of the process is
    back where it was exactly when it started at -15 or above: below
    that the first call stops at -20 and the second ends 5 above it.  A
    whole run that starts at -15 or above ends at the nice value it
    started with. *)
Theorem priority_is_given_back (sys : System) (depth : nat) (stdin : list byte)
    (argv : list string) (w : World) (p0 : Z) :
  let p := priority p0 (w_out w) in
  niceness w = 0 ->
  (forall opt from to,
     niceness (snd (replace2 sys opt from to w)) = 0 /\
     nices (w_out (snd (replace2 sys opt from to w))) =
       nices (w_out w) ++
       (if noexec opt then []
        else if (if our_uid w =? NO_UID then geteuid sys else our_uid w) =? 0
             then [PRIORITY; - PRIORITY] else [])) /\
  (nice_to (nice_to p PRIORITY) (- PRIORITY) = p <-> -15 <= p <= 19) /\
  (-15 <= p <= 19 ->
   priority p0 (w_out (snd (rat sys depth stdin argv w))) = p /\
   niceness (snd (rat sys depth stdin argv w)) = 0).
Proof.
  intros p H. split_and!.
  - intros opt from to. split; [|apply replace2_nices, H].
    rewrite replace2_niceness, H.
    destruct (noexec opt); [reflexivity|]. destruct (_ =? 0); reflexivity.
  - unfold nice_to, PRIORITY. lia.
  - intros Hp.
    assert (along (fun w' => niceness w' = 0 /\ priority p0 (w_out w') = p)
              (rat sys depth stdin argv)) as Hrun.
    { apply along_rat.
      - intros s w' [H1 H2]. split; [exact H1|]. cbn [emit snd w_out]. rewrite priority_app. exact H2.
      - intros s w' [H1 H2]. split; [exact H1|]. cbn [emit snd w_out]. rewrite priority_app. exact H2.
      - intros b s w' [H1 H2]. split; [exact H1|]. cbn [emit snd w_out]. rewrite priority_app. exact H2.
      - intros c ok w' _ [H1 H2]. split; [exact H1|]. cbn [logged w_out].
        rewrite priority_app. exact H2.
      - intros opt from to w' [H1 H2]. split.
        + rewrite replace2_niceness, H1.
          destruct (noexec opt); [reflexivity|]. destruct (_ =? 0); reflexivity.
        + unfold priority in *. rewrite (replace2_nices _ _ _ _ _ H1), fold_left_app, H2.
          destruct (noexec opt); [reflexivity|]. destruct (_ =? 0); [|reflexivity].
          cbn [fold_left]. unfold nice_to, PRIORITY. lia. }
    destruct (Hrun w (conj H eq_refl)) as [H1 H2]. auto.
Qed.

(** * The scenarios, run *)

(** C1.  The two branches after a failed [link] are the wrong way round.
    When the save file cannot be renamed back ([stubborn]), [replace2]
    returns 0 and says nothing, and [b] is gone: what it held is under
    the save file only.  When the save file is renamed back ([denied]),
    [replace2] returns -1 and reports that a copy has been left on the
    save file, a name that no longer exists. *)
Theorem restore_branches_swapped :
  (let r := replace2 stubborn plain "a" "b" (boot fs_abc) in
   fst r = 0 /\ reports (w_out (snd r)) = [] /\
   attempts (w_out (snd r)) =
     [(SysRename "b" "b12345678", true); (SysLink "a" "b", false);
      (SysRename "b12345678" "b", false)] /\
   fs_names (w_fs (snd r)) !! "b" = None /\
   fs_names (w_fs (snd r)) !! "b12345678" = Some 101) /\
  (let r := replace2 denied plain "a" "b" (boot fs_abc) in
   fst r = -1 /\
   reports (w_out (snd r)) =
     [Error true ("failed to link b to a - copy has been left on b12345678" +:+ nl)] /\
   attempts (w_out (snd r)) =
     [(SysRename "b" "b12345678", true); (SysLink "a" "b", false);
      (SysRename "b12345678" "b", true)] /\
   fs_names (w_fs (snd r)) !! "b" = Some 101 /\
   fs_names (w_fs (snd r)) !! "b12345678" = None).
Proof. vm_compute. repeat split. Qed.

(** C2 fails on the code: [b] cannot be renamed, and [replace] stops
    there.  The one call is the failed rename of [b]; no swap that would
    retire [a] is tried, though it would go through; nothing is
    reported. *)
Lemma no_retry_in_reverse :
  let r := replace locked plain info_a info_b (boot fs_abc) in
  fst (compared locked plain info_a info_b (boot fs_abc)) = 0 /\
  fst r = 1 /\
  attempts (w_out (snd r)) = [(SysRename "b" "b12345678", false)] /\
  reports (w_out (snd r)) = [] /\
  w_fs (snd r) = fs_abc /\
  fst (replace2 locked plain "b" "a" (snd r)) = 1.
Proof. vm_compute. repeat split. Qed.

(** C3 fails on the code: after the backup rename, the first call of the
    swap, [b] is missing. *)
Lemma name_missing_during_swap :
  let r := replace2 calm plain "a" "b" (boot fs_abc) in
  content fs_abc "b" = Some (S_IFREG, [x58]) /\
  match snapshots (w_out (snd r)) with
  | fs1 :: _ =>
      fs_names fs1 !! "b" = None /\ content fs1 "b" = None /\
      content fs1 "b12345678" = Some (S_IFREG, [x58])
  | [] => False
  end.
Proof. vm_compute. repeat split. Qed.

(** C4 fails on the code.  With [c] linked three times, [b] is first
    linked to [a], and [a] is then retired in favour of [c]: [b] is
    removed from the class and ends up alone on its inode.  And when [b]
    cannot be renamed, it is removed from the class all the same, and
    keeps its own inode. *)
Lemma removed_member_left_apart :
  (let w' := snd (combine calm plain [info_a; info_b; info_c] (boot fs_linked)) in
   survivors calm plain [info_a; info_b; info_c] (boot fs_linked) = [info_a] /\
   fs_names (w_fs w') !! "a" = Some 102 /\
   fs_names (w_fs w') !! "b" = Some 100 /\
   fs_names (w_fs w') !! "c" = Some 102) /\
  (let w' := snd (combine locked plain [info_a; info_b; info_c] (boot fs_abc)) in
   survivors locked plain [info_a; info_b; info_c] (boot fs_abc) = [info_a; info_c] /\
   fs_names (w_fs w') !! "a" = Some 100 /\
   fs_names (w_fs w') !! "b" = Some 101 /\
   fs_names (w_fs w') !! "c" = Some 102).
Proof. vm_compute. repeat split. Qed.

(** C5 fails on the code.  In the first run [b] is linked to [a], then
    [a] is retired in favour of [c], which has more links; [a] and [b]
    end on different inodes.  The second run finds them so and links
    [b] again. *)
Lemma second_run_links_again :
  let first := main calm plain 0 ["c"; "b"; "a"]%string (boot fs_linked) in
  let second := main calm plain 0 ["c"; "b"; "a"]%string (boot (w_fs (snd first))) in
  attempts (w_out (snd first)) =
    [(SysRename "b" "b12345678", true); (SysLink "a" "b", true);
     (SysUnlink "b12345678", true);
     (SysRename "a" "a12345678", true); (SysLink "c" "a", true);
     (SysUnlink "a12345678", true)] /\
  fs_names (w_fs (snd first)) !! "a" = Some 102 /\
  fs_names (w_fs (snd first)) !! "b" = Some 100 /\
  attempts (w_out (snd second)) =
    [(SysRename "b" "b12345678", true); (SysLink "a" "b", true);
     (SysUnlink "b12345678", true)] /\
  fs_names (w_fs (snd second)) !! "b" = Some 102.
Proof. vm_compute. repeat split. Qed.



(** * The theorems at the scenarios *)

Lemma dry_run_witness :
  noexec dry = true /\
  w_fs (snd (main calm dry 0 ["a"; "b"; "c"]%string (boot fs_abc))) = fs_abc /\
  mutations (w_out (snd (main calm dry 0 ["a"; "b"; "c"]%string (boot fs_abc)))) = [].
Proof.
  split; [reflexivity|].
  apply (proj2 (dry_run_mutates_nothing calm dry eq_refl) 0%nat
           ["a"; "b"; "c"]%string (boot fs_abc)).
Defined.

Lemma compare_witness :
  (0 < BUFSIZ calm)%nat /\ fst (compare calm "a" "b" (boot fs_abc)) = 0.
Proof.
  assert (0 < BUFSIZ calm)%nat as HB by (vm_compute; lia).
  split; [exact HB|].
  apply (proj1 (compare_equal_iff_identical calm plain "a" "b" (boot fs_abc) HB)).
  exists [x58]. split; reflexivity.
Defined.

Lemma assoc_witness :
  h_info head_a = [info_a] /\
  fst (assoc plain head_a [class_big; class_b] (boot fs_abc)) =
    [class_big;
     {| h_info := [info_a; info_b]; h_size := 1; h_dev := 1; h_uid := 1000;
        h_gid := 1000; h_perms := 420 |}].
Proof.
  split; [reflexivity|].
  destruct (assoc_first_fit plain head_a info_a [class_big; class_b] (boot fs_abc) eq_refl)
    as (_ & [(l1 & c & l2 & Hl & Hl1 & Hc & Hr)|[Hall _]] & _).
  - rewrite Hr.
    destruct l1 as [|h1 l1]; [injection Hl as <- _; discriminate Hc|].
    destruct l1 as [|h2 l1]; [injection Hl as <- <- <-; reflexivity|].
    destruct l1; discriminate Hl.
  - apply Forall_cons in Hall as [_ Hall]. apply Forall_cons in Hall as [Hb _].
    discriminate Hb.
Defined.

Lemma link_swap_witness :
  fs_names fs_abc !! newname_of calm "b" (time calm 0) = None /\
  content fs_abc "a" = content fs_abc "b" /\
  content (w_fs (snd (replace2 calm plain "a" "b" (boot fs_abc)))) "b" = content fs_abc "b".
Proof.
  assert (fs_names fs_abc !! newname_of calm "b" (time calm 0) = None) as H1
    by (vm_compute; reflexivity).
  assert (content fs_abc "a" = content fs_abc "b") as H2 by (vm_compute; reflexivity).
  split_and!; [exact H1 | exact H2 |].
  destruct (link_swap_keeps_content calm plain "a" "b" (boot fs_abc) H1 H2)
    as (evs & _ & _ & _ & Hdone).
  apply Hdone. vm_compute. reflexivity.
Defined.

Lemma failed_swap_witness :
  noexec plain = false /\
  i_ino info_a <> i_ino info_b /\
  fst (compared locked plain info_a info_b (boot fs_abc)) = 0 /\
  fst (restat_a locked plain info_a info_b (boot fs_abc)) = Some stat_a /\
  fst (restat_b locked plain info_a info_b (boot fs_abc)) = Some stat_b /\
  fst (rename locked "b" (newname_of locked "b" (time locked 4))
         (snd (restat_b locked plain info_a info_b (boot fs_abc)))) = -1 /\
  fst (replace locked plain info_a info_b (boot fs_abc)) = 1 /\
  w_fs (snd (replace locked plain info_a info_b (boot fs_abc))) = fs_abc.
Proof.
  assert (i_ino info_a <> i_ino info_b) as H1 by (vm_compute; discriminate).
  assert (fst (compared locked plain info_a info_b (boot fs_abc)) = 0) as H2
    by (vm_compute; reflexivity).
  assert (fst (restat_a locked plain info_a info_b (boot fs_abc)) = Some stat_a) as H3
    by (vm_compute; reflexivity).
  assert (fst (restat_b locked plain info_a info_b (boot fs_abc)) = Some stat_b) as H4
    by (vm_compute; reflexivity).
  assert (fst (rename locked "b" (newname_of locked "b" (time locked 4))
                 (snd (restat_b locked plain info_a info_b (boot fs_abc)))) = -1) as H5
    by (vm_compute; reflexivity).
  destruct (failed_swap_is_not_retried locked plain info_a info_b (boot fs_abc)
              stat_a stat_b eq_refl H1 H2 H3 H4) as (_ & _ & _ & Hfail).
  destruct (Hfail H5) as (R1 & R2 & _).
  exact (conj eq_refl (conj H1 (conj H2 (conj H3 (conj H4 (conj H5 (conj R1 R2))))))).
Defined.



Lemma tidy_abc : tidy calm fs_abc [info_a; info_b; info_c].
Proof.
  unfold tidy. split_and!.
  - apply (bool_decide_unpack _). vm_compute. exact I.
  - apply (bool_decide_unpack _). vm_compute. exact I.
  - repeat constructor; try (vm_compute; reflexivity);
      eexists; (split; [vm_compute; reflexivity|]); split; reflexivity.
  - repeat constructor; intros n; vm_compute; reflexivity.
Defined.

Lemma partition_witness :
  (0 < BUFSIZ calm)%nat /\ noexec plain = false /\
  (forall n c, fault calm n c = false) /\
  tidy calm (w_fs (boot fs_abc)) [info_a; info_b; info_c] /\
  survivors calm plain [info_a; info_b; info_c] (boot fs_abc) `sublist_of`
    [info_a; info_b; info_c] /\
  content (w_fs (snd (combine calm plain [info_a; info_b; info_c] (boot fs_abc)))) "b" =
    content fs_abc "b".
Proof.
  assert (0 < BUFSIZ calm)%nat as HB by (vm_compute; lia).
  assert (forall n c, fault calm n c = false) as HC by reflexivity.
  split_and!; [exact HB | reflexivity | exact HC | exact tidy_abc | |].
  - apply (combine_leaves_a_partition calm plain [info_a; info_b; info_c] (boot fs_abc)
             HB eq_refl HC tidy_abc).
  - destruct (combine_leaves_a_partition calm plain [info_a; info_b; info_c] (boot fs_abc)
                HB eq_refl HC tidy_abc) as (_ & _ & _ & Hsame).
    apply (Hsame info_b). set_solver.
Defined.

Lemma second_run_witness :
  (0 < BUFSIZ calm)%nat /\ noexec plain = false /\
  (forall n c, fault calm n c = false) /\
  tidy calm (w_fs (boot fs_abc)) [info_a; info_b; info_c] /\
  let w' := snd (combine calm plain [info_a; info_b; info_c] (boot fs_abc)) in
  mutations (w_out (snd (combine calm plain
                           (reread (w_fs w') [info_a; info_b; info_c]) w'))) =
    mutations (w_out w').
Proof.
  assert (0 < BUFSIZ calm)%nat as HB by (vm_compute; lia).
  assert (forall n c, fault calm n c = false) as HC by reflexivity.
  split_and!; [exact HB | reflexivity | exact HC | exact tidy_abc |].
  apply (second_run_links_nothing calm plain [info_a; info_b; info_c] (boot fs_abc)
           HB eq_refl HC tidy_abc).
Defined.

(** * The further theorems at the scenarios *)

Lemma other_names_witness :
  ("c"%string ∉ (i_name <$> [info_a; info_b])) /\
  fs_names (w_fs (snd (combine calm plain [info_a; info_b] (boot fs_abc))))
    !! "c"%string = Some 102.
Proof.
  assert ("c"%string ∉ (i_name <$> [info_a; info_b])) as H1
    by (apply (bool_decide_unpack _); vm_compute; exact I).
  assert (forall m n, m ∈ [info_a; info_b] ->
            "c"%string <> newname_of calm (i_name m) (time calm n)) as H2.
  { intros m n _ E. apply (f_equal String.length) in E.
    rewrite newname_length in E. simpl in E. lia. }
  split; [exact H1|].
  rewrite (combine_leaves_other_names calm plain [info_a; info_b] (boot fs_abc)
             "c" H1 H2).
  reflexivity.
Defined.

Lemma save_name_witness :
  fs_names fs_taken !! newname_of calm "b" (time calm 0) = Some 103 /\
  fst (replace2 calm plain "a" "b" (boot fs_taken)) = 1 /\
  fs_names (w_fs (snd (replace2 calm plain "a" "b" (boot fs_taken))))
    !! newname_of calm "b" (time calm 0) = None /\
  reports (w_out (snd (replace2 calm plain "a" "b" (boot fs_taken)))) = [].
Proof.
  assert (fs_names fs_taken !! newname_of calm "b" (time calm 0) = Some 103) as H3
    by (vm_compute; reflexivity).
  destruct (save_name_in_use_is_removed calm plain (fun _ _ => eq_refl) eq_refl
              "a" "b" (boot fs_taken) 101 100 103)
    as (R1 & R2 & _ & R4);
    [vm_compute; reflexivity | vm_compute; reflexivity | exact H3
    | discriminate | vm_compute; discriminate | discriminate | |].
  { intros ino Hin.
    repeat (apply elem_of_cons in Hin as [->|Hin]; [eexists; vm_compute; reflexivity|]).
    inversion Hin. }
  split_and!; [exact H3 | exact R1 | | exact R4].
  rewrite R2. vm_compute. reflexivity.
Defined.

Lemma stray_witness :
  noexec plain = false /\
  fst (replace2 sticky plain "a" "b" (boot fs_abc)) = 1 /\
  reports (w_out (snd (replace2 sticky plain "a" "b" (boot fs_abc)))) =
    [Error true "cannot remove temporary file b12345678"].
Proof.
  destruct (stray_save_file_is_reported sticky plain "a" "b" (boot fs_abc) eq_refl)
    as (R1 & _ & R3 & _);
    [vm_compute; reflexivity | vm_compute; reflexivity | vm_compute; reflexivity |].
  exact (conj eq_refl (conj R1 R3)).
Defined.

Lemma fits_a_line_abc : Forall fits_a_line ["a"; "b"; "c"]%string.
Proof.
  repeat constructor; try (simpl; lia); discriminate.
Qed.

Lemma list_file_witness :
  Forall fits_a_line ["a"; "b"; "c"]%string /\
  fst (assocfromfile calm plain 0 (listfile ["a"; "b"; "c"]%string) "-" (boot fs_abc)) =
    Some (fst (associate_for calm plain 0 ["a"; "b"; "c"]%string [] (boot fs_abc))).
Proof.
  split; [exact fits_a_line_abc|].
  rewrite (proj1 (list_file_is_read_as_arguments calm plain 0 ["a"; "b"; "c"]%string
                    (boot fs_abc) fits_a_line_abc)).
  reflexivity.
Defined.

Lemma unterminated_witness :
  Forall fits_a_line ["a"; "b"]%string /\
  assocfromfile calm plain 0 (listfile ["a"; "b"]%string ++ [x63]) "-" (boot fs_abc) =
    (None,
     snd (error true
            ("Line 3 too long in " +:+ dq +:+ "-" +:+ dq)
            (snd (associate_for calm plain 0 ["a"; "b"]%string [] (boot fs_abc))))).
Proof.
  assert (Forall fits_a_line ["a"; "b"]%string) as H1
    by (repeat constructor; try (simpl; lia); discriminate).
  split; [exact H1|].
  apply (unterminated_line_is_fatal calm plain 0 ["a"; "b"]%string [x63] (boot fs_abc) H1).
  - discriminate.
  - repeat constructor. discriminate.
Defined.

Lemma exit_status_witness :
  fst (rat calm 0 [] ["-vx"; "a"; "b"]%string (boot fs_abc)) <> 0 /\
  fst (rat calm 0 [] ["-vx"; "a"; "b"]%string (boot fs_abc)) = 1 /\
  w_fs (snd (rat calm 0 [] ["-vx"; "a"; "b"]%string (boot fs_abc))) = fs_abc.
Proof.
  assert (fst (rat calm 0 [] ["-vx"; "a"; "b"]%string (boot fs_abc)) <> 0) as H1
    by (vm_compute; discriminate).
  destruct (exit_status_1_before_any_change calm 0 [] ["-vx"; "a"; "b"]%string
              (boot fs_abc) H1) as (R1 & R2 & _).
  exact (conj H1 (conj R1 R2)).
Defined.

Lemma flags_witness :
  fst (main_for ["-un"; "-"; "a"; "-v"]%string (unset, None) (boot fs_abc)) =
    Some ({| verbose := true; noexec := true; recursive := false; ignore_uid := true;
             ignore_gid := false; ignore_perms := false; ignore_empty := false;
             debug := false; symbolic := false |}, None, ["a"; "-v"]%string) /\
  forall arg more, ["a"; "-v"]%string = arg :: more -> ~ dashed arg.
Proof.
  assert (fst (main_for ["-un"; "-"; "a"; "-v"]%string (unset, None) (boot fs_abc)) =
          Some ({| verbose := true; noexec := true; recursive := false;
                   ignore_uid := true; ignore_gid := false; ignore_perms := false;
                   ignore_empty := false; debug := false; symbolic := false |},
                None, ["a"; "-v"]%string)) as H1 by (vm_compute; reflexivity).
  split; [exact H1|].
  apply (flags_only_switch_on _ _ _ _ _ _ _ H1).
Defined.

Lemma dash_n_witness :
  Forall dashed ["-v"]%string /\ In "n"%char (list_ascii_of_string "rn") /\
  w_fs (snd (rat calm 0 [] ["-v"; "-rn"; "a"; "b"]%string (boot fs_abc))) = fs_abc.
Proof.
  assert (Forall dashed ["-v"]%string) as H1
    by (constructor; [eexists; reflexivity | constructor]).
  assert (In "n"%char (list_ascii_of_string "rn")) as H2 by (right; left; reflexivity).
  split_and!; [exact H1 | exact H2 |].
  apply (dash_n_changes_nothing calm 0 [] ["-v"]%string "rn" ["a"; "b"]%string
           (boot fs_abc) H1 H2).
Defined.

Lemma priority_witness :
  niceness (boot fs_abc) = 0 /\
  nices (w_out (snd (replace2 root plain "a" "b" (boot fs_abc)))) = [-5; 5] /\
  priority 0 (w_out (snd (rat root 0 [] ["a"; "b"; "c"]%string (boot fs_abc)))) = 0.
Proof.
  destruct (priority_is_given_back root 0 [] ["a"; "b"; "c"]%string (boot fs_abc) 0
              eq_refl) as (R1 & _ & R3).
  split_and!; [reflexivity | exact (proj2 (R1 plain "a"%string "b"%string)) |].
  apply R3. vm_compute. split; discriminate.
Defined.

(** Started at -18, root ends a swap at -15. *)
Lemma priority_after_the_limit :
  priority (-18) (w_out (snd (replace2 root plain "a" "b" (boot fs_abc)))) = -15.
Proof. vm_compute. reflexivity. Qed.

Lemma enter_witness :
  fst (enter calm following "s" "." [] (boot fs_sym)) =
    (NOTDIR,
     [ {| h_info := [info_s]; h_size := 1; h_dev := 1; h_uid := 1000;
          h_gid := 1000; h_perms := 420 |} ]).
Proof.
  destruct (proj2 (proj2 (proj2 (enter_skips_silently calm following "s" "." []
                                   (boot fs_sym)))) (fun _ _ => eq_refl)) as [w' H].
  rewrite H. vm_compute. reflexivity.
Defined.

Lemma fs_resolve_inode (hops : nat) (fs : FS) (path : string) (ino : Z) (nd : Inode) :
  fs_resolve hops fs path = Some (ino, nd) -> fs_inodes fs !! ino = Some nd.
Proof.
  revert path. induction hops as [|hops IH]; intros path; cbn [fs_resolve];
    unfold fs_lookup; destruct (fs_names fs !! path) as [i|]; try discriminate;
    destruct (fs_inodes fs !! i) as [n|] eqn:E; try discriminate;
    destruct (n_kind n); try (intros [= <- <-]; exact E); try discriminate.
  apply IH.
Qed.

(** There is no directory in [fs_abc]. *)
Lemma fs_abc_flat (dir : string) : fs_opendir fs_abc dir = None.
Proof.
  unfold fs_opendir.
  destruct (fs_resolve SYMLOOP_MAX fs_abc dir) as [[ino nd]|] eqn:R; [|reflexivity].
  apply fs_resolve_inode in R. unfold fs_abc in R. cbn [fs_inodes] in R.
  repeat (apply lookup_insert_Some in R as [[_ <-]|[_ R]]; [reflexivity|]).
  rewrite lookup_empty in R. discriminate.
Qed.

Lemma found_names_witness :
  ~ found plain fs_abc ["a"; "b"]%string "c" /\
  fs_names (w_fs (snd (main calm plain 0 ["a"; "b"]%string (boot fs_abc))))
    !! "c"%string = Some 102.
Proof.
  assert (~ found plain fs_abc ["a"; "b"]%string "c") as H1.
  { intros H. inversion H as [arg Hin|dir entries d_name Hd Hr Ho]; subst.
    - repeat (apply elem_of_cons in Hin as [Hin|Hin]; [discriminate|]).
      inversion Hin.
    - rewrite fs_abc_flat in Ho. discriminate. }
  assert (forall s n, found plain fs_abc ["a"; "b"]%string s ->
            "c"%string <> newname_of calm s (time calm n)) as H2.
  { intros s n _ E. apply (f_equal String.length) in E.
    rewrite newname_length in E. simpl in E. lia. }
  split; [exact H1|].
  rewrite (proj2 (main_changes_only_names_it_found calm plain 0 ["a"; "b"]%string
                    (boot fs_abc) "c" H1 H2)).
  reflexivity.
Defined.

Lemma symbolic_link_witness :
  fs_lookup fs_sym "s" =
    Some (102, {| n_kind := S_IFLNK "t"; n_perms := 511; n_uid := 1000;
                  n_gid := 1000; n_nlink := 1; n_data := [] |}) /\
  fst (replace calm plain info_a info_s (boot fs_sym)) = 1 /\
  content (w_fs (snd (replace calm plain info_a info_s (boot fs_sym)))) "s" =
    Some (S_IFREG, [x58]).
Proof.
  assert (fs_lookup fs_sym "s" =
            Some (102, {| n_kind := S_IFLNK "t"; n_perms := 511; n_uid := 1000;
                          n_gid := 1000; n_nlink := 1; n_data := [] |})) as H1
    by (vm_compute; reflexivity).
  destruct (symbolic_link_becomes_hard_link calm plain (fun _ _ => eq_refl) eq_refl
              (ltac:(vm_compute; lia) : (0 < BUFSIZ calm)%nat)
              info_a info_s (boot fs_sym) 102 (regular 1 [x58])
              {| n_kind := S_IFLNK "t"; n_perms := 511; n_uid := 1000;
                 n_gid := 1000; n_nlink := 1; n_data := [] |})
    as (R1 & _ & R3);
    [vm_compute; reflexivity | reflexivity | exact H1 | eexists; reflexivity
    | vm_compute; reflexivity | discriminate | discriminate | vm_compute; discriminate
    | intros n; vm_compute; reflexivity |].
  exact (conj H1 (conj R1 R3)).
Defined.
